(** * DBLP.py: a shallow embedding of the crawl-and-analyse pipeline

    The development follows the source file top-down: Paper Records and the
    conference table, the Fetcher/Extractor ([get_paper_info]), the
    Aggregator ([plot_paper_trend]), the Keyword Analyzer
    ([extract_keywords]) and the Forecaster ([predict_next_year]); then
    the font discovery ([set_chinese_font]), the Persister
    ([save_to_csv]), the keyword ranking ([plot_keywords_bar]), the report
    of the Forecaster and the Orchestrator ([process_conference], [main]).

    Python values are modelled as follows.
    - [int] is [Z]; a [dict] used as a map is a [gmap]; a [str] is the
      [string] of its UTF-8 encoding, read by character where the code
      looks at characters.
    - An exception is a value of [exn]; code that may raise returns
      [result A]; [try: ... except Exception:] is a [match] on the result.
    - The outside world (the HTTP response, the HTML parser, the charting
      library) is an explicit argument of the function that consults it;
      the files that are written are a map from paths to contents.
      Messages printed to the console are not modelled. *)

From Stdlib Require Import ZArith QArith Qabs Qround Qpower Lqa Lia Ascii String List.
From Stdlib Require Import DecimalString DecimalPos DecimalZ.
From Stdlib Require PrimFloat SpecFloat FloatOps.
From stdpp Require Import base option list gmap strings sorting.

Local Open Scope Z_scope.

(** ** Exceptions *)

Inductive exn :=
  | KeyError | ValueError | ZeroDivisionError | OverflowError
  | RequestException | HTTPError | ParserError | RenderError.

Inductive result (A : Type) :=
  | Ok (a : A)
  | Raise (e : exn).
Arguments Ok {A} a.
Arguments Raise {A} e.

(** The error monad; [x ← r; k] propagates a raised exception. *)
#[global] Instance result_bind : MBind result := λ A B k r,
  match r with
  | Ok a => k a
  | Raise e => Raise e
  end.
#[global] Instance result_ret : MRet result := λ A a, Ok a.

Fixpoint traverse {A B} (f : A → result B) (l : list A) : result (list B) :=
  match l with
  | [] => Ok []
  | a :: l' => b ← f a; bs ← traverse f l'; Ok (b :: bs)
  end.

(** ** Python strings

    A [str] is a sequence of Unicode characters.  It is held as its UTF-8
    encoding, which is what a string literal of this file denotes:
    concatenation, comparison, search and the order of [sorted] are then
    those of [string].  The operations that look at characters ([len],
    [str.lower], [str.split], [str.strip], [int] and the [re] classes [\w]
    and [\s]) read the code points and consult the tables of the Unicode
    Character Database, here in version 14.0.0, the one of CPython 3.11.
    A [string] that is not well-formed UTF-8 is the encoding of no [str];
    its offending bytes read as U+FFFD.  A [str] that holds a surrogate
    code point has no encoding; neither the decoder of a response nor the
    HTML parser produces one. *)

Definition code (c : ascii) : N := N_of_ascii c.

Definition byte (n : N) : ascii := ascii_of_N n.

Definition between (lo hi n : N) : bool := ((lo <=? n) && (n <=? hi))%N.

(** *** The Unicode Character Database

    Every table but the last two is a list of ranges of code points, both
    ends included. *)

Module Unicode.
Local Open Scope N_scope.

(** [str.isspace], which is also [\s]: bidirectional type WS, B or S, or
    general category Zs. *)
Definition WHITESPACE : list (N * N) :=
  [(0x9, 0xD); (0x1C, 0x20); (0x85, 0x85); (0xA0, 0xA0); (0x1680, 0x1680);
   (0x2000, 0x200A); (0x2028, 0x2029); (0x202F, 0x202F); (0x205F, 0x205F);
   (0x3000, 0x3000)].

(** [str.isalnum]: a letter, or a character with a numeric value. *)
Definition ALNUM : list (N * N) :=
  [(0x30, 0x39); (0x41, 0x5A); (0x61, 0x7A); (0xAA, 0xAA); (0xB2, 0xB3);
   (0xB5, 0xB5); (0xB9, 0xBA); (0xBC, 0xBE); (0xC0, 0xD6); (0xD8, 0xF6);
   (0xF8, 0x2C1); (0x2C6, 0x2D1); (0x2E0, 0x2E4); (0x2EC, 0x2EC);
   (0x2EE, 0x2EE); (0x370, 0x374); (0x376, 0x377); (0x37A, 0x37D);
   (0x37F, 0x37F); (0x386, 0x386); (0x388, 0x38A); (0x38C, 0x38C);
   (0x38E, 0x3A1); (0x3A3, 0x3F5); (0x3F7, 0x481); (0x48A, 0x52F);
   (0x531, 0x556); (0x559, 0x559); (0x560, 0x588); (0x5D0, 0x5EA);
   (0x5EF, 0x5F2); (0x620, 0x64A); (0x660, 0x669); (0x66E, 0x66F);
   (0x671, 0x6D3); (0x6D5, 0x6D5); (0x6E5, 0x6E6); (0x6EE, 0x6FC);
   (0x6FF, 0x6FF); (0x710, 0x710); (0x712, 0x72F); (0x74D, 0x7A5);
   (0x7B1, 0x7B1); (0x7C0, 0x7EA); (0x7F4, 0x7F5); (0x7FA, 0x7FA);
   (0x800, 0x815); (0x81A, 0x81A); (0x824, 0x824); (0x828, 0x828);
   (0x840, 0x858); (0x860, 0x86A); (0x870, 0x887); (0x889, 0x88E);
   (0x8A0, 0x8C9); (0x904, 0x939); (0x93D, 0x93D); (0x950, 0x950);
   (0x958, 0x961); (0x966, 0x96F); (0x971, 0x980); (0x985, 0x98C);
   (0x98F, 0x990); (0x993, 0x9A8); (0x9AA, 0x9B0); (0x9B2, 0x9B2);
   (0x9B6, 0x9B9); (0x9BD, 0x9BD); (0x9CE, 0x9CE); (0x9DC, 0x9DD);
   (0x9DF, 0x9E1); (0x9E6, 0x9F1); (0x9F4, 0x9F9); (0x9FC, 0x9FC);
   (0xA05, 0xA0A); (0xA0F, 0xA10); (0xA13, 0xA28); (0xA2A, 0xA30);
   (0xA32, 0xA33); (0xA35, 0xA36); (0xA38, 0xA39); (0xA59, 0xA5C);
   (0xA5E, 0xA5E); (0xA66, 0xA6F); (0xA72, 0xA74); (0xA85, 0xA8D);
   (0xA8F, 0xA91); (0xA93, 0xAA8); (0xAAA, 0xAB0); (0xAB2, 0xAB3);
   (0xAB5, 0xAB9); (0xABD, 0xABD); (0xAD0, 0xAD0); (0xAE0, 0xAE1);
   (0xAE6, 0xAEF); (0xAF9, 0xAF9); (0xB05, 0xB0C); (0xB0F, 0xB10);
   (0xB13, 0xB28); (0xB2A, 0xB30); (0xB32, 0xB33); (0xB35, 0xB39);
   (0xB3D, 0xB3D); (0xB5C, 0xB5D); (0xB5F, 0xB61); (0xB66, 0xB6F);
   (0xB71, 0xB77); (0xB83, 0xB83); (0xB85, 0xB8A); (0xB8E, 0xB90);
   (0xB92, 0xB95); (0xB99, 0xB9A); (0xB9C, 0xB9C); (0xB9E, 0xB9F);
   (0xBA3, 0xBA4); (0xBA8, 0xBAA); (0xBAE, 0xBB9); (0xBD0, 0xBD0);
   (0xBE6, 0xBF2); (0xC05, 0xC0C); (0xC0E, 0xC10); (0xC12, 0xC28);
   (0xC2A, 0xC39); (0xC3D, 0xC3D); (0xC58, 0xC5A); (0xC5D, 0xC5D);
   (0xC60, 0xC61); (0xC66, 0xC6F); (0xC78, 0xC7E); (0xC80, 0xC80);
   (0xC85, 0xC8C); (0xC8E, 0xC90); (0xC92, 0xCA8); (0xCAA, 0xCB3);
   (0xCB5, 0xCB9); (0xCBD, 0xCBD); (0xCDD, 0xCDE); (0xCE0, 0xCE1);
   (0xCE6, 0xCEF); (0xCF1, 0xCF2); (0xD04, 0xD0C); (0xD0E, 0xD10);
   (0xD12, 0xD3A); (0xD3D, 0xD3D); (0xD4E, 0xD4E); (0xD54, 0xD56);
   (0xD58, 0xD61); (0xD66, 0xD78); (0xD7A, 0xD7F); (0xD85, 0xD96);
   (0xD9A, 0xDB1); (0xDB3, 0xDBB); (0xDBD, 0xDBD); (0xDC0, 0xDC6);
   (0xDE6, 0xDEF); (0xE01, 0xE30); (0xE32, 0xE33); (0xE40, 0xE46);
   (0xE50, 0xE59); (0xE81, 0xE82); (0xE84, 0xE84); (0xE86, 0xE8A);
   (0xE8C, 0xEA3); (0xEA5, 0xEA5); (0xEA7, 0xEB0); (0xEB2, 0xEB3);
   (0xEBD, 0xEBD); (0xEC0, 0xEC4); (0xEC6, 0xEC6); (0xED0, 0xED9);
   (0xEDC, 0xEDF); (0xF00, 0xF00); (0xF20, 0xF33); (0xF40, 0xF47);
   (0xF49, 0xF6C); (0xF88, 0xF8C); (0x1000, 0x102A); (0x103F, 0x1049);
   (0x1050, 0x1055); (0x105A, 0x105D); (0x1061, 0x1061); (0x1065, 0x1066);
   (0x106E, 0x1070); (0x1075, 0x1081); (0x108E, 0x108E); (0x1090, 0x1099);
   (0x10A0, 0x10C5); (0x10C7, 0x10C7); (0x10CD, 0x10CD); (0x10D0, 0x10FA);
   (0x10FC, 0x1248); (0x124A, 0x124D); (0x1250, 0x1256); (0x1258, 0x1258);
   (0x125A, 0x125D); (0x1260, 0x1288); (0x128A, 0x128D); (0x1290, 0x12B0);
   (0x12B2, 0x12B5); (0x12B8, 0x12BE); (0x12C0, 0x12C0); (0x12C2, 0x12C5);
   (0x12C8, 0x12D6); (0x12D8, 0x1310); (0x1312, 0x1315); (0x1318, 0x135A);
   (0x1369, 0x137C); (0x1380, 0x138F); (0x13A0, 0x13F5); (0x13F8, 0x13FD);
   (0x1401, 0x166C); (0x166F, 0x167F); (0x1681, 0x169A); (0x16A0, 0x16EA);
   (0x16EE, 0x16F8); (0x1700, 0x1711); (0x171F, 0x1731); (0x1740, 0x1751);
   (0x1760, 0x176C); (0x176E, 0x1770); (0x1780, 0x17B3); (0x17D7, 0x17D7);
   (0x17DC, 0x17DC); (0x17E0, 0x17E9); (0x17F0, 0x17F9); (0x1810, 0x1819);
   (0x1820, 0x1878); (0x1880, 0x1884); (0x1887, 0x18A8); (0x18AA, 0x18AA);
   (0x18B0, 0x18F5); (0x1900, 0x191E); (0x1946, 0x196D); (0x1970, 0x1974);
   (0x1980, 0x19AB); (0x19B0, 0x19C9); (0x19D0, 0x19DA); (0x1A00, 0x1A16);
   (0x1A20, 0x1A54); (0x1A80, 0x1A89); (0x1A90, 0x1A99); (0x1AA7, 0x1AA7);
   (0x1B05, 0x1B33); (0x1B45, 0x1B4C); (0x1B50, 0x1B59); (0x1B83, 0x1BA0);
   (0x1BAE, 0x1BE5); (0x1C00, 0x1C23); (0x1C40, 0x1C49); (0x1C4D, 0x1C7D);
   (0x1C80, 0x1C88); (0x1C90, 0x1CBA); (0x1CBD, 0x1CBF); (0x1CE9, 0x1CEC);
   (0x1CEE, 0x1CF3); (0x1CF5, 0x1CF6); (0x1CFA, 0x1CFA); (0x1D00, 0x1DBF);
   (0x1E00, 0x1F15); (0x1F18, 0x1F1D); (0x1F20, 0x1F45); (0x1F48, 0x1F4D);
   (0x1F50, 0x1F57); (0x1F59, 0x1F59); (0x1F5B, 0x1F5B); (0x1F5D, 0x1F5D);
   (0x1F5F, 0x1F7D); (0x1F80, 0x1FB4); (0x1FB6, 0x1FBC); (0x1FBE, 0x1FBE);
   (0x1FC2, 0x1FC4); (0x1FC6, 0x1FCC); (0x1FD0, 0x1FD3); (0x1FD6, 0x1FDB);
   (0x1FE0, 0x1FEC); (0x1FF2, 0x1FF4); (0x1FF6, 0x1FFC); (0x2070, 0x2071);
   (0x2074, 0x2079); (0x207F, 0x2089); (0x2090, 0x209C); (0x2102, 0x2102);
   (0x2107, 0x2107); (0x210A, 0x2113); (0x2115, 0x2115); (0x2119, 0x211D);
   (0x2124, 0x2124); (0x2126, 0x2126); (0x2128, 0x2128); (0x212A, 0x212D);
   (0x212F, 0x2139); (0x213C, 0x213F); (0x2145, 0x2149); (0x214E, 0x214E);
   (0x2150, 0x2189); (0x2460, 0x249B); (0x24EA, 0x24FF); (0x2776, 0x2793);
   (0x2C00, 0x2CE4); (0x2CEB, 0x2CEE); (0x2CF2, 0x2CF3); (0x2CFD, 0x2CFD);
   (0x2D00, 0x2D25); (0x2D27, 0x2D27); (0x2D2D, 0x2D2D); (0x2D30, 0x2D67);
   (0x2D6F, 0x2D6F); (0x2D80, 0x2D96); (0x2DA0, 0x2DA6); (0x2DA8, 0x2DAE);
   (0x2DB0, 0x2DB6); (0x2DB8, 0x2DBE); (0x2DC0, 0x2DC6); (0x2DC8, 0x2DCE);
   (0x2DD0, 0x2DD6); (0x2DD8, 0x2DDE); (0x2E2F, 0x2E2F); (0x3005, 0x3007);
   (0x3021, 0x3029); (0x3031, 0x3035); (0x3038, 0x303C); (0x3041, 0x3096);
   (0x309D, 0x309F); (0x30A1, 0x30FA); (0x30FC, 0x30FF); (0x3105, 0x312F);
   (0x3131, 0x318E); (0x3192, 0x3195); (0x31A0, 0x31BF); (0x31F0, 0x31FF);
   (0x3220, 0x3229); (0x3248, 0x324F); (0x3251, 0x325F); (0x3280, 0x3289);
   (0x32B1, 0x32BF); (0x3400, 0x4DBF); (0x4E00, 0xA48C); (0xA4D0, 0xA4FD);
   (0xA500, 0xA60C); (0xA610, 0xA62B); (0xA640, 0xA66E); (0xA67F, 0xA69D);
   (0xA6A0, 0xA6EF); (0xA717, 0xA71F); (0xA722, 0xA788); (0xA78B, 0xA7CA);
   (0xA7D0, 0xA7D1); (0xA7D3, 0xA7D3); (0xA7D5, 0xA7D9); (0xA7F2, 0xA801);
   (0xA803, 0xA805); (0xA807, 0xA80A); (0xA80C, 0xA822); (0xA830, 0xA835);
   (0xA840, 0xA873); (0xA882, 0xA8B3); (0xA8D0, 0xA8D9); (0xA8F2, 0xA8F7);
   (0xA8FB, 0xA8FB); (0xA8FD, 0xA8FE); (0xA900, 0xA925); (0xA930, 0xA946);
   (0xA960, 0xA97C); (0xA984, 0xA9B2); (0xA9CF, 0xA9D9); (0xA9E0, 0xA9E4);
   (0xA9E6, 0xA9FE); (0xAA00, 0xAA28); (0xAA40, 0xAA42); (0xAA44, 0xAA4B);
   (0xAA50, 0xAA59); (0xAA60, 0xAA76); (0xAA7A, 0xAA7A); (0xAA7E, 0xAAAF);
   (0xAAB1, 0xAAB1); (0xAAB5, 0xAAB6); (0xAAB9, 0xAABD); (0xAAC0, 0xAAC0);
   (0xAAC2, 0xAAC2); (0xAADB, 0xAADD); (0xAAE0, 0xAAEA); (0xAAF2, 0xAAF4);
   (0xAB01, 0xAB06); (0xAB09, 0xAB0E); (0xAB11, 0xAB16); (0xAB20, 0xAB26);
   (0xAB28, 0xAB2E); (0xAB30, 0xAB5A); (0xAB5C, 0xAB69); (0xAB70, 0xABE2);
   (0xABF0, 0xABF9); (0xAC00, 0xD7A3); (0xD7B0, 0xD7C6); (0xD7CB, 0xD7FB);
   (0xF900, 0xFA6D); (0xFA70, 0xFAD9); (0xFB00, 0xFB06); (0xFB13, 0xFB17);
   (0xFB1D, 0xFB1D); (0xFB1F, 0xFB28); (0xFB2A, 0xFB36); (0xFB38, 0xFB3C);
   (0xFB3E, 0xFB3E); (0xFB40, 0xFB41); (0xFB43, 0xFB44); (0xFB46, 0xFBB1);
   (0xFBD3, 0xFD3D); (0xFD50, 0xFD8F); (0xFD92, 0xFDC7); (0xFDF0, 0xFDFB);
   (0xFE70, 0xFE74); (0xFE76, 0xFEFC); (0xFF10, 0xFF19); (0xFF21, 0xFF3A);
   (0xFF41, 0xFF5A); (0xFF66, 0xFFBE); (0xFFC2, 0xFFC7); (0xFFCA, 0xFFCF);
   (0xFFD2, 0xFFD7); (0xFFDA, 0xFFDC); (0x10000, 0x1000B);
   (0x1000D, 0x10026); (0x10028, 0x1003A); (0x1003C, 0x1003D);
   (0x1003F, 0x1004D); (0x10050, 0x1005D); (0x10080, 0x100FA);
   (0x10107, 0x10133); (0x10140, 0x10178); (0x1018A, 0x1018B);
   (0x10280, 0x1029C); (0x102A0, 0x102D0); (0x102E1, 0x102FB);
   (0x10300, 0x10323); (0x1032D, 0x1034A); (0x10350, 0x10375);
   (0x10380, 0x1039D); (0x103A0, 0x103C3); (0x103C8, 0x103CF);
   (0x103D1, 0x103D5); (0x10400, 0x1049D); (0x104A0, 0x104A9);
   (0x104B0, 0x104D3); (0x104D8, 0x104FB); (0x10500, 0x10527);
   (0x10530, 0x10563); (0x10570, 0x1057A); (0x1057C, 0x1058A);
   (0x1058C, 0x10592); (0x10594, 0x10595); (0x10597, 0x105A1);
   (0x105A3, 0x105B1); (0x105B3, 0x105B9); (0x105BB, 0x105BC);
   (0x10600, 0x10736); (0x10740, 0x10755); (0x10760, 0x10767);
   (0x10780, 0x10785); (0x10787, 0x107B0); (0x107B2, 0x107BA);
   (0x10800, 0x10805); (0x10808, 0x10808); (0x1080A, 0x10835);
   (0x10837, 0x10838); (0x1083C, 0x1083C); (0x1083F, 0x10855);
   (0x10858, 0x10876); (0x10879, 0x1089E); (0x108A7, 0x108AF);
   (0x108E0, 0x108F2); (0x108F4, 0x108F5); (0x108FB, 0x1091B);
   (0x10920, 0x10939); (0x10980, 0x109B7); (0x109BC, 0x109CF);
   (0x109D2, 0x10A00); (0x10A10, 0x10A13); (0x10A15, 0x10A17);
   (0x10A19, 0x10A35); (0x10A40, 0x10A48); (0x10A60, 0x10A7E);
   (0x10A80, 0x10A9F); (0x10AC0, 0x10AC7); (0x10AC9, 0x10AE4);
   (0x10AEB, 0x10AEF); (0x10B00, 0x10B35); (0x10B40, 0x10B55);
   (0x10B58, 0x10B72); (0x10B78, 0x10B91); (0x10BA9, 0x10BAF);
   (0x10C00, 0x10C48); (0x10C80, 0x10CB2); (0x10CC0, 0x10CF2);
   (0x10CFA, 0x10D23); (0x10D30, 0x10D39); (0x10E60, 0x10E7E);
   (0x10E80, 0x10EA9); (0x10EB0, 0x10EB1); (0x10F00, 0x10F27);
   (0x10F30, 0x10F45); (0x10F51, 0x10F54); (0x10F70, 0x10F81);
   (0x10FB0, 0x10FCB); (0x10FE0, 0x10FF6); (0x11003, 0x11037);
   (0x11052, 0x1106F); (0x11071, 0x11072); (0x11075, 0x11075);
   (0x11083, 0x110AF); (0x110D0, 0x110E8); (0x110F0, 0x110F9);
   (0x11103, 0x11126); (0x11136, 0x1113F); (0x11144, 0x11144);
   (0x11147, 0x11147); (0x11150, 0x11172); (0x11176, 0x11176);
   (0x11183, 0x111B2); (0x111C1, 0x111C4); (0x111D0, 0x111DA);
   (0x111DC, 0x111DC); (0x111E1, 0x111F4); (0x11200, 0x11211);
   (0x11213, 0x1122B); (0x11280, 0x11286); (0x11288, 0x11288);
   (0x1128A, 0x1128D); (0x1128F, 0x1129D); (0x1129F, 0x112A8);
   (0x112B0, 0x112DE); (0x112F0, 0x112F9); (0x11305, 0x1130C);
   (0x1130F, 0x11310); (0x11313, 0x11328); (0x1132A, 0x11330);
   (0x11332, 0x11333); (0x11335, 0x11339); (0x1133D, 0x1133D);
   (0x11350, 0x11350); (0x1135D, 0x11361); (0x11400, 0x11434);
   (0x11447, 0x1144A); (0x11450, 0x11459); (0x1145F, 0x11461);
   (0x11480, 0x114AF); (0x114C4, 0x114C5); (0x114C7, 0x114C7);
   (0x114D0, 0x114D9); (0x11580, 0x115AE); (0x115D8, 0x115DB);
   (0x11600, 0x1162F); (0x11644, 0x11644); (0x11650, 0x11659);
   (0x11680, 0x116AA); (0x116B8, 0x116B8); (0x116C0, 0x116C9);
   (0x11700, 0x1171A); (0x11730, 0x1173B); (0x11740, 0x11746);
   (0x11800, 0x1182B); (0x118A0, 0x118F2); (0x118FF, 0x11906);
   (0x11909, 0x11909); (0x1190C, 0x11913); (0x11915, 0x11916);
   (0x11918, 0x1192F); (0x1193F, 0x1193F); (0x11941, 0x11941);
   (0x11950, 0x11959); (0x119A0, 0x119A7); (0x119AA, 0x119D0);
   (0x119E1, 0x119E1); (0x119E3, 0x119E3); (0x11A00, 0x11A00);
   (0x11A0B, 0x11A32); (0x11A3A, 0x11A3A); (0x11A50, 0x11A50);
   (0x11A5C, 0x11A89); (0x11A9D, 0x11A9D); (0x11AB0, 0x11AF8);
   (0x11C00, 0x11C08); (0x11C0A, 0x11C2E); (0x11C40, 0x11C40);
   (0x11C50, 0x11C6C); (0x11C72, 0x11C8F); (0x11D00, 0x11D06);
   (0x11D08, 0x11D09); (0x11D0B, 0x11D30); (0x11D46, 0x11D46);
   (0x11D50, 0x11D59); (0x11D60, 0x11D65); (0x11D67, 0x11D68);
   (0x11D6A, 0x11D89); (0x11D98, 0x11D98); (0x11DA0, 0x11DA9);
   (0x11EE0, 0x11EF2); (0x11FB0, 0x11FB0); (0x11FC0, 0x11FD4);
   (0x12000, 0x12399); (0x12400, 0x1246E); (0x12480, 0x12543);
   (0x12F90, 0x12FF0); (0x13000, 0x1342E); (0x14400, 0x14646);
   (0x16800, 0x16A38); (0x16A40, 0x16A5E); (0x16A60, 0x16A69);
   (0x16A70, 0x16ABE); (0x16AC0, 0x16AC9); (0x16AD0, 0x16AED);
   (0x16B00, 0x16B2F); (0x16B40, 0x16B43); (0x16B50, 0x16B59);
   (0x16B5B, 0x16B61); (0x16B63, 0x16B77); (0x16B7D, 0x16B8F);
   (0x16E40, 0x16E96); (0x16F00, 0x16F4A); (0x16F50, 0x16F50);
   (0x16F93, 0x16F9F); (0x16FE0, 0x16FE1); (0x16FE3, 0x16FE3);
   (0x17000, 0x187F7); (0x18800, 0x18CD5); (0x18D00, 0x18D08);
   (0x1AFF0, 0x1AFF3); (0x1AFF5, 0x1AFFB); (0x1AFFD, 0x1AFFE);
   (0x1B000, 0x1B122); (0x1B150, 0x1B152); (0x1B164, 0x1B167);
   (0x1B170, 0x1B2FB); (0x1BC00, 0x1BC6A); (0x1BC70, 0x1BC7C);
   (0x1BC80, 0x1BC88); (0x1BC90, 0x1BC99); (0x1D2E0, 0x1D2F3);
   (0x1D360, 0x1D378); (0x1D400, 0x1D454); (0x1D456, 0x1D49C);
   (0x1D49E, 0x1D49F); (0x1D4A2, 0x1D4A2); (0x1D4A5, 0x1D4A6);
   (0x1D4A9, 0x1D4AC); (0x1D4AE, 0x1D4B9); (0x1D4BB, 0x1D4BB);
   (0x1D4BD, 0x1D4C3); (0x1D4C5, 0x1D505); (0x1D507, 0x1D50A);
   (0x1D50D, 0x1D514); (0x1D516, 0x1D51C); (0x1D51E, 0x1D539);
   (0x1D53B, 0x1D53E); (0x1D540, 0x1D544); (0x1D546, 0x1D546);
   (0x1D54A, 0x1D550); (0x1D552, 0x1D6A5); (0x1D6A8, 0x1D6C0);
   (0x1D6C2, 0x1D6DA); (0x1D6DC, 0x1D6FA); (0x1D6FC, 0x1D714);
   (0x1D716, 0x1D734); (0x1D736, 0x1D74E); (0x1D750, 0x1D76E);
   (0x1D770, 0x1D788); (0x1D78A, 0x1D7A8); (0x1D7AA, 0x1D7C2);
   (0x1D7C4, 0x1D7CB); (0x1D7CE, 0x1D7FF); (0x1DF00, 0x1DF1E);
   (0x1E100, 0x1E12C); (0x1E137, 0x1E13D); (0x1E140, 0x1E149);
   (0x1E14E, 0x1E14E); (0x1E290, 0x1E2AD); (0x1E2C0, 0x1E2EB);
   (0x1E2F0, 0x1E2F9); (0x1E7E0, 0x1E7E6); (0x1E7E8, 0x1E7EB);
   (0x1E7ED, 0x1E7EE); (0x1E7F0, 0x1E7FE); (0x1E800, 0x1E8C4);
   (0x1E8C7, 0x1E8CF); (0x1E900, 0x1E943); (0x1E94B, 0x1E94B);
   (0x1E950, 0x1E959); (0x1EC71, 0x1ECAB); (0x1ECAD, 0x1ECAF);
   (0x1ECB1, 0x1ECB4); (0x1ED01, 0x1ED2D); (0x1ED2F, 0x1ED3D);
   (0x1EE00, 0x1EE03); (0x1EE05, 0x1EE1F); (0x1EE21, 0x1EE22);
   (0x1EE24, 0x1EE24); (0x1EE27, 0x1EE27); (0x1EE29, 0x1EE32);
   (0x1EE34, 0x1EE37); (0x1EE39, 0x1EE39); (0x1EE3B, 0x1EE3B);
   (0x1EE42, 0x1EE42); (0x1EE47, 0x1EE47); (0x1EE49, 0x1EE49);
   (0x1EE4B, 0x1EE4B); (0x1EE4D, 0x1EE4F); (0x1EE51, 0x1EE52);
   (0x1EE54, 0x1EE54); (0x1EE57, 0x1EE57); (0x1EE59, 0x1EE59);
   (0x1EE5B, 0x1EE5B); (0x1EE5D, 0x1EE5D); (0x1EE5F, 0x1EE5F);
   (0x1EE61, 0x1EE62); (0x1EE64, 0x1EE64); (0x1EE67, 0x1EE6A);
   (0x1EE6C, 0x1EE72); (0x1EE74, 0x1EE77); (0x1EE79, 0x1EE7C);
   (0x1EE7E, 0x1EE7E); (0x1EE80, 0x1EE89); (0x1EE8B, 0x1EE9B);
   (0x1EEA1, 0x1EEA3); (0x1EEA5, 0x1EEA9); (0x1EEAB, 0x1EEBB);
   (0x1F100, 0x1F10C); (0x1FBF0, 0x1FBF9); (0x20000, 0x2A6DF);
   (0x2A700, 0x2B738); (0x2B740, 0x2B81D); (0x2B820, 0x2CEA1);
   (0x2CEB0, 0x2EBE0); (0x2F800, 0x2FA1D); (0x30000, 0x3134A)].

(** The property Cased. *)
Definition CASED : list (N * N) :=
  [(0x41, 0x5A); (0x61, 0x7A); (0xAA, 0xAA); (0xB5, 0xB5); (0xBA, 0xBA);
   (0xC0, 0xD6); (0xD8, 0xF6); (0xF8, 0x1BA); (0x1BC, 0x1BF); (0x1C4, 0x293);
   (0x295, 0x2B8); (0x2C0, 0x2C1); (0x2E0, 0x2E4); (0x345, 0x345);
   (0x370, 0x373); (0x376, 0x377); (0x37A, 0x37D); (0x37F, 0x37F);
   (0x386, 0x386); (0x388, 0x38A); (0x38C, 0x38C); (0x38E, 0x3A1);
   (0x3A3, 0x3F5); (0x3F7, 0x481); (0x48A, 0x52F); (0x531, 0x556);
   (0x560, 0x588); (0x10A0, 0x10C5); (0x10C7, 0x10C7); (0x10CD, 0x10CD);
   (0x10D0, 0x10FA); (0x10FD, 0x10FF); (0x13A0, 0x13F5); (0x13F8, 0x13FD);
   (0x1C80, 0x1C88); (0x1C90, 0x1CBA); (0x1CBD, 0x1CBF); (0x1D00, 0x1DBF);
   (0x1E00, 0x1F15); (0x1F18, 0x1F1D); (0x1F20, 0x1F45); (0x1F48, 0x1F4D);
   (0x1F50, 0x1F57); (0x1F59, 0x1F59); (0x1F5B, 0x1F5B); (0x1F5D, 0x1F5D);
   (0x1F5F, 0x1F7D); (0x1F80, 0x1FB4); (0x1FB6, 0x1FBC); (0x1FBE, 0x1FBE);
   (0x1FC2, 0x1FC4); (0x1FC6, 0x1FCC); (0x1FD0, 0x1FD3); (0x1FD6, 0x1FDB);
   (0x1FE0, 0x1FEC); (0x1FF2, 0x1FF4); (0x1FF6, 0x1FFC); (0x2071, 0x2071);
   (0x207F, 0x207F); (0x2090, 0x209C); (0x2102, 0x2102); (0x2107, 0x2107);
   (0x210A, 0x2113); (0x2115, 0x2115); (0x2119, 0x211D); (0x2124, 0x2124);
   (0x2126, 0x2126); (0x2128, 0x2128); (0x212A, 0x212D); (0x212F, 0x2134);
   (0x2139, 0x2139); (0x213C, 0x213F); (0x2145, 0x2149); (0x214E, 0x214E);
   (0x2160, 0x217F); (0x2183, 0x2184); (0x24B6, 0x24E9); (0x2C00, 0x2CE4);
   (0x2CEB, 0x2CEE); (0x2CF2, 0x2CF3); (0x2D00, 0x2D25); (0x2D27, 0x2D27);
   (0x2D2D, 0x2D2D); (0xA640, 0xA66D); (0xA680, 0xA69D); (0xA722, 0xA787);
   (0xA78B, 0xA78E); (0xA790, 0xA7CA); (0xA7D0, 0xA7D1); (0xA7D3, 0xA7D3);
   (0xA7D5, 0xA7D9); (0xA7F5, 0xA7F6); (0xA7F8, 0xA7FA); (0xAB30, 0xAB5A);
   (0xAB5C, 0xAB68); (0xAB70, 0xABBF); (0xFB00, 0xFB06); (0xFB13, 0xFB17);
   (0xFF21, 0xFF3A); (0xFF41, 0xFF5A); (0x10400, 0x1044F);
   (0x104B0, 0x104D3); (0x104D8, 0x104FB); (0x10570, 0x1057A);
   (0x1057C, 0x1058A); (0x1058C, 0x10592); (0x10594, 0x10595);
   (0x10597, 0x105A1); (0x105A3, 0x105B1); (0x105B3, 0x105B9);
   (0x105BB, 0x105BC); (0x10780, 0x10780); (0x10783, 0x10785);
   (0x10787, 0x107B0); (0x107B2, 0x107BA); (0x10C80, 0x10CB2);
   (0x10CC0, 0x10CF2); (0x118A0, 0x118DF); (0x16E40, 0x16E7F);
   (0x1D400, 0x1D454); (0x1D456, 0x1D49C); (0x1D49E, 0x1D49F);
   (0x1D4A2, 0x1D4A2); (0x1D4A5, 0x1D4A6); (0x1D4A9, 0x1D4AC);
   (0x1D4AE, 0x1D4B9); (0x1D4BB, 0x1D4BB); (0x1D4BD, 0x1D4C3);
   (0x1D4C5, 0x1D505); (0x1D507, 0x1D50A); (0x1D50D, 0x1D514);
   (0x1D516, 0x1D51C); (0x1D51E, 0x1D539); (0x1D53B, 0x1D53E);
   (0x1D540, 0x1D544); (0x1D546, 0x1D546); (0x1D54A, 0x1D550);
   (0x1D552, 0x1D6A5); (0x1D6A8, 0x1D6C0); (0x1D6C2, 0x1D6DA);
   (0x1D6DC, 0x1D6FA); (0x1D6FC, 0x1D714); (0x1D716, 0x1D734);
   (0x1D736, 0x1D74E); (0x1D750, 0x1D76E); (0x1D770, 0x1D788);
   (0x1D78A, 0x1D7A8); (0x1D7AA, 0x1D7C2); (0x1D7C4, 0x1D7CB);
   (0x1DF00, 0x1DF09); (0x1DF0B, 0x1DF1E); (0x1E900, 0x1E943);
   (0x1F130, 0x1F149); (0x1F150, 0x1F169); (0x1F170, 0x1F189)].

(** The property Case_Ignorable. *)
Definition CASE_IGNORABLE : list (N * N) :=
  [(0x27, 0x27); (0x2E, 0x2E); (0x3A, 0x3A); (0x5E, 0x5E); (0x60, 0x60);
   (0xA8, 0xA8); (0xAD, 0xAD); (0xAF, 0xAF); (0xB4, 0xB4); (0xB7, 0xB8);
   (0x2B0, 0x36F); (0x374, 0x375); (0x37A, 0x37A); (0x384, 0x385);
   (0x387, 0x387); (0x483, 0x489); (0x559, 0x559); (0x55F, 0x55F);
   (0x591, 0x5BD); (0x5BF, 0x5BF); (0x5C1, 0x5C2); (0x5C4, 0x5C5);
   (0x5C7, 0x5C7); (0x5F4, 0x5F4); (0x600, 0x605); (0x610, 0x61A);
   (0x61C, 0x61C); (0x640, 0x640); (0x64B, 0x65F); (0x670, 0x670);
   (0x6D6, 0x6DD); (0x6DF, 0x6E8); (0x6EA, 0x6ED); (0x70F, 0x70F);
   (0x711, 0x711); (0x730, 0x74A); (0x7A6, 0x7B0); (0x7EB, 0x7F5);
   (0x7FA, 0x7FA); (0x7FD, 0x7FD); (0x816, 0x82D); (0x859, 0x85B);
   (0x888, 0x888); (0x890, 0x891); (0x898, 0x89F); (0x8C9, 0x902);
   (0x93A, 0x93A); (0x93C, 0x93C); (0x941, 0x948); (0x94D, 0x94D);
   (0x951, 0x957); (0x962, 0x963); (0x971, 0x971); (0x981, 0x981);
   (0x9BC, 0x9BC); (0x9C1, 0x9C4); (0x9CD, 0x9CD); (0x9E2, 0x9E3);
   (0x9FE, 0x9FE); (0xA01, 0xA02); (0xA3C, 0xA3C); (0xA41, 0xA42);
   (0xA47, 0xA48); (0xA4B, 0xA4D); (0xA51, 0xA51); (0xA70, 0xA71);
   (0xA75, 0xA75); (0xA81, 0xA82); (0xABC, 0xABC); (0xAC1, 0xAC5);
   (0xAC7, 0xAC8); (0xACD, 0xACD); (0xAE2, 0xAE3); (0xAFA, 0xAFF);
   (0xB01, 0xB01); (0xB3C, 0xB3C); (0xB3F, 0xB3F); (0xB41, 0xB44);
   (0xB4D, 0xB4D); (0xB55, 0xB56); (0xB62, 0xB63); (0xB82, 0xB82);
   (0xBC0, 0xBC0); (0xBCD, 0xBCD); (0xC00, 0xC00); (0xC04, 0xC04);
   (0xC3C, 0xC3C); (0xC3E, 0xC40); (0xC46, 0xC48); (0xC4A, 0xC4D);
   (0xC55, 0xC56); (0xC62, 0xC63); (0xC81, 0xC81); (0xCBC, 0xCBC);
   (0xCBF, 0xCBF); (0xCC6, 0xCC6); (0xCCC, 0xCCD); (0xCE2, 0xCE3);
   (0xD00, 0xD01); (0xD3B, 0xD3C); (0xD41, 0xD44); (0xD4D, 0xD4D);
   (0xD62, 0xD63); (0xD81, 0xD81); (0xDCA, 0xDCA); (0xDD2, 0xDD4);
   (0xDD6, 0xDD6); (0xE31, 0xE31); (0xE34, 0xE3A); (0xE46, 0xE4E);
   (0xEB1, 0xEB1); (0xEB4, 0xEBC); (0xEC6, 0xEC6); (0xEC8, 0xECD);
   (0xF18, 0xF19); (0xF35, 0xF35); (0xF37, 0xF37); (0xF39, 0xF39);
   (0xF71, 0xF7E); (0xF80, 0xF84); (0xF86, 0xF87); (0xF8D, 0xF97);
   (0xF99, 0xFBC); (0xFC6, 0xFC6); (0x102D, 0x1030); (0x1032, 0x1037);
   (0x1039, 0x103A); (0x103D, 0x103E); (0x1058, 0x1059); (0x105E, 0x1060);
   (0x1071, 0x1074); (0x1082, 0x1082); (0x1085, 0x1086); (0x108D, 0x108D);
   (0x109D, 0x109D); (0x10FC, 0x10FC); (0x135D, 0x135F); (0x1712, 0x1714);
   (0x1732, 0x1733); (0x1752, 0x1753); (0x1772, 0x1773); (0x17B4, 0x17B5);
   (0x17B7, 0x17BD); (0x17C6, 0x17C6); (0x17C9, 0x17D3); (0x17D7, 0x17D7);
   (0x17DD, 0x17DD); (0x180B, 0x180F); (0x1843, 0x1843); (0x1885, 0x1886);
   (0x18A9, 0x18A9); (0x1920, 0x1922); (0x1927, 0x1928); (0x1932, 0x1932);
   (0x1939, 0x193B); (0x1A17, 0x1A18); (0x1A1B, 0x1A1B); (0x1A56, 0x1A56);
   (0x1A58, 0x1A5E); (0x1A60, 0x1A60); (0x1A62, 0x1A62); (0x1A65, 0x1A6C);
   (0x1A73, 0x1A7C); (0x1A7F, 0x1A7F); (0x1AA7, 0x1AA7); (0x1AB0, 0x1ACE);
   (0x1B00, 0x1B03); (0x1B34, 0x1B34); (0x1B36, 0x1B3A); (0x1B3C, 0x1B3C);
   (0x1B42, 0x1B42); (0x1B6B, 0x1B73); (0x1B80, 0x1B81); (0x1BA2, 0x1BA5);
   (0x1BA8, 0x1BA9); (0x1BAB, 0x1BAD); (0x1BE6, 0x1BE6); (0x1BE8, 0x1BE9);
   (0x1BED, 0x1BED); (0x1BEF, 0x1BF1); (0x1C2C, 0x1C33); (0x1C36, 0x1C37);
   (0x1C78, 0x1C7D); (0x1CD0, 0x1CD2); (0x1CD4, 0x1CE0); (0x1CE2, 0x1CE8);
   (0x1CED, 0x1CED); (0x1CF4, 0x1CF4); (0x1CF8, 0x1CF9); (0x1D2C, 0x1D6A);
   (0x1D78, 0x1D78); (0x1D9B, 0x1DFF); (0x1FBD, 0x1FBD); (0x1FBF, 0x1FC1);
   (0x1FCD, 0x1FCF); (0x1FDD, 0x1FDF); (0x1FED, 0x1FEF); (0x1FFD, 0x1FFE);
   (0x200B, 0x200F); (0x2018, 0x2019); (0x2024, 0x2024); (0x2027, 0x2027);
   (0x202A, 0x202E); (0x2060, 0x2064); (0x2066, 0x206F); (0x2071, 0x2071);
   (0x207F, 0x207F); (0x2090, 0x209C); (0x20D0, 0x20F0); (0x2C7C, 0x2C7D);
   (0x2CEF, 0x2CF1); (0x2D6F, 0x2D6F); (0x2D7F, 0x2D7F); (0x2DE0, 0x2DFF);
   (0x2E2F, 0x2E2F); (0x3005, 0x3005); (0x302A, 0x302D); (0x3031, 0x3035);
   (0x303B, 0x303B); (0x3099, 0x309E); (0x30FC, 0x30FE); (0xA015, 0xA015);
   (0xA4F8, 0xA4FD); (0xA60C, 0xA60C); (0xA66F, 0xA672); (0xA674, 0xA67D);
   (0xA67F, 0xA67F); (0xA69C, 0xA69F); (0xA6F0, 0xA6F1); (0xA700, 0xA721);
   (0xA770, 0xA770); (0xA788, 0xA78A); (0xA7F2, 0xA7F4); (0xA7F8, 0xA7F9);
   (0xA802, 0xA802); (0xA806, 0xA806); (0xA80B, 0xA80B); (0xA825, 0xA826);
   (0xA82C, 0xA82C); (0xA8C4, 0xA8C5); (0xA8E0, 0xA8F1); (0xA8FF, 0xA8FF);
   (0xA926, 0xA92D); (0xA947, 0xA951); (0xA980, 0xA982); (0xA9B3, 0xA9B3);
   (0xA9B6, 0xA9B9); (0xA9BC, 0xA9BD); (0xA9CF, 0xA9CF); (0xA9E5, 0xA9E6);
   (0xAA29, 0xAA2E); (0xAA31, 0xAA32); (0xAA35, 0xAA36); (0xAA43, 0xAA43);
   (0xAA4C, 0xAA4C); (0xAA70, 0xAA70); (0xAA7C, 0xAA7C); (0xAAB0, 0xAAB0);
   (0xAAB2, 0xAAB4); (0xAAB7, 0xAAB8); (0xAABE, 0xAABF); (0xAAC1, 0xAAC1);
   (0xAADD, 0xAADD); (0xAAEC, 0xAAED); (0xAAF3, 0xAAF4); (0xAAF6, 0xAAF6);
   (0xAB5B, 0xAB5F); (0xAB69, 0xAB6B); (0xABE5, 0xABE5); (0xABE8, 0xABE8);
   (0xABED, 0xABED); (0xFB1E, 0xFB1E); (0xFBB2, 0xFBC2); (0xFE00, 0xFE0F);
   (0xFE13, 0xFE13); (0xFE20, 0xFE2F); (0xFE52, 0xFE52); (0xFE55, 0xFE55);
   (0xFEFF, 0xFEFF); (0xFF07, 0xFF07); (0xFF0E, 0xFF0E); (0xFF1A, 0xFF1A);
   (0xFF3E, 0xFF3E); (0xFF40, 0xFF40); (0xFF70, 0xFF70); (0xFF9E, 0xFF9F);
   (0xFFE3, 0xFFE3); (0xFFF9, 0xFFFB); (0x101FD, 0x101FD);
   (0x102E0, 0x102E0); (0x10376, 0x1037A); (0x10780, 0x10785);
   (0x10787, 0x107B0); (0x107B2, 0x107BA); (0x10A01, 0x10A03);
   (0x10A05, 0x10A06); (0x10A0C, 0x10A0F); (0x10A38, 0x10A3A);
   (0x10A3F, 0x10A3F); (0x10AE5, 0x10AE6); (0x10D24, 0x10D27);
   (0x10EAB, 0x10EAC); (0x10F46, 0x10F50); (0x10F82, 0x10F85);
   (0x11001, 0x11001); (0x11038, 0x11046); (0x11070, 0x11070);
   (0x11073, 0x11074); (0x1107F, 0x11081); (0x110B3, 0x110B6);
   (0x110B9, 0x110BA); (0x110BD, 0x110BD); (0x110C2, 0x110C2);
   (0x110CD, 0x110CD); (0x11100, 0x11102); (0x11127, 0x1112B);
   (0x1112D, 0x11134); (0x11173, 0x11173); (0x11180, 0x11181);
   (0x111B6, 0x111BE); (0x111C9, 0x111CC); (0x111CF, 0x111CF);
   (0x1122F, 0x11231); (0x11234, 0x11234); (0x11236, 0x11237);
   (0x1123E, 0x1123E); (0x112DF, 0x112DF); (0x112E3, 0x112EA);
   (0x11300, 0x11301); (0x1133B, 0x1133C); (0x11340, 0x11340);
   (0x11366, 0x1136C); (0x11370, 0x11374); (0x11438, 0x1143F);
   (0x11442, 0x11444); (0x11446, 0x11446); (0x1145E, 0x1145E);
   (0x114B3, 0x114B8); (0x114BA, 0x114BA); (0x114BF, 0x114C0);
   (0x114C2, 0x114C3); (0x115B2, 0x115B5); (0x115BC, 0x115BD);
   (0x115BF, 0x115C0); (0x115DC, 0x115DD); (0x11633, 0x1163A);
   (0x1163D, 0x1163D); (0x1163F, 0x11640); (0x116AB, 0x116AB);
   (0x116AD, 0x116AD); (0x116B0, 0x116B5); (0x116B7, 0x116B7);
   (0x1171D, 0x1171F); (0x11722, 0x11725); (0x11727, 0x1172B);
   (0x1182F, 0x11837); (0x11839, 0x1183A); (0x1193B, 0x1193C);
   (0x1193E, 0x1193E); (0x11943, 0x11943); (0x119D4, 0x119D7);
   (0x119DA, 0x119DB); (0x119E0, 0x119E0); (0x11A01, 0x11A0A);
   (0x11A33, 0x11A38); (0x11A3B, 0x11A3E); (0x11A47, 0x11A47);
   (0x11A51, 0x11A56); (0x11A59, 0x11A5B); (0x11A8A, 0x11A96);
   (0x11A98, 0x11A99); (0x11C30, 0x11C36); (0x11C38, 0x11C3D);
   (0x11C3F, 0x11C3F); (0x11C92, 0x11CA7); (0x11CAA, 0x11CB0);
   (0x11CB2, 0x11CB3); (0x11CB5, 0x11CB6); (0x11D31, 0x11D36);
   (0x11D3A, 0x11D3A); (0x11D3C, 0x11D3D); (0x11D3F, 0x11D45);
   (0x11D47, 0x11D47); (0x11D90, 0x11D91); (0x11D95, 0x11D95);
   (0x11D97, 0x11D97); (0x11EF3, 0x11EF4); (0x13430, 0x13438);
   (0x16AF0, 0x16AF4); (0x16B30, 0x16B36); (0x16B40, 0x16B43);
   (0x16F4F, 0x16F4F); (0x16F8F, 0x16F9F); (0x16FE0, 0x16FE1);
   (0x16FE3, 0x16FE4); (0x1AFF0, 0x1AFF3); (0x1AFF5, 0x1AFFB);
   (0x1AFFD, 0x1AFFE); (0x1BC9D, 0x1BC9E); (0x1BCA0, 0x1BCA3);
   (0x1CF00, 0x1CF2D); (0x1CF30, 0x1CF46); (0x1D167, 0x1D169);
   (0x1D173, 0x1D182); (0x1D185, 0x1D18B); (0x1D1AA, 0x1D1AD);
   (0x1D242, 0x1D244); (0x1DA00, 0x1DA36); (0x1DA3B, 0x1DA6C);
   (0x1DA75, 0x1DA75); (0x1DA84, 0x1DA84); (0x1DA9B, 0x1DA9F);
   (0x1DAA1, 0x1DAAF); (0x1E000, 0x1E006); (0x1E008, 0x1E018);
   (0x1E01B, 0x1E021); (0x1E023, 0x1E024); (0x1E026, 0x1E02A);
   (0x1E130, 0x1E13D); (0x1E2AE, 0x1E2AE); (0x1E2EC, 0x1E2EF);
   (0x1E8D0, 0x1E8D6); (0x1E944, 0x1E94B); (0x1F3FB, 0x1F3FF);
   (0xE0001, 0xE0001); (0xE0020, 0xE007F); (0xE0100, 0xE01EF)].

(** The digit zero of every decimal system; the nine characters after it
    are its digits one to nine. *)
Definition DECIMAL_ZEROS : list N :=
  [0x30; 0x660; 0x6F0; 0x7C0; 0x966; 0x9E6; 0xA66; 0xAE6; 0xB66; 0xBE6;
   0xC66; 0xCE6; 0xD66; 0xDE6; 0xE50; 0xED0; 0xF20; 0x1040; 0x1090; 0x17E0;
   0x1810; 0x1946; 0x19D0; 0x1A80; 0x1A90; 0x1B50; 0x1BB0; 0x1C40; 0x1C50;
   0xA620; 0xA8D0; 0xA900; 0xA9D0; 0xA9F0; 0xAA50; 0xABF0; 0xFF10; 0x104A0;
   0x10D30; 0x11066; 0x110F0; 0x11136; 0x111D0; 0x112F0; 0x11450; 0x114D0;
   0x11650; 0x116C0; 0x11730; 0x118E0; 0x11950; 0x11C50; 0x11D50; 0x11DA0;
   0x16A60; 0x16AC0; 0x16B50; 0x1D7CE; 0x1D7D8; 0x1D7E2; 0x1D7EC; 0x1D7F6;
   0x1E140; 0x1E2F0; 0x1E950; 0x1FBF0].

(** The lower-case mapping: of the characters [lo], [lo + stride], ... up
    to [hi], the first is mapped to [target] and the others follow at the
    same distance. *)
Definition LOWER : list (N * N * N * N) :=
  [(0x41, 0x5A, 1, 0x61); (0xC0, 0xD6, 1, 0xE0); (0xD8, 0xDE, 1, 0xF8);
   (0x100, 0x12E, 2, 0x101); (0x132, 0x136, 2, 0x133);
   (0x139, 0x147, 2, 0x13A); (0x14A, 0x176, 2, 0x14B);
   (0x178, 0x178, 1, 0xFF); (0x179, 0x17D, 2, 0x17A);
   (0x181, 0x181, 1, 0x253); (0x182, 0x184, 2, 0x183);
   (0x186, 0x186, 1, 0x254); (0x187, 0x187, 1, 0x188);
   (0x189, 0x18A, 1, 0x256); (0x18B, 0x18B, 1, 0x18C);
   (0x18E, 0x18E, 1, 0x1DD); (0x18F, 0x18F, 1, 0x259);
   (0x190, 0x190, 1, 0x25B); (0x191, 0x191, 1, 0x192);
   (0x193, 0x193, 1, 0x260); (0x194, 0x194, 1, 0x263);
   (0x196, 0x196, 1, 0x269); (0x197, 0x197, 1, 0x268);
   (0x198, 0x198, 1, 0x199); (0x19C, 0x19C, 1, 0x26F);
   (0x19D, 0x19D, 1, 0x272); (0x19F, 0x19F, 1, 0x275);
   (0x1A0, 0x1A4, 2, 0x1A1); (0x1A6, 0x1A6, 1, 0x280);
   (0x1A7, 0x1A7, 1, 0x1A8); (0x1A9, 0x1A9, 1, 0x283);
   (0x1AC, 0x1AC, 1, 0x1AD); (0x1AE, 0x1AE, 1, 0x288);
   (0x1AF, 0x1AF, 1, 0x1B0); (0x1B1, 0x1B2, 1, 0x28A);
   (0x1B3, 0x1B5, 2, 0x1B4); (0x1B7, 0x1B7, 1, 0x292);
   (0x1B8, 0x1B8, 1, 0x1B9); (0x1BC, 0x1BC, 1, 0x1BD);
   (0x1C4, 0x1C4, 1, 0x1C6); (0x1C5, 0x1C5, 1, 0x1C6);
   (0x1C7, 0x1C7, 1, 0x1C9); (0x1C8, 0x1C8, 1, 0x1C9);
   (0x1CA, 0x1CA, 1, 0x1CC); (0x1CB, 0x1DB, 2, 0x1CC);
   (0x1DE, 0x1EE, 2, 0x1DF); (0x1F1, 0x1F1, 1, 0x1F3);
   (0x1F2, 0x1F4, 2, 0x1F3); (0x1F6, 0x1F6, 1, 0x195);
   (0x1F7, 0x1F7, 1, 0x1BF); (0x1F8, 0x21E, 2, 0x1F9);
   (0x220, 0x220, 1, 0x19E); (0x222, 0x232, 2, 0x223);
   (0x23A, 0x23A, 1, 0x2C65); (0x23B, 0x23B, 1, 0x23C);
   (0x23D, 0x23D, 1, 0x19A); (0x23E, 0x23E, 1, 0x2C66);
   (0x241, 0x241, 1, 0x242); (0x243, 0x243, 1, 0x180);
   (0x244, 0x244, 1, 0x289); (0x245, 0x245, 1, 0x28C);
   (0x246, 0x24E, 2, 0x247); (0x370, 0x372, 2, 0x371);
   (0x376, 0x376, 1, 0x377); (0x37F, 0x37F, 1, 0x3F3);
   (0x386, 0x386, 1, 0x3AC); (0x388, 0x38A, 1, 0x3AD);
   (0x38C, 0x38C, 1, 0x3CC); (0x38E, 0x38F, 1, 0x3CD);
   (0x391, 0x3A1, 1, 0x3B1); (0x3A3, 0x3AB, 1, 0x3C3);
   (0x3CF, 0x3CF, 1, 0x3D7); (0x3D8, 0x3EE, 2, 0x3D9);
   (0x3F4, 0x3F4, 1, 0x3B8); (0x3F7, 0x3F7, 1, 0x3F8);
   (0x3F9, 0x3F9, 1, 0x3F2); (0x3FA, 0x3FA, 1, 0x3FB);
   (0x3FD, 0x3FF, 1, 0x37B); (0x400, 0x40F, 1, 0x450);
   (0x410, 0x42F, 1, 0x430); (0x460, 0x480, 2, 0x461);
   (0x48A, 0x4BE, 2, 0x48B); (0x4C0, 0x4C0, 1, 0x4CF);
   (0x4C1, 0x4CD, 2, 0x4C2); (0x4D0, 0x52E, 2, 0x4D1);
   (0x531, 0x556, 1, 0x561); (0x10A0, 0x10C5, 1, 0x2D00);
   (0x10C7, 0x10C7, 1, 0x2D27); (0x10CD, 0x10CD, 1, 0x2D2D);
   (0x13A0, 0x13EF, 1, 0xAB70); (0x13F0, 0x13F5, 1, 0x13F8);
   (0x1C90, 0x1CBA, 1, 0x10D0); (0x1CBD, 0x1CBF, 1, 0x10FD);
   (0x1E00, 0x1E94, 2, 0x1E01); (0x1E9E, 0x1E9E, 1, 0xDF);
   (0x1EA0, 0x1EFE, 2, 0x1EA1); (0x1F08, 0x1F0F, 1, 0x1F00);
   (0x1F18, 0x1F1D, 1, 0x1F10); (0x1F28, 0x1F2F, 1, 0x1F20);
   (0x1F38, 0x1F3F, 1, 0x1F30); (0x1F48, 0x1F4D, 1, 0x1F40);
   (0x1F59, 0x1F5F, 2, 0x1F51); (0x1F68, 0x1F6F, 1, 0x1F60);
   (0x1F88, 0x1F8F, 1, 0x1F80); (0x1F98, 0x1F9F, 1, 0x1F90);
   (0x1FA8, 0x1FAF, 1, 0x1FA0); (0x1FB8, 0x1FB9, 1, 0x1FB0);
   (0x1FBA, 0x1FBB, 1, 0x1F70); (0x1FBC, 0x1FBC, 1, 0x1FB3);
   (0x1FC8, 0x1FCB, 1, 0x1F72); (0x1FCC, 0x1FCC, 1, 0x1FC3);
   (0x1FD8, 0x1FD9, 1, 0x1FD0); (0x1FDA, 0x1FDB, 1, 0x1F76);
   (0x1FE8, 0x1FE9, 1, 0x1FE0); (0x1FEA, 0x1FEB, 1, 0x1F7A);
   (0x1FEC, 0x1FEC, 1, 0x1FE5); (0x1FF8, 0x1FF9, 1, 0x1F78);
   (0x1FFA, 0x1FFB, 1, 0x1F7C); (0x1FFC, 0x1FFC, 1, 0x1FF3);
   (0x2126, 0x2126, 1, 0x3C9); (0x212A, 0x212A, 1, 0x6B);
   (0x212B, 0x212B, 1, 0xE5); (0x2132, 0x2132, 1, 0x214E);
   (0x2160, 0x216F, 1, 0x2170); (0x2183, 0x2183, 1, 0x2184);
   (0x24B6, 0x24CF, 1, 0x24D0); (0x2C00, 0x2C2F, 1, 0x2C30);
   (0x2C60, 0x2C60, 1, 0x2C61); (0x2C62, 0x2C62, 1, 0x26B);
   (0x2C63, 0x2C63, 1, 0x1D7D); (0x2C64, 0x2C64, 1, 0x27D);
   (0x2C67, 0x2C6B, 2, 0x2C68); (0x2C6D, 0x2C6D, 1, 0x251);
   (0x2C6E, 0x2C6E, 1, 0x271); (0x2C6F, 0x2C6F, 1, 0x250);
   (0x2C70, 0x2C70, 1, 0x252); (0x2C72, 0x2C72, 1, 0x2C73);
   (0x2C75, 0x2C75, 1, 0x2C76); (0x2C7E, 0x2C7F, 1, 0x23F);
   (0x2C80, 0x2CE2, 2, 0x2C81); (0x2CEB, 0x2CED, 2, 0x2CEC);
   (0x2CF2, 0x2CF2, 1, 0x2CF3); (0xA640, 0xA66C, 2, 0xA641);
   (0xA680, 0xA69A, 2, 0xA681); (0xA722, 0xA72E, 2, 0xA723);
   (0xA732, 0xA76E, 2, 0xA733); (0xA779, 0xA77B, 2, 0xA77A);
   (0xA77D, 0xA77D, 1, 0x1D79); (0xA77E, 0xA786, 2, 0xA77F);
   (0xA78B, 0xA78B, 1, 0xA78C); (0xA78D, 0xA78D, 1, 0x265);
   (0xA790, 0xA792, 2, 0xA791); (0xA796, 0xA7A8, 2, 0xA797);
   (0xA7AA, 0xA7AA, 1, 0x266); (0xA7AB, 0xA7AB, 1, 0x25C);
   (0xA7AC, 0xA7AC, 1, 0x261); (0xA7AD, 0xA7AD, 1, 0x26C);
   (0xA7AE, 0xA7AE, 1, 0x26A); (0xA7B0, 0xA7B0, 1, 0x29E);
   (0xA7B1, 0xA7B1, 1, 0x287); (0xA7B2, 0xA7B2, 1, 0x29D);
   (0xA7B3, 0xA7B3, 1, 0xAB53); (0xA7B4, 0xA7C2, 2, 0xA7B5);
   (0xA7C4, 0xA7C4, 1, 0xA794); (0xA7C5, 0xA7C5, 1, 0x282);
   (0xA7C6, 0xA7C6, 1, 0x1D8E); (0xA7C7, 0xA7C9, 2, 0xA7C8);
   (0xA7D0, 0xA7D0, 1, 0xA7D1); (0xA7D6, 0xA7D8, 2, 0xA7D7);
   (0xA7F5, 0xA7F5, 1, 0xA7F6); (0xFF21, 0xFF3A, 1, 0xFF41);
   (0x10400, 0x10427, 1, 0x10428); (0x104B0, 0x104D3, 1, 0x104D8);
   (0x10570, 0x10594, 2, 0x10597); (0x10571, 0x10579, 2, 0x10598);
   (0x1057D, 0x10589, 2, 0x105A4); (0x1058D, 0x10591, 2, 0x105B4);
   (0x10595, 0x10595, 1, 0x105BC); (0x10C80, 0x10CB2, 1, 0x10CC0);
   (0x118A0, 0x118BF, 1, 0x118C0); (0x16E40, 0x16E5F, 1, 0x16E60);
   (0x1E900, 0x1E921, 1, 0x1E922)].

End Unicode.

Definition in_ranges (table : list (N * N)) (c : N) : bool :=
  existsb (λ r, between r.1 r.2 c) table.

Definition py_isspace (c : N) : bool := in_ranges Unicode.WHITESPACE c.

Definition py_isalnum (c : N) : bool := in_ranges Unicode.ALNUM c.

(** [\w]: alphanumeric, or the underscore. *)
Definition py_isword (c : N) : bool := py_isalnum c || (c =? 0x5F)%N.

Definition cased (c : N) : bool := in_ranges Unicode.CASED c.

Definition case_ignorable (c : N) : bool :=
  in_ranges Unicode.CASE_IGNORABLE c.

(** The value of a decimal digit of any script. *)
Definition decimal_digit (c : N) : option N :=
  (λ zero, c - zero)%N <$>
    List.find (λ zero, between zero (zero + 9) c) Unicode.DECIMAL_ZEROS.

(** The lower-case form of one character out of context; U+0130 is the
    one character whose form has two characters. *)
Definition lower_full (c : N) : list N :=
  if (c =? 0x130)%N then [0x69; 0x307]%N
  else
    match
      List.find (λ '(lo, hi, stride, _),
                   between lo hi c && ((c - lo) mod stride =? 0)%N)
                Unicode.LOWER
    with
    | Some (lo, _, _, target) => [target + (c - lo)]%N
    | None => [c]
    end.

(** A character that [str.lower] leaves as it is. *)
Definition lower_fixed (c : N) : bool :=
  negb (c =? 0x3A3)%N &&
  match lower_full c with
  | [d] => (d =? c)%N
  | _ => false
  end.

(** *** UTF-8 *)

Definition REPLACEMENT : N := 0xFFFD%N.

(** A character is a code point up to U+10FFFF that is no surrogate. *)
Definition scalar (c : N) : bool :=
  (c <=? 0x10FFFF)%N && negb (between 0xD800 0xDFFF c).

(** A sequence that has begun: the bits read, the number of bytes that
    must follow the next one, and the least code point that needs a
    sequence of this length. *)
Record pending := Pending { bits : N; more : nat; least : N }.

(** The first byte of a sequence. *)
Definition start (n : N) : list N * option pending :=
  if (n <? 0x80)%N then ([n], None)
  else if between 0xC0 0xDF n then ([], Some (Pending (n - 0xC0) 0 0x80))
  else if between 0xE0 0xEF n then ([], Some (Pending (n - 0xE0) 1 0x800))
  else if between 0xF0 0xF7 n then ([], Some (Pending (n - 0xF0) 2 0x10000))
  else ([REPLACEMENT], None).

(** One byte: the characters it completes, and the sequence it leaves
    open.  A byte that cannot continue the open sequence ends it. *)
Definition step (st : option pending) (n : N) : list N * option pending :=
  match st with
  | Some p =>
    if between 0x80 0xBF n then
      let v := (bits p * 64 + (n - 0x80))%N in
      match more p with
      | O => ([if (least p <=? v)%N && scalar v then v else REPLACEMENT], None)
      | S k => ([], Some (Pending v k (least p)))
      end
    else (REPLACEMENT :: (start n).1, (start n).2)
  | None => start n
  end.

Fixpoint decode (st : option pending) (s : string) : list N :=
  match s with
  | EmptyString => match st with Some _ => [REPLACEMENT] | None => [] end
  | String b s' => (step st (code b)).1 ++ decode (step st (code b)).2 s'
  end.

(** The characters of a string. *)
Definition code_points (s : string) : list N := decode None s.

Definition encode (c : N) : string :=
  if (c <? 0x80)%N then String (byte c) ""
  else if (c <? 0x800)%N then
    String (byte (0xC0 + c / 64))
      (String (byte (0x80 + c mod 64)) "")
  else if (c <? 0x10000)%N then
    String (byte (0xE0 + c / 4096))
      (String (byte (0x80 + (c / 64) mod 64))
         (String (byte (0x80 + c mod 64)) ""))
  else
    String (byte (0xF0 + c / 262144))
      (String (byte (0x80 + (c / 4096) mod 64))
         (String (byte (0x80 + (c / 64) mod 64))
            (String (byte (0x80 + c mod 64)) ""))).

(** The string of a sequence of characters. *)
Fixpoint of_code_points (l : list N) : string :=
  match l with
  | [] => ""
  | c :: l' => encode c +:+ of_code_points l'
  end.

(** *** Operations on strings *)

(** [len(s)]. *)
Definition py_len (s : string) : Z := Z.of_nat (length (code_points s)).

(** [str.lower] maps every character to its lower-case form, except
    that a capital sigma becomes a final sigma when a cased character
    precedes it and none follows it, case-ignorable characters apart.
    [before] holds the characters before the current one, the nearest
    first. *)
Fixpoint meets_cased (l : list N) : bool :=
  match l with
  | [] => false
  | c :: l' => if case_ignorable c then meets_cased l' else cased c
  end.

Definition lower_sigma (before after : list N) : N :=
  if meets_cased before && negb (meets_cased after)
  then 0x3C2%N else 0x3C3%N.

Fixpoint lower_points (before l : list N) : list N :=
  match l with
  | [] => []
  | c :: after =>
    (if (c =? 0x3A3)%N then [lower_sigma before after] else lower_full c)
    ++ lower_points (c :: before) after
  end.

Definition py_lower (s : string) : string :=
  of_code_points (lower_points [] (code_points s)).

(** [re.sub(r'[^\w\s]', ' ', s)]. *)
Definition sub_nonword_nonspace (s : string) : string :=
  of_code_points
    (map (λ c, if py_isword c || py_isspace c then c else 0x20%N)
         (code_points s)).

(** [sep.join(l)]. *)
Fixpoint py_join (sep : string) (l : list string) : string :=
  match l with
  | [] => ""
  | [s] => s
  | s :: l' => s +:+ sep +:+ py_join sep l'
  end.

(** [s.split()]: the maximal runs of non-whitespace characters. *)
Fixpoint split_points (l : list N) : list (list N) :=
  match l with
  | [] => []
  | c :: l' =>
    if py_isspace c then split_points l'
    else match l' with
         | [] => [[c]]
         | c' :: _ =>
           if py_isspace c' then [c] :: split_points l'
           else match split_points l' with
                | w :: ws => (c :: w) :: ws
                | [] => [[c]]
                end
         end
  end.

Definition py_split (s : string) : list string :=
  of_code_points <$> split_points (code_points s).

Fixpoint lstrip (space : N → bool) (l : list N) : list N :=
  match l with
  | [] => []
  | c :: l' => if space c then lstrip space l' else l
  end.

Fixpoint rstrip (space : N → bool) (l : list N) : list N :=
  match l with
  | [] => []
  | c :: l' =>
    match rstrip space l' with
    | [] => if space c then [] else [c]
    | r => c :: r
    end
  end.

(** [s.strip()]. *)
Definition py_strip (s : string) : string :=
  of_code_points (rstrip py_isspace (lstrip py_isspace (code_points s))).

(** [sub in s]. *)
Fixpoint py_contains (sub s : string) : bool :=
  String.prefix sub s ||
  match s with
  | EmptyString => false
  | String _ s' => py_contains sub s'
  end.

(** Every byte of [s] satisfies [P]. *)
Fixpoint all_chars (P : ascii → bool) (s : string) : bool :=
  match s with
  | EmptyString => true
  | String c s' => P c && all_chars P s'
  end.

(** [Counter(words)], and the same counting loop written with [dict.get]. *)
Definition tally (m : gmap string Z) (w : string) : gmap string Z :=
  <[w := default 0 (m !! w) + 1]> m.

Definition Counter (words : list string) : gmap string Z :=
  foldl tally ∅ words.

(** ** Python integers as text

    [str(n)] is the decimal numeral of [n].  [int(s)] first turns every
    white-space character above U+007F into a space and every decimal
    digit into its ASCII digit (a text that is all ASCII is left as it
    is; any other character above U+007E becomes a question mark, which
    no numeral holds).  Then it reads white space in the sense of C
    (U+0009 to U+000D and the space), one optional sign, decimal digits in
    which single underscores may separate digits, and white space again;
    anything else raises [ValueError].  The limit that the interpreter
    puts on the number of digits ([sys.set_int_max_str_digits], 4300
    unless it is changed or switched off) is a setting of the interpreter
    and is not part of [py_int] and [py_str]: they are [int] and [str] on
    the numerals of at most 4300 digits, and without the limit beyond. *)

Definition py_str (n : Z) : string := NilZero.string_of_int (Z.to_int n).

Definition is_digit (c : ascii) : bool := between 48 57 (code c).

Definition digit_point (c : N) : Prop := (48 <= c <= 57)%N.

Fixpoint digits_of (prev_digit : bool) (s : string) : option string :=
  match s with
  | EmptyString => if prev_digit then Some EmptyString else None
  | String c s' =>
    if is_digit c then String c <$> digits_of true s'
    else if Ascii.eqb c "_" && prev_digit then digits_of false s'
    else None
  end.

(** [_PyUnicode_TransformDecimalAndSpaceToASCII]. *)
Definition int_char (c : N) : N :=
  if (c <? 127)%N then c
  else if py_isspace c then 0x20%N
  else match decimal_digit c with
       | Some d => (0x30 + d)%N
       | None => 0x3F%N
       end.

Definition to_ascii (l : list N) : list N :=
  if forallb (λ c, c <? 0x80)%N l then l else map int_char l.

(** [Py_ISSPACE]. *)
Definition c_isspace (c : N) : bool := between 9 13 c || (c =? 0x20)%N.

Definition py_int (s : string) : result Z :=
  let l := to_ascii (code_points s) in
  let l := rstrip c_isspace (lstrip c_isspace l) in
  let '(neg, body) :=
    match l with
    | 0x2D%N :: b => (true, b)
    | 0x2B%N :: b => (false, b)
    | _ => (false, l)
    end in
  match digits_of false (of_code_points body) ≫= NilEmpty.uint_of_string with
  | Some d => Ok (if neg : bool then - Z.of_uint d else Z.of_uint d)
  | None => Raise ValueError
  end.

(** ** Python floats: IEEE 754 binary64

    A finite float is the rational number it denotes; every operation
    computes the exact result and rounds it to the nearest binary64 value,
    ties to even ([round]).  The two zeros are identified: no operation of
    the program divides by a float, and [int] maps both to 0. *)

Module Float.

Definition pow2 (e : Z) : Q :=
  if 0 <=? e then inject_Z (2 ^ e) else / inject_Z (2 ^ (- e)).

(** For [q > 0], the [e] with [2^e <= q < 2^(e+1)]. *)
Definition floor_log2 (q : Q) : Z :=
  let k := Z.log2 (Qnum q) - Z.log2 (Zpos (Qden q)) in
  if Qle_bool (pow2 k) q then k else k - 1.

(** Exponent of the unit in the last place: 53 significant bits, and the
    subnormal floor [2^-1074]. *)
Definition ulp_exp (q : Q) : Z := Z.max (floor_log2 (Qabs q) - 52) (-1074).

Definition round_half_even (q : Q) : Z :=
  let f := Qfloor q in
  match ((q - inject_Z f) ?= (1 # 2))%Q with
  | Lt => f
  | Gt => f + 1
  | Eq => if Z.even f then f else f + 1
  end.

Definition round_core (q : Q) : Q :=
  let e := ulp_exp q in
  Qred (inject_Z (round_half_even (q / pow2 e)) * pow2 e).

Inductive float :=
  | Fin (q : Q)
  | Inf (neg : bool)
  | NaN.

Definition is_neg (q : Q) : bool := negb (Qle_bool 0 q).

Definition round (q : Q) : float :=
  let r := round_core q in
  if Qle_bool (pow2 1024) (Qabs r) then Inf (is_neg q) else Fin r.

Definition add (x y : float) : float :=
  match x, y with
  | Fin a, Fin b => round (a + b)
  | NaN, _ | _, NaN => NaN
  | Inf s, Inf t => if Bool.eqb s t then Inf s else NaN
  | Inf s, Fin _ | Fin _, Inf s => Inf s
  end.

Definition mul (x y : float) : float :=
  match x, y with
  | Fin a, Fin b => round (a * b)
  | NaN, _ | _, NaN => NaN
  | Inf s, Inf t => Inf (xorb s t)
  | Inf s, Fin b | Fin b, Inf s =>
    if Qeq_bool b 0 then NaN else Inf (xorb s (is_neg b))
  end.

(** [x / y] on floats raises on a zero divisor. *)
Definition div (x y : float) : result float :=
  match x, y with
  | _, Fin b =>
    if Qeq_bool b 0 then Raise ZeroDivisionError
    else Ok match x with
            | Fin a => round (a / b)
            | Inf s => Inf (xorb s (is_neg b))
            | NaN => NaN
            end
  | NaN, _ | _, NaN => Ok NaN
  | Inf _, Inf _ => Ok NaN
  | Fin _, Inf _ => Ok (Fin 0)
  end.

(** [float(n)] for an [int], as done implicitly in mixed arithmetic. *)
Definition of_int (n : Z) : result float :=
  match round (inject_Z n) with
  | Fin q => Ok (Fin q)
  | _ => Raise OverflowError
  end.

(** Truncation toward zero. *)
Definition truncate (q : Q) : Z := Z.quot (Qnum q) (Zpos (Qden q)).

(** [int(x)] for a float. *)
Definition to_int (x : float) : result Z :=
  match x with
  | Fin q => Ok (truncate q)
  | Inf _ => Raise OverflowError
  | NaN => Raise ValueError
  end.

(** [math.floor], for stating results. *)
Definition floor (x : float) : result Z :=
  match x with
  | Fin q => Ok (Qfloor q)
  | Inf _ => Raise OverflowError
  | NaN => Raise ValueError
  end.

(** The value of a binary64 number of the kernel, for comparing [round]
    with the hardware arithmetic on samples. *)
Definition of_prim (x : PrimFloat.float) : float :=
  match FloatOps.Prim2SF x with
  | SpecFloat.S754_zero _ => Fin 0
  | SpecFloat.S754_infinity s => Inf s
  | SpecFloat.S754_nan => NaN
  | SpecFloat.S754_finite s m e =>
    Fin (Qred (inject_Z (if s then Z.neg m else Z.pos m) * pow2 e))
  end.

Definition prim_of_Z (n : Z) : PrimFloat.float :=
  if n <? 0 then PrimFloat.opp (PrimFloat.of_uint63 (Uint63Axioms.of_Z (- n)))
  else PrimFloat.of_uint63 (Uint63Axioms.of_Z n).

(** *** Predicates on floats, for stating bounds *)

(** [b] is a binary64 number: at most 53 significant bits above the
    subnormal floor. *)
Definition on_grid (b : Q) : Prop :=
  ∃ j eb, Z.abs j < 2 ^ 53 ∧ -1074 <= eb ∧ (b == inject_Z j * pow2 eb)%Q.

(** Lower bounds on floats: [+inf] is above everything. *)
Definition ge_float (b : Q) (x : float) : Prop :=
  match x with
  | Fin q => (b <= q)%Q
  | Inf neg => neg = false
  | NaN => False
  end.

(** Two-sided bounds on finite floats. *)
Definition in_range (lo hi : Q) (x : float) : Prop :=
  ∃ q, x = Fin q ∧ (lo <= q <= hi)%Q.

(** A finite float bounded below. *)
Definition fin_ge (b : Q) (x : float) : Prop := ∃ q, x = Fin q ∧ (b <= q)%Q.

End Float.

Abbreviation float := Float.float.

(** [a / b] on two [int]s: the correctly rounded quotient. *)
Definition true_div (a b : Z) : result float :=
  if b =? 0 then Raise ZeroDivisionError
  else match Float.round (inject_Z a / inject_Z b) with
       | Float.Fin q => Ok (Float.Fin q)
       | _ => Raise OverflowError
       end.

(** [x / n], [n + x] and [n * x] for an [int] [n] and a float [x]. *)
Definition float_div_int (x : float) (n : Z) : result float :=
  y ← Float.of_int n; Float.div x y.

Definition int_add_float (n : Z) (x : float) : result float :=
  y ← Float.of_int n; Ok (Float.add y x).

Definition int_mul_float (n : Z) (x : float) : result float :=
  y ← Float.of_int n; Ok (Float.mul y x).

(** [sum] of a list of [int]s, and of a list of floats: addition from
    left to right, starting from 0, every float addition rounded (the
    summation of CPython up to 3.11; later versions also carry a
    compensation term for the rounding errors of the partial sums). *)
Definition sum_ints (l : list Z) : Z := foldl Z.add 0 l.

Definition sum_floats (l : list float) : float :=
  foldl Float.add (Float.Fin 0) l.

Definition len {A} (l : list A) : Z := Z.of_nat (length l).

(** ** Paper Records *)

Record paper := Paper {
  title : string;
  authors : string;
  year : string;
  conference : string;
  link : string
}.

(** ** Conference table *)

Record conf_config := ConfConfig {
  name : string;
  url_pattern : string;
  start_year : Z;
  end_year : Z
}.

Definition CONFERENCE_CONFIGS : gmap string conf_config :=
  <["aaai" := ConfConfig "AAAI"
       "https://dblp.org/db/conf/aaai/aaai{year}.html" 2020 2025]>
  (<["cvpr" := ConfConfig "CVPR"
       "https://dblp.org/db/conf/cvpr/cvpr{year}.html" 2020 2024]>
  (<["iccv" := ConfConfig "ICCV"
       "https://dblp.org/db/conf/iccv/iccv{year}.html" 2019 2023]> ∅)).

(** [pattern.format(year=year)] for a pattern with one [{year}] field. *)
Definition format_year (pattern : string) (year : Z) : string :=
  match String.index 0 "{year}" pattern with
  | Some i =>
    String.substring 0 i pattern +:+ py_str year +:+
    String.substring (i + 6) (String.length pattern - (i + 6)) pattern
  | None => pattern
  end.

Definition STOP_WORDS : gset string :=
  list_to_set
    ["a"; "an"; "the"; "and"; "or"; "but"; "if"; "because"; "as"; "what";
     "which"; "this"; "that"; "these"; "those"; "then"; "just"; "so"; "than";
     "such"; "both"; "through"; "about"; "for"; "is"; "of"; "while"; "during";
     "to"; "from"; "in"; "on"; "by"; "with"; "without"; "at"; "between"].

(** ** Parsed pages

    The tree that [BeautifulSoup(resp.text, 'html.parser')] builds: text
    nodes and tags with an attribute dictionary and children.  Attribute
    values are kept as written in the page; the multi-valued attribute
    [class] is split on whitespace when it is matched. *)

#[warnings="-register-all"]
Inductive node :=
  | Text (s : string)
  | Tag (tag_name : string) (attrs : gmap string string) (children : list node).

(** All nodes below [n], in document order. *)
Fixpoint descendants (n : node) : list node :=
  match n with
  | Text _ => []
  | Tag _ _ children =>
    (fix go (l : list node) : list node :=
       match l with
       | [] => []
       | c :: l' => c :: descendants c ++ go l'
       end) children
  end.

(** [tag.text]: the text nodes below the tag, concatenated. *)
Fixpoint text (n : node) : string :=
  match n with
  | Text s => s
  | Tag _ _ children =>
    (fix go (l : list node) : string :=
       match l with
       | [] => ""
       | c :: l' => text c +:+ go l'
       end) children
  end.

(** Does attribute [attr] satisfy [crit]?  A missing attribute never does;
    for [class] some class does or the space-joined list does. *)
Definition attr_matches (attr : string) (crit : string → bool)
    (attrs : gmap string string) : bool :=
  match attrs !! attr with
  | None => false
  | Some v =>
    if String.eqb attr "class"
    then let classes := py_split v in
         existsb crit classes || crit (py_join " " classes)
    else crit v
  end.

Definition tag_matches (tname attr : string) (crit : string → bool)
    (n : node) : bool :=
  match n with
  | Text _ => false
  | Tag t attrs _ => String.eqb t tname && attr_matches attr crit attrs
  end.

(** [n.find_all(tname, attr=crit)] and [n.find(tname, attr=crit)]. *)
Definition find_all (tname attr : string) (crit : string → bool)
    (n : node) : list node :=
  List.filter (tag_matches tname attr crit) (descendants n).

Definition find (tname attr : string) (crit : string → bool)
    (n : node) : option node :=
  head (find_all tname attr crit n).

(** [tag[attr]] for a tag that carries the attribute. *)
Definition get_attr (attr : string) (n : node) : string :=
  match n with
  | Tag _ attrs _ => default "" (attrs !! attr)
  | Text _ => ""
  end.

(** ** Fetcher and Extractor: [get_paper_info] *)

Record response := Response {
  status_code : Z;
  resp_text : string
}.

(** [resp.raise_for_status()]. *)
Definition raise_for_status (resp : response) : result unit :=
  if (400 <=? status_code resp) && (status_code resp <? 600)
  then Raise HTTPError else Ok ().

(** The network and the HTML parser. *)
Record world := World {
  requests_get : string → result response;
  BeautifulSoup : string → result node
}.

(** The two sentinels; each is one word of four characters. *)
Definition UNKNOWN_TITLE : string := "未知标题".
Definition UNKNOWN_AUTHORS : string := "未知作者".

(** [lambda href: href and 'doi.org' in href], and the same for
    ['dblp.org/rec/']. *)
Definition is_doi (href : string) : bool :=
  negb (String.eqb href "") && py_contains "doi.org" href.

Definition is_rec (href : string) : bool :=
  negb (String.eqb href "") && py_contains "dblp.org/rec/" href.

Definition entry_title (entry : node) : string :=
  match find "span" "class" (String.eqb "title") entry with
  | Some title_tag => py_strip (text title_tag)
  | None => UNKNOWN_TITLE
  end.

Definition entry_author_names (entry : node) : list string :=
  omap (λ author_tag,
          (λ name_tag, py_strip (text name_tag)) <$>
            find "span" "itemprop" (String.eqb "name") author_tag)
       (find_all "span" "itemprop" (String.eqb "author") entry).

Definition entry_authors (entry : node) : string :=
  match entry_author_names entry with
  | [] => UNKNOWN_AUTHORS
  | authors => py_join "; " authors
  end.

Definition entry_link (entry : node) : string :=
  match find "a" "href" is_doi entry with
  | Some doi_link => get_attr "href" doi_link
  | None =>
    match find "a" "href" is_rec entry with
    | Some details_link => get_attr "href" details_link
    | None => ""
    end
  end.

Definition paper_of_entry (conf_config : conf_config) (year : Z)
    (entry : node) : paper :=
  {| title := entry_title entry;
     authors := entry_authors entry;
     conference := name conf_config;
     year := py_str year;
     link := entry_link entry |}.

Definition find_entries (soup : node) : list node :=
  find_all "li" "class" (String.eqb "entry inproceedings") soup.

(** The body of the [try] block. *)
Definition fetch_and_extract (w : world) (conf_config : conf_config)
    (url : string) (year : Z) : result (list paper) :=
  resp ← requests_get w url;
  _ ← raise_for_status resp;
  soup ← BeautifulSoup w (resp_text resp);
  let entries := find_entries soup in
  match entries with
  | [] => Ok []
  | _ => Ok (map (paper_of_entry conf_config year) entries)
  end.

(** The table lookup is outside the [try] block: an unknown key raises. *)
Definition get_paper_info (w : world) (conf_key : string) (year : Z)
    : result (list paper) :=
  match CONFERENCE_CONFIGS !! conf_key with
  | None => Raise KeyError
  | Some conf_config =>
    let url := format_year (url_pattern conf_config) year in
    match fetch_and_extract w conf_config url year with
    | Ok papers => Ok papers
    | Raise _ => Ok []
    end
  end.

(** *** The Extractor in the words of its description

    A well-formed entry has a title element with visible text and at least
    one author element whose name element has visible text. *)

Definition visible (n : node) : bool :=
  negb (String.eqb (py_strip (text n)) "").

Definition has_title (entry : node) : bool :=
  match find "span" "class" (String.eqb "title") entry with
  | Some title_tag => visible title_tag
  | None => false
  end.

Definition has_author (entry : node) : bool :=
  existsb (λ author_tag,
             match find "span" "itemprop" (String.eqb "name") author_tag with
             | Some name_tag => visible name_tag
             | None => false
             end)
          (find_all "span" "itemprop" (String.eqb "author") entry).

Definition well_formed (entry : node) : Prop :=
  has_title entry && has_author entry = true.

(** The link targets of the anchors below [entry] whose [href] satisfies
    [crit], in document order. *)
Definition link_candidates (crit : string → bool) (entry : node)
    : list string :=
  map (get_attr "href") (find_all "a" "href" crit entry).

(** Sample pages and worlds. *)
Definition anchor (href : string) : node :=
  Tag "a" {["href" := href]} [].

Definition sample_entry (links : list node) : node :=
  Tag "li" {["class" := "entry inproceedings"]}
    [Tag "cite" ∅
       ([Tag "span" {["itemprop" := "author"]}
           [Tag "span" {["itemprop" := "name"]} [Text "Ada Lovelace"]];
         Tag "span" {["class" := "title"]} [Text " On Engines. "]]
        ++ links)].

Definition sample_page : node :=
  Tag "[document]" ∅
    [Tag "ul" ∅
       [sample_entry [anchor "https://dblp.org/rec/conf/x/1";
                      anchor "https://doi.org/10.1/x"];
        sample_entry []]].

Definition sample_world : world :=
  World (λ _, Ok (Response 200 "<html>")) (λ _, Ok sample_page).

Definition offline_world : world :=
  World (λ _, Raise RequestException) (λ _, Raise ParserError).

(** ** Aggregator: the counting loop of [plot_paper_trend]

    [year_count[year] = year_count.get(year, 0) + 1] for every paper, in
    order. *)

Definition count_step (year_count : gmap string Z) (p : paper) : gmap string Z :=
  <[year p := default 0 (year_count !! year p) + 1]> year_count.

Definition count_years (papers : list paper) : gmap string Z :=
  foldl count_step ∅ papers.

(** The charting calls inside the [try] block either all succeed or one of
    them raises; the charting library is the argument [render]. *)

Definition plot_paper_trend
    (render : list string → list Z → result unit)
    (papers : list paper) : gmap string Z :=
  match papers with
  | [] => ∅
  | _ :: _ =>
    let year_count := count_years papers in
    let years := merge_sort String.le (map fst (map_to_list year_count)) in
    let counts := map (λ y, default 0 (year_count !! y)) years in
    match render years counts with
    | Ok _ => year_count
    | Raise _ => year_count
    end
  end.

(** Sum of the values of a Year Count Map. *)
Definition total (m : gmap string Z) : Z :=
  map_fold (λ _ c acc, c + acc) 0 m.

Definition counts_positive (m : gmap string Z) : Prop :=
  ∀ k c, m !! k = Some c → 1 <= c.

Definition paper_of_year (y : string) : paper := Paper "t" "a" y "c" "".

Definition titled (t : string) : paper := Paper t "a" "2021" "c" "".

(** ** Keyword Analyzer: [extract_keywords] *)

Definition keep_word (word : string) : Prop :=
  (word ∉ STOP_WORDS) ∧ (2 < py_len word).

#[global] Instance keep_word_dec word : Decision (keep_word word).
Proof. unfold keep_word. apply _. Defined.

Definition title_words (papers : list paper) : list string :=
  let all_titles := py_join " " (map title papers) in
  let all_titles := py_lower all_titles in
  let all_titles := sub_nonword_nonspace all_titles in
  py_split all_titles.

Definition extract_keywords (papers : list paper) : gmap string Z :=
  match papers with
  | [] => ∅
  | _ =>
    let words := title_words papers in
    let words := filter keep_word words in
    Counter words
  end.

(** ** Forecaster: [predict_next_year]

    The function prints the prediction and writes a report; the model
    returns what is printed: nothing when there are fewer than two years,
    the caught exception, or the predicted year and count. *)

Inductive outcome :=
  | Skipped
  | Failed (e : exn)
  | Predicted (next_year prediction : Z).

(** [for i in range(1, len(counts))]: both indices are in range. *)
Fixpoint growth_rates_loop (counts : list Z) (indices : list nat)
    (growth_rates : list float) : result (list float) :=
  match indices with
  | [] => Ok growth_rates
  | i :: indices' =>
    let prev := nth (i - 1) counts 0 in
    if 0 <? prev then
      growth_rate ← true_div (nth i counts 0 - prev) prev;
      growth_rates_loop counts indices' (growth_rates ++ [growth_rate])
    else growth_rates_loop counts indices' growth_rates
  end.

Definition growth_rates (counts : list Z) : result (list float) :=
  growth_rates_loop counts (seq 1 (length counts - 1)) [].

Definition average_growth_rate (growth_rates : list float) : result float :=
  float_div_int (sum_floats growth_rates) (len growth_rates).

(** [counts[-1] * (1 + avg_growth_rate)]. *)
Definition projected_count (counts : list Z) (growth_rates : list float)
    : result float :=
  avg_growth_rate ← average_growth_rate growth_rates;
  factor ← int_add_float 1 avg_growth_rate;
  int_mul_float (List.last counts 0) factor.

Definition forecast (years counts : list Z) : result (Z * Z) :=
  growth_rates ← growth_rates counts;
  match growth_rates with
  | [] =>
    avg_count ← true_div (sum_ints counts) (len counts);
    let next_year := List.last years 0 + 1 in
    prediction ← Float.to_int avg_count;
    Ok (next_year, prediction)
  | _ =>
    next_count ← projected_count counts growth_rates;
    let next_year := List.last years 0 + 1 in
    prediction ← Float.to_int next_count;
    Ok (next_year, prediction)
  end.

(** [year_count.keys()]; the order is immaterial, the years are sorted. *)
Definition dict_keys (year_count : gmap string Z) : list string :=
  (map_to_list year_count).*1.

(** [year_count[k]]. *)

Definition getitem (year_count : gmap string Z) (k : string) : result Z :=
  match year_count !! k with
  | Some c => Ok c
  | None => Raise KeyError
  end.

Definition outcome_of (r : result (Z * Z)) : outcome :=
  match r with
  | Ok (next_year, prediction) => Predicted next_year prediction
  | Raise e => Failed e
  end.

Definition predict_next_year (year_count : gmap string Z) : outcome :=
  if bool_decide (size year_count < 2)%nat then Skipped
  else
    outcome_of (
      ys ← traverse py_int (dict_keys year_count);
      let years := merge_sort Z.le ys in
      counts ← traverse (λ y, getitem year_count (py_str y)) years;
      forecast years counts).

(** *** The Forecaster in the words of its description

    The years of a Year Count Map in ascending order with their counts,
    the transitions between adjacent years, and the growth rate
    [(count[i] - count[i-1]) / count[i-1]] of every transition whose prior
    count is positive. *)

Definition year_of_key (k : string) : option Z :=
  match py_int k with
  | Ok y => Some y
  | Raise _ => None
  end.

Definition years_of (year_count : gmap string Z) : list Z :=
  merge_sort Z.le (omap year_of_key (dict_keys year_count)).

Definition counts_of (year_count : gmap string Z) : list Z :=
  map (λ y, default 0 (year_count !! py_str y)) (years_of year_count).

Fixpoint transitions (counts : list Z) : list (Z * Z) :=
  match counts with
  | prev :: (cur :: _) as rest => (prev, cur) :: transitions rest
  | _ => []
  end.

Definition valid_transitions (counts : list Z) : list (Z * Z) :=
  filter (λ t, 0 < t.1) (transitions counts).

Definition growth_rate (t : Z * Z) : result float :=
  true_div (t.2 - t.1) t.1.

Definition adjacent_growth_rates (counts : list Z) : result (list float) :=
  traverse growth_rate (valid_transitions counts).

(** [floor(last_count * (1 + mean(growth_rates)))] for next year, in the
    arithmetic of the program. *)
Definition forecast_formula (years counts : list Z) : result (Z * Z) :=
  growth_rates ← adjacent_growth_rates counts;
  next_count ← projected_count counts growth_rates;
  prediction ← Float.floor next_count;
  Ok (List.last years 0 + 1, prediction).

(** The truncated integer average of all observed counts. *)
Definition average_formula (years counts : list Z) : result (Z * Z) :=
  avg_count ← true_div (sum_ints counts) (len counts);
  prediction ← Float.to_int avg_count;
  Ok (List.last years 0 + 1, prediction).

(** A Year Count Map: every key is a year as text, that is the decimal
    numeral of the year it denotes, and every value counts records. *)
Definition is_year_text (k : string) : Prop :=
  py_str <$> year_of_key k = Some k.

Definition year_keys (year_count : gmap string Z) : Prop :=
  map_Forall (λ k _, is_year_text k) year_count.

Definition counts_nonneg (year_count : gmap string Z) : Prop :=
  map_Forall (λ _ c, 0 <= c) year_count.

Definition counts_below (bound : Z) (year_count : gmap string Z) : Prop :=
  map_Forall (λ _ c, c < bound) year_count.

#[global] Instance is_year_text_dec k : Decision (is_year_text k).
Proof. unfold is_year_text. apply _. Defined.
#[global] Instance year_keys_dec m : Decision (year_keys m).
Proof. unfold year_keys. apply _. Defined.
#[global] Instance counts_nonneg_dec m : Decision (counts_nonneg m).
Proof. unfold counts_nonneg. apply _. Defined.
#[global] Instance counts_below_dec b m : Decision (counts_below b m).
Proof. unfold counts_below. apply _. Defined.

(** Sample Year Count Maps. *)
Definition counts_2020_2022 : gmap string Z :=
  <["2020" := 100]> (<["2021" := 150]> (<["2022" := 225]> ∅)).

Definition counts_zero_then_100 : gmap string Z :=
  <["2020" := 0]> (<["2021" := 100]> ∅).

Definition counts_with_gap : gmap string Z :=
  <["2019" := 3]> (<["2021" := 0]> (<["2023" := 7]> ∅)).

(** ** Font discovery: [set_chinese_font]

    The host is the value of [os.name], the paths for which
    [os.path.exists] holds, and the font files that [FontProperties] can
    load; the result is the value bound to [chinese_font_path]. *)

Definition FONT_PATHS : list string :=
  ["C:/Windows/Fonts/simhei.ttf"; "C:/Windows/Fonts/simsun.ttc";
   "C:/Windows/Fonts/msyh.ttc"; "C:/Windows/Fonts/simkai.ttf"].

(** [for font_path in font_paths]: the first existing path is loaded; a
    font that fails to load raises, which ends the search. *)
Fixpoint first_font (path_exists loads : string → bool)
    (font_paths : list string) : result (option string) :=
  match font_paths with
  | [] => Ok None
  | font_path :: font_paths' =>
    if path_exists font_path
    then if loads font_path then Ok (Some font_path) else Raise RenderError
    else first_font path_exists loads font_paths'
  end.

Definition set_chinese_font (os_name : string)
    (path_exists loads : string → bool) : option string :=
  if String.eqb os_name "nt"
  then match first_font path_exists loads FONT_PATHS with
       | Ok (Some font_path) => Some font_path
       | Ok None => None
       | Raise _ => None
       end
  else None.

(** ** Files

    The files under [output/]: a path and what was written to it, the
    text of a listing or the bytes of an image.  [open(path, 'w')] and
    [plt.savefig(path)] raise on a path that cannot be written; every
    writer of the program catches that and goes on. *)

Abbreviation files := (gmap string string).

Definition LF : string := String "010" "".
Definition CRLF : string := String "013" (String "010" "").
Definition QUOTE : ascii := "034".

(** [''.join(l)]. *)
Definition py_concat (l : list string) : string := foldr append "" l.

Fixpoint any_char (P : ascii → bool) (s : string) : bool :=
  match s with
  | EmptyString => false
  | String c s' => P c || any_char P s'
  end.

(** ** Persister: [save_to_csv]

    [csv.DictWriter] with the default dialect: fields separated by a
    comma, rows ended by CR LF, a field quoted when it holds the
    delimiter, the quote character or a character of the row terminator,
    and every quote character inside a quoted field doubled. *)

Definition csv_special (c : ascii) : bool :=
  Ascii.eqb c "," || Ascii.eqb c QUOTE || Ascii.eqb c "013" || Ascii.eqb c "010".

Fixpoint csv_double_quotes (s : string) : string :=
  match s with
  | EmptyString => EmptyString
  | String c s' =>
    if Ascii.eqb c QUOTE then String QUOTE (String QUOTE (csv_double_quotes s'))
    else String c (csv_double_quotes s')
  end.

Definition csv_field (s : string) : string :=
  if any_char csv_special s
  then String QUOTE (csv_double_quotes s +:+ String QUOTE "")
  else s.

(** [writer.writerow(row)]; a row that is one empty field is written as
    two quote characters. *)
Definition csv_writerow (row : list string) : string :=
  match row with
  | [EmptyString] => String QUOTE (String QUOTE CRLF)
  | _ => py_join "," (map csv_field row) +:+ CRLF
  end.

Definition FIELDNAMES : list string :=
  ["title"; "authors"; "year"; "conference"; "link"].

(** [rowdict.get(key) for key in fieldnames]. *)
Definition dict_to_list (p : paper) : list string :=
  [title p; authors p; year p; conference p; link p].

(** The text that [writeheader] and the [writerow] loop hand to the file
    (the [utf-8-sig] encoder puts the byte order mark in front of it). *)
Definition csv_text (papers : list paper) : string :=
  csv_writerow FIELDNAMES +:+
  py_concat (map (λ p, csv_writerow (dict_to_list p)) papers).

Definition save_to_csv (writable : string → bool)
    (papers : list paper) (filename : string) (fs : files) : files :=
  match papers with
  | [] => fs
  | _ =>
    if writable filename then <[filename := csv_text papers]> fs else fs
  end.

(** A reader of one field of such a file: the field and what follows it.
    It serves to show that the written text determines the records. *)
Fixpoint csv_read_quoted (s : string) : option (string * string) :=
  match s with
  | EmptyString => None
  | String c s' =>
    if Ascii.eqb c QUOTE then
      match s' with
      | String c' s'' =>
        if Ascii.eqb c' QUOTE
        then prod_map (String QUOTE) id <$> csv_read_quoted s''
        else Some (EmptyString, s')
      | EmptyString => Some (EmptyString, EmptyString)
      end
    else prod_map (String c) id <$> csv_read_quoted s'
  end.

Fixpoint csv_read_plain (s : string) : string * string :=
  match s with
  | EmptyString => (EmptyString, EmptyString)
  | String c s' =>
    if csv_special c then (EmptyString, s)
    else prod_map (String c) id (csv_read_plain s')
  end.

Definition csv_read_field (s : string) : option (string * string) :=
  match s with
  | String c s' =>
    if Ascii.eqb c QUOTE then csv_read_quoted s' else Some (csv_read_plain s)
  | EmptyString => Some (EmptyString, EmptyString)
  end.

(** What may follow a field: a comma or the row terminator. *)
Definition after_field (rest : string) : Prop :=
  ∃ c rest', rest = String c rest' ∧ csv_special c = true ∧ c ≠ QUOTE.

(** ** Keyword ranking: [Counter.most_common] and [plot_keywords_bar]

    A [Counter] is a dictionary and keeps its keys in the order in which
    they were first counted; [most_common] depends on that order. *)

(** [items[w] = items.get(w, 0) + 1] on the ordered items. *)
Fixpoint bump (w : string) (items : list (string * Z)) : list (string * Z) :=
  match items with
  | [] => [(w, 1)]
  | (k, c) :: items' =>
    if String.eqb k w then (k, c + 1) :: items' else (k, c) :: bump w items'
  end.

(** [Counter(words).items()]. *)
Definition counter_items (words : list string) : list (string * Z) :=
  foldl (λ items w, bump w items) [] words.

(** [extract_keywords(papers).items()]. *)
Definition keyword_items (papers : list paper) : list (string * Z) :=
  match papers with
  | [] => []
  | _ => counter_items (filter keep_word (title_words papers))
  end.

(** [sorted(items, key=itemgetter(1), reverse=True)]: by decreasing count,
    items of equal count in their original order. *)
Fixpoint insert_by_count (x : string * Z) (l : list (string * Z))
    : list (string * Z) :=
  match l with
  | [] => [x]
  | y :: l' => if y.2 <=? x.2 then x :: l else y :: insert_by_count x l'
  end.

Definition sorted_by_count (items : list (string * Z)) : list (string * Z) :=
  foldr insert_by_count [] items.

(** The order of the ranking: [a] may come before [b]. *)
Definition count_ge (a b : string * Z) : Prop := b.2 <= a.2.

(** [word_freq.most_common(n)], that is [heapq.nlargest(n, items, key)],
    which is [sorted(items, key=key, reverse=True)[:n]]. *)
Definition most_common (n : Z) (items : list (string * Z))
    : list (string * Z) :=
  take (Z.to_nat n) (sorted_by_count items).

(** The ranked listing written to [output/<conf>_top_keywords.txt]. *)
Definition keyword_line (i : nat) (item : string * Z) : string :=
  py_str (Z.of_nat i + 1) +:+ ". " +:+ item.1 +:+ ": " +:+ py_str item.2 +:+ LF.

Definition top_keywords_text (conf_name : string) (top_n : Z)
    (top_words : list (string * Z)) : string :=
  conf_name +:+ "论文标题高频关键词 (Top " +:+ py_str top_n +:+ "):" +:+ LF +:+
  py_concat (imap keyword_line top_words).

Definition top_keywords_path (conf_name : string) : string :=
  "output/" +:+ py_lower conf_name +:+ "_top_keywords.txt".

(** [plt.savefig(path)]: the image that the charting calls before it have
    drawn is written to [path]; [image] is that image, or the exception
    that one of these calls raises. *)
Definition savefig (writable : string → bool) (path : string)
    (image : result string) (fs : files) : result files :=
  png ← image;
  if writable path then Ok (<[path := png]> fs) else Raise RenderError.

Definition paper_trend_path (conf_name : string) : string :=
  "output/" +:+ py_lower conf_name +:+ "_paper_trend.png".

Definition keywords_bar_path (conf_name : string) : string :=
  "output/" +:+ py_lower conf_name +:+ "_keywords_bar.png".

Definition wordcloud_path (conf_name : string) : string :=
  "output/" +:+ py_lower conf_name +:+ "_wordcloud.png".

(** The files after [plot_paper_trend(papers, conf_name)]: the chart of
    the counts by year, unless a charting call raises. *)
Definition save_paper_trend
    (draw : list string → list Z → result string) (writable : string → bool)
    (papers : list paper) (conf_name : string) (fs : files) : files :=
  match papers with
  | [] => fs
  | _ :: _ =>
    let year_count := count_years papers in
    let years := merge_sort String.le (map fst (map_to_list year_count)) in
    let counts := map (λ y, default 0 (year_count !! y)) years in
    match savefig writable (paper_trend_path conf_name) (draw years counts) fs with
    | Ok fs => fs
    | Raise _ => fs
    end
  end.

(** [generate_wordcloud(word_freq, conf_name)], which catches its own
    exceptions; [draw] is the word cloud library and the charting calls. *)
Definition generate_wordcloud
    (draw : list (string * Z) → result string) (writable : string → bool)
    (word_freq : list (string * Z)) (conf_name : string) (fs : files)
    : files :=
  match savefig writable (wordcloud_path conf_name) (draw word_freq) fs with
  | Ok fs => fs
  | Raise _ => fs
  end.

(** [draw] stands for the charting calls up to [savefig].  An empty
    ranking cannot be unpacked into [words, counts], which raises.  The
    chart is written first, then the listing, then the word cloud if the
    library is there ([wordcloud]); an exception ends the function and
    leaves what was written before it. *)
Definition plot_keywords_bar
    (draw : list string → list Z → result string)
    (wordcloud : option (list (string * Z) → result string))
    (writable : string → bool)
    (word_freq : list (string * Z)) (conf_name : string) (top_n : Z)
    (fs : files) : files :=
  match word_freq with
  | [] => fs
  | _ =>
    let top_words := most_common top_n word_freq in
    match top_words with
    | [] => fs
    | _ =>
      let words := top_words.*1 in
      let counts := top_words.*2 in
      match
        savefig writable (keywords_bar_path conf_name) (draw words counts) fs
      with
      | Raise _ => fs
      | Ok fs =>
        let path := top_keywords_path conf_name in
        if writable path
        then
          let fs := <[path := top_keywords_text conf_name top_n top_words]> fs in
          match wordcloud with
          | Some draw_cloud =>
            generate_wordcloud draw_cloud writable word_freq conf_name fs
          | None => fs
          end
        else fs
      end
    end
  end.

(** ** The report of [predict_next_year]

    [percent] is the format [{rate:.2%}].  The indices [i] and [i + 1] of
    the rate lines are in range: there are fewer rates than years. *)

Definition count_line (y c : Z) : string :=
  py_str y +:+ ": " +:+ py_str c +:+ LF.

Definition rate_line (percent : float → string) (years : list Z)
    (i : nat) (rate : float) : string :=
  py_str (nth i years 0) +:+ " 至 " +:+ py_str (nth (i + 1) years 0) +:+
  ": " +:+ percent rate +:+ LF.

Definition report_text (percent : float → string) (conf_name : string)
    (years counts : list Z) : result string :=
  growth_rates ← growth_rates counts;
  '(next_year, prediction) ← forecast years counts;
  rates_text ←
    match growth_rates with
    | [] => Ok ""
    | _ =>
      avg_growth_rate ← average_growth_rate growth_rates;
      Ok (LF +:+ "历年增长率:" +:+ LF +:+
          py_concat (imap (rate_line percent years) growth_rates) +:+
          LF +:+ "平均增长率: " +:+ percent avg_growth_rate +:+ LF)
    end;
  Ok (conf_name +:+ " " +:+ py_str next_year +:+ " 年论文数量预测: " +:+
      py_str prediction +:+ LF +:+
      LF +:+ "历年论文数量:" +:+ LF +:+
      py_concat (zip_with count_line years counts) +:+
      rates_text).

Definition prediction_path (conf_name : string) : string :=
  "output/" +:+ py_lower conf_name +:+ "_prediction.txt".

(** The file written by [predict_next_year(year_count, conf_name)]. *)
Definition save_prediction (percent : float → string)
    (writable : string → bool) (year_count : gmap string Z)
    (conf_name : string) (fs : files) : files :=
  if bool_decide (size year_count < 2)%nat then fs
  else
    match
      ys ← traverse py_int (dict_keys year_count);
      let years := merge_sort Z.le ys in
      counts ← traverse (λ y, getitem year_count (py_str y)) years;
      report_text percent conf_name years counts
    with
    | Ok text =>
      let path := prediction_path conf_name in
      if writable path then <[path := text]> fs else fs
    | Raise _ => fs
    end.

(** ** Orchestrator: [process_conference] and [main] *)

(** The machine the program runs on: the site, the charting library
    (the image it draws of the trend and of the ranking of a conference),
    the word cloud library if it is installed ([WORDCLOUD_AVAILABLE]),
    the paths that can be written, and the format [{rate:.2%}]. *)
Record host := Host {
  web : world;
  draw_trend : string → list string → list Z → result string;
  draw_bar : string → list string → list Z → result string;
  draw_wordcloud : option (string → list (string * Z) → result string);
  writable : string → bool;
  percent : float → string
}.

(** The same machine at another site. *)
Definition with_web (h : host) (w : world) : host :=
  Host w (draw_trend h) (draw_bar h) (draw_wordcloud h) (writable h)
       (percent h).

(** [range(start, stop)]. *)
Definition py_range (start stop : Z) : list Z := seqZ start (stop - start).

(** The crawl loop; [time.sleep(2)] follows every request. *)
Fixpoint crawl (w : world) (conf_key : string) (years : list Z)
    (all_papers : list paper) : result (list paper) :=
  match years with
  | [] => Ok all_papers
  | year :: years' =>
    if String.eqb conf_key "iccv" && (year mod 2 =? 0)
    then crawl w conf_key years' all_papers
    else
      papers ← get_paper_info w conf_key year;
      crawl w conf_key years' (all_papers ++ papers)
  end.

Definition csv_path (conf_name : string) (start_year end_year : Z) : string :=
  "output/" +:+ py_lower conf_name +:+ "_papers_" +:+ py_str start_year +:+
  "_" +:+ py_str end_year +:+ ".csv".

(** What a run of [process_conference] computes after the crawl: its
    local variables and the printed forecast. *)
Record analysis := Analysis {
  all_papers_of : list paper;
  year_count_of : gmap string Z;
  word_freq_of : gmap string Z;
  forecast_of : outcome
}.

(** The files after the call, and the analysis unless the crawl found no
    paper. *)
Definition process_conference (h : host) (conf_key : string) (fs : files)
    : result (files * option analysis) :=
  match CONFERENCE_CONFIGS !! conf_key with
  | None => Raise KeyError
  | Some conf_config =>
    let conf_name := name conf_config in
    let start_year := start_year conf_config in
    let end_year := end_year conf_config in
    all_papers ← crawl (web h) conf_key (py_range start_year (end_year + 1)) [];
    match all_papers with
    | [] => Ok (fs, None)
    | _ =>
      let fs := save_to_csv (writable h) all_papers
                  (csv_path conf_name start_year end_year) fs in
      let year_count :=
        plot_paper_trend
          (λ years counts,
             _ ← savefig (writable h) (paper_trend_path conf_name)
                   (draw_trend h conf_name years counts) fs;
             Ok ())
          all_papers in
      let fs := save_paper_trend (draw_trend h conf_name) (writable h)
                  all_papers conf_name fs in
      let word_freq := extract_keywords all_papers in
      let fs := plot_keywords_bar (draw_bar h conf_name)
                  ((λ draw, draw conf_name) <$> draw_wordcloud h) (writable h)
                  (keyword_items all_papers) conf_name 20 fs in
      let fs := save_prediction (percent h) (writable h) year_count conf_name fs in
      Ok (fs, Some (Analysis all_papers year_count word_freq
                      (predict_next_year year_count)))
    end
  end.

(** [for conf_key in CONFERENCE_CONFIGS]: the keys in the order of the
    table. *)
Definition CONFERENCE_KEYS : list string := ["aaai"; "cvpr"; "iccv"].

Fixpoint main_loop (h : host) (conf_keys : list string) (fs : files)
    : result files :=
  match conf_keys with
  | [] => Ok fs
  | conf_key :: conf_keys' =>
    r ← process_conference h conf_key fs;
    main_loop h conf_keys' r.1
  end.

Definition main (h : host) (fs : files) : result files :=
  main_loop h CONFERENCE_KEYS fs.

(** The years of the crawl loop that are requested, and the records that
    a request yields. *)
Definition crawl_years (conf_key : string) (conf_config : conf_config)
    : list Z :=
  filter (λ y, ¬ (conf_key = "iccv" ∧ y mod 2 = 0))
         (py_range (start_year conf_config) (end_year conf_config + 1)).

Definition papers_of_year (w : world) (conf_key : string) (y : Z)
    : list paper :=
  match get_paper_info w conf_key y with
  | Ok papers => papers
  | Raise _ => []
  end.

(** The requested years that yield at least one record. *)
Definition productive_years (w : world) (conf_key : string)
    (conf_config : conf_config) : list Z :=
  filter (λ y, (0 < length (papers_of_year w conf_key y))%nat)
         (crawl_years conf_key conf_config).

(** Sample hosts: all charts succeed and all files can be written; a site
    without the ICCV page of 2020; a site that has the pages of 2021
    only; a site that has one page only. *)
Definition quiet_host (w : world) : host :=
  Host w (λ _ _ _, Ok "PNG") (λ _ _ _, Ok "PNG") (Some (λ _ _, Ok "PNG"))
       (λ _, true) (λ _, "?").

Definition no_iccv2020 : world :=
  World (λ url, if String.eqb url "https://dblp.org/db/conf/iccv/iccv2020.html"
                then Raise RequestException
                else Ok (Response 200 "<html>"))
        (λ _, Ok sample_page).

Definition only_2021 : world :=
  World (λ url, if py_contains "2021" url then Ok (Response 200 "<html>")
                else Ok (Response 404 ""))
        (λ _, Ok sample_page).

Definition only_page (url : string) : world :=
  World (λ url', if String.eqb url' url then Ok (Response 200 "<html>")
                 else Raise RequestException)
        (λ _, Ok sample_page).

Definition no_page : world :=
  World (λ _, Raise RequestException) (λ _, Ok sample_page).

(** * Properties *)

(** ** Tactics *)

Ltac pow2_eq :=
  match goal with
  | |- (Float.pow2 ?a == Float.pow2 ?b)%Q =>
    replace a with b by lia; reflexivity
  end.

Ltac by_computation :=
  match goal with
  | |- ?P => apply (bool_decide_unpack P); by vm_compute
  end.


(** ** UTF-8: reading what was written *)

Section Utf8.
Local Open Scope N_scope.

Implicit Types (s : string) (b : ascii) (c n : N) (l : list N)
  (st : option pending).

Ltac arith := zify; Z.to_euclidean_division_equations; lia.

Lemma string_app_cons b s1 s2 : String b s1 +:+ s2 = String b (s1 +:+ s2).
Proof. done. Qed.

Lemma string_app_nil s : "" +:+ s = s.
Proof. done. Qed.

Lemma string_app_assoc s1 s2 s3 : (s1 +:+ s2) +:+ s3 = s1 +:+ (s2 +:+ s3).
Proof.
  induction s1 as [|b s1 IH]; [done|]. by rewrite !string_app_cons, IH.
Qed.

Lemma string_app_nil_r s : s +:+ "" = s.
Proof. induction s as [|b s IH]; [done|]. by rewrite string_app_cons, IH. Qed.

Lemma code_byte n : n < 256 → code (byte n) = n.
Proof. apply N_ascii_embedding. Qed.

Lemma byte_code b : byte (code b) = b.
Proof. apply ascii_N_embedding. Qed.

Lemma code_lt b : code b < 256.
Proof. apply N_ascii_bounded. Qed.

Lemma between_true lo hi n : lo <= n <= hi → between lo hi n = true.
Proof.
  intros [? ?]. unfold between.
  apply andb_true_intro; split; by apply N.leb_le.
Qed.

Lemma between_false lo hi n : n < lo ∨ hi < n → between lo hi n = false.
Proof.
  intros H. unfold between. apply andb_false_iff.
  destruct H; [left|right]; by apply N.leb_gt.
Qed.

Lemma between_spec lo hi n : between lo hi n = true ↔ lo <= n <= hi.
Proof. unfold between. by rewrite andb_true_iff, !N.leb_le. Qed.

Lemma ltb_true n m : n < m → (n <? m) = true.
Proof. apply N.ltb_lt. Qed.

Lemma ltb_false n m : m <= n → (n <? m) = false.
Proof. apply N.ltb_ge. Qed.

Lemma leb_true n m : n <= m → (n <=? m) = true.
Proof. apply N.leb_le. Qed.

Lemma scalar_spec c :
  scalar c = true ↔ c < 0xD800 ∨ 0xDFFF < c <= 0x10FFFF.
Proof.
  unfold scalar, between.
  rewrite andb_true_iff, negb_true_iff, andb_false_iff, !N.leb_le, !N.leb_gt.
  lia.
Qed.

Lemma start_ascii n : n < 0x80 → start n = ([n], None).
Proof. intros. unfold start. by rewrite ltb_true. Qed.

Lemma start_lead2 n :
  0xC0 <= n <= 0xDF → start n = ([], Some (Pending (n - 0xC0) 0 0x80)).
Proof.
  intros. unfold start. by rewrite ltb_false, between_true by lia.
Qed.

Lemma start_lead3 n :
  0xE0 <= n <= 0xEF → start n = ([], Some (Pending (n - 0xE0) 1 0x800)).
Proof.
  intros. unfold start.
  by rewrite ltb_false, between_false, between_true by lia.
Qed.

Lemma start_lead4 n :
  0xF0 <= n <= 0xF7 → start n = ([], Some (Pending (n - 0xF0) 2 0x10000)).
Proof.
  intros. unfold start.
  by rewrite ltb_false, !between_false, between_true by lia.
Qed.

Lemma step_continuation v k m n :
  0x80 <= n <= 0xBF →
  step (Some (Pending v k m)) n
  = match k with
    | O => ([if (m <=? v * 64 + (n - 0x80)) && scalar (v * 64 + (n - 0x80))
             then v * 64 + (n - 0x80) else REPLACEMENT], None)
    | S k' => ([], Some (Pending (v * 64 + (n - 0x80)) k' m))
    end.
Proof. intros. unfold step. by rewrite between_true. Qed.

(** Reading the encoding of a character gives the character back. *)
Lemma decode_encode c s :
  scalar c = true → decode None (encode c +:+ s) = c :: decode None s.
Proof.
  intros Hs. pose proof Hs as Hc%scalar_spec. unfold encode.
  destruct (N.ltb_spec c 0x80) as [H1|H1].
  { rewrite string_app_cons, string_app_nil. cbn [decode step].
    rewrite code_byte by lia. by rewrite start_ascii. }
  destruct (N.ltb_spec c 0x800) as [H2|H2].
  { rewrite !string_app_cons, string_app_nil. cbn [decode].
    rewrite !code_byte by arith. cbn [step].
    rewrite start_lead2 by arith. cbn [fst snd app].
    rewrite step_continuation by arith. cbn [fst snd app].
    replace (_ * 64 + _) with c by arith.
    by rewrite Hs, leb_true by lia. }
  destruct (N.ltb_spec c 0x10000) as [H3|H3].
  { rewrite !string_app_cons, string_app_nil. cbn [decode].
    rewrite !code_byte by arith. cbn [step].
    rewrite start_lead3 by arith. cbn [fst snd app].
    rewrite !step_continuation by arith. cbn [fst snd app].
    rewrite step_continuation by arith. cbn [fst snd app].
    replace (_ * 64 + _) with c by arith.
    by rewrite Hs, leb_true by lia. }
  rewrite !string_app_cons, string_app_nil. cbn [decode].
  rewrite !code_byte by arith. cbn [step].
  rewrite start_lead4 by arith. cbn [fst snd app].
  rewrite !step_continuation by arith. cbn [fst snd app].
  rewrite !step_continuation by arith. cbn [fst snd app].
  rewrite step_continuation by arith. cbn [fst snd app].
  replace (_ * 64 + _) with c by arith.
  by rewrite Hs, leb_true by lia.
Qed.

Lemma code_points_of_code_points l :
  Forall (λ c, scalar c = true) l → code_points (of_code_points l) = l.
Proof.
  unfold code_points. induction 1 as [|c l Hc _ IH]; [done|].
  cbn [of_code_points]. by rewrite decode_encode, IH.
Qed.

Lemma start_scalar n :
  n < 256 → Forall (λ c, scalar c = true) (start n).1.
Proof.
  intros Hn. unfold start.
  destruct (N.ltb_spec n 0x80).
  { repeat constructor. apply scalar_spec. simpl. lia. }
  repeat case_match; simpl; repeat constructor.
Qed.

(** Every character that is read is a character. *)
Lemma decode_scalar st s : Forall (λ c, scalar c = true) (decode st s).
Proof.
  revert st. induction s as [|b s IH]; intros st; cbn [decode].
  - destruct st; repeat constructor.
  - apply Forall_app. split; [|apply IH].
    unfold step. destruct st as [p|]; [|apply start_scalar, code_lt].
    destruct (between 128 191 (code b)).
    + destruct (more p); [|constructor]. cbn [fst].
      constructor; [|constructor].
      destruct (_ && scalar _) eqn:E; [by apply andb_prop in E as [_ ?]|done].
    + constructor; [done|]. apply start_scalar, code_lt.
Qed.

Lemma code_points_scalar s : Forall (λ c, scalar c = true) (code_points s).
Proof. apply decode_scalar. Qed.

(** An ASCII byte ends whatever precedes it. *)
Lemma decode_app_ascii st s1 b s2 :
  code b < 0x80 →
  decode st (s1 +:+ String b s2) = decode st s1 ++ code b :: decode None s2.
Proof.
  intros Hb. revert st. induction s1 as [|b1 s1 IH]; intros st.
  - rewrite string_app_nil. cbn [decode].
    destruct st as [p|]; cbn [step].
    + rewrite between_false by lia. by rewrite start_ascii.
    + by rewrite start_ascii.
  - rewrite string_app_cons. cbn [decode]. by rewrite IH, app_assoc.
Qed.

Lemma code_points_app_space s1 s2 :
  code_points (s1 +:+ String " " s2)
  = code_points s1 ++ 0x20 :: code_points s2.
Proof. by apply (decode_app_ascii None s1 " " s2). Qed.

Lemma code_points_cons_ascii b s :
  code b < 0x80 → code_points (String b s) = code b :: code_points s.
Proof. intros Hb. by apply (decode_app_ascii None "" b s). Qed.

Lemma of_code_points_app l1 l2 :
  of_code_points (l1 ++ l2) = of_code_points l1 +:+ of_code_points l2.
Proof.
  induction l1 as [|c l1 IH]; [done|].
  cbn [app of_code_points]. by rewrite IH, string_app_assoc.
Qed.

Lemma of_code_points_cons_ascii b l :
  code b < 0x80 → of_code_points (code b :: l) = String b (of_code_points l).
Proof.
  intros Hb. cbn [of_code_points]. unfold encode.
  by rewrite ltb_true, byte_code.
Qed.

Lemma of_code_points_nil_inv l : of_code_points l = "" → l = [].
Proof.
  destruct l as [|c l]; [done|]. cbn [of_code_points]. unfold encode.
  by repeat case_match.
Qed.

End Utf8.

(** ** Years as text: [int(str(y)) = y] *)

Section YearText.

Implicit Types (s : string) (b : ascii) (l : list N).

Lemma is_digit_code b : is_digit b = true → digit_point (code b).
Proof. apply between_spec. Qed.

Lemma uint_digits d : all_chars is_digit (NilEmpty.string_of_uint d) = true.
Proof. induction d; simpl; by rewrite ?IHd. Qed.

Lemma uint_nonempty d : d ≠ Decimal.Nil → NilEmpty.string_of_uint d ≠ "".
Proof. by destruct d. Qed.

(** A numeral is its own characters. *)
Lemma code_points_digits s :
  all_chars is_digit s = true →
  Forall digit_point (code_points s) ∧ of_code_points (code_points s) = s.
Proof.
  induction s as [|b s IH]; [done|]. cbn [all_chars].
  intros [Hb Hs]%andb_prop. apply is_digit_code in Hb.
  destruct (IH Hs) as [IH1 IH2]. unfold digit_point in Hb.
  rewrite code_points_cons_ascii by lia. split; [by constructor|].
  rewrite of_code_points_cons_ascii by lia. by rewrite IH2.
Qed.

Lemma lstrip_digits l : Forall digit_point l → lstrip c_isspace l = l.
Proof.
  destruct 1 as [|c l Hc _]; [done|]. cbn [lstrip]. unfold digit_point in Hc.
  unfold c_isspace. rewrite between_false by lia.
  by rewrite (proj2 (N.eqb_neq c 32)) by lia.
Qed.

Lemma rstrip_digits l : Forall digit_point l → rstrip c_isspace l = l.
Proof.
  induction 1 as [|c l Hc _ IH]; [done|]. cbn [rstrip]. rewrite IH.
  destruct l; [|done]. unfold digit_point in Hc.
  unfold c_isspace. rewrite between_false by lia.
  by rewrite (proj2 (N.eqb_neq c 32)) by lia.
Qed.

Lemma to_ascii_digits l : Forall digit_point l → to_ascii l = l.
Proof.
  intros H. unfold to_ascii.
  rewrite (proj2 (forallb_forall _ l)); [done|].
  intros c Hc%list_elem_of_In. rewrite Forall_forall in H.
  specialize (H c Hc). unfold digit_point in H. apply N.ltb_lt. lia.
Qed.

Lemma digits_of_digits s (prev : bool) :
  all_chars is_digit s = true → s ≠ "" ∨ prev = true →
  digits_of prev s = Some s.
Proof.
  revert prev. induction s as [|c s IH]; intros prev; simpl.
  - intros _ [?| ->]; done.
  - intros [Hc Hs]%andb_prop _. rewrite Hc, IH; [done|done|by right].
Qed.

Lemma py_int_digits s :
  all_chars is_digit s = true → s ≠ "" →
  ∃ d, NilEmpty.uint_of_string s = Some d ∧ py_int s = Ok (Z.of_uint d) ∧
       py_int (String "-" s) = Ok (- Z.of_uint d).
Proof.
  intros Hs Hne.
  assert (∃ d, NilEmpty.uint_of_string s = Some d) as [d Hd].
  { clear Hne. induction s as [|c s IH]; simpl; [by eexists|].
    apply andb_prop in Hs as [Hc Hs]. destruct (IH Hs) as [d ->].
    destruct c as [[] [] [] [] [] [] [] []]; try done; by eexists. }
  exists d. split; [done|].
  destruct (code_points_digits s Hs) as [Hl Hback].
  unfold py_int. split.
  - rewrite to_ascii_digits, lstrip_digits, rstrip_digits by done.
    destruct (code_points s) as [|c l] eqn:E; [by destruct s|].
    apply Forall_cons in Hl as [Hc Hl]. unfold digit_point in Hc.
    assert (c ≠ 0x2D%N ∧ c ≠ 0x2B%N) as [H1 H2] by lia.
    assert (match c :: l with
            | 0x2D%N :: b => (true, b)
            | 0x2B%N :: b => (false, b)
            | _ => (false, c :: l)
            end = (false, c :: l)) as ->.
    { destruct c as [|p]; [done|].
      do 8 (destruct p as [p|p|]; try done). }
    rewrite Hback, (digits_of_digits _ false Hs (or_introl Hne)). simpl.
    by rewrite Hd.
  - rewrite (code_points_cons_ascii "-") by done.
    change (code "-") with 0x2D%N.
    assert (Forall (λ c, (c <? 0x80)%N = true) (0x2D%N :: code_points s)) as Hascii.
    { constructor; [done|]. eapply Forall_impl; [exact Hl|].
      unfold digit_point. intros c Hc. apply N.ltb_lt. lia. }
    unfold to_ascii. rewrite (proj2 (forallb_forall _ _)).
    2:{ intros c Hc%list_elem_of_In. rewrite Forall_forall in Hascii. auto. }
    cbn [lstrip]. change (c_isspace 45) with false. cbn iota.
    assert (rstrip c_isspace (0x2D%N :: code_points s) = 0x2D%N :: code_points s)
      as ->.
    { cbn [rstrip]. rewrite rstrip_digits by done.
      by destruct (code_points s). }
    rewrite Hback, (digits_of_digits _ false Hs (or_introl Hne)). simpl.
    by rewrite Hd.
Qed.

Lemma string_of_pos p :
  NilZero.string_of_uint (Pos.to_uint p)
  = NilEmpty.string_of_uint (Pos.to_uint p).
Proof.
  pose proof (Unsigned.to_uint_nonnil p).
  unfold NilZero.string_of_uint. by destruct (Pos.to_uint p).
Qed.

Lemma py_int_str y : py_int (py_str y) = Ok y.
Proof.
  unfold py_str. destruct y as [|p|p]; [done|simpl..];
    rewrite string_of_pos;
    destruct (py_int_digits (NilEmpty.string_of_uint (Pos.to_uint p)))
      as (d & Hd & Hpos & Hneg);
    try apply uint_digits;
    try apply uint_nonempty, Unsigned.to_uint_nonnil;
    rewrite NilEmpty.usu in Hd; injection Hd as <-;
    rewrite ?Hpos, ?Hneg; unfold Z.of_uint; by rewrite Unsigned.of_to.
Qed.

Lemma py_str_nonempty y : py_str y ≠ "".
Proof.
  unfold py_str. destruct y as [|p|p]; [done| |done]. simpl.
  rewrite string_of_pos. apply uint_nonempty, Unsigned.to_uint_nonnil.
Qed.

Lemma py_str_inj y1 y2 : py_str y1 = py_str y2 → y1 = y2.
Proof.
  intros H. pose proof (py_int_str y1) as H1. rewrite H, py_int_str in H1.
  by injection H1.
Qed.

End YearText.

Section Tally.

Context {A : Type} (key : A → string).
Implicit Types (l : list A) (m : gmap string Z).

Let step m (a : A) := tally m (key a).

Lemma total_empty : total ∅ = 0.
Proof. apply map_fold_empty. Qed.

Lemma total_insert_fresh m k c :
  m !! k = None → total (<[k := c]> m) = c + total m.
Proof.
  intros Hk. unfold total.
  rewrite map_fold_insert_L; [done | intros; lia | done].
Qed.

Lemma total_insert m k c :
  total (<[k := c]> m) = c + total m - default 0 (m !! k).
Proof.
  destruct (m !! k) as [c0|] eqn:Hk; simpl.
  - rewrite <- (insert_delete_eq m k c).
    rewrite <- (insert_delete_id m k c0 Hk) at 2.
    rewrite !total_insert_fresh by apply lookup_delete_eq. lia.
  - rewrite total_insert_fresh by done. lia.
Qed.

Lemma total_tally m w : total (tally m w) = total m + 1.
Proof. unfold tally. rewrite total_insert. lia. Qed.

(** The loop invariants, stated for an arbitrary starting map. *)
Lemma foldl_tally_total l m :
  total (foldl step m l) = total m + Z.of_nat (length l).
Proof.
  revert m. induction l as [|a l IH]; intros m; simpl.
  - lia.
  - rewrite IH. unfold step. rewrite total_tally. lia.
Qed.

Lemma tally_positive m w : counts_positive m → counts_positive (tally m w).
Proof.
  intros Hm k c. unfold tally. rewrite lookup_insert.
  case_decide as Hk.
  - intros [= <-]. destruct (m !! w) as [c0|] eqn:E; simpl; [|lia].
    specialize (Hm _ _ E). lia.
  - apply Hm.
Qed.

Lemma foldl_tally_positive l m :
  counts_positive m → counts_positive (foldl step m l).
Proof.
  revert m. induction l as [|a l IH]; intros m Hm; simpl; [done|].
  apply IH, tally_positive, Hm.
Qed.

Lemma foldl_tally_keys l m k :
  is_Some (foldl step m l !! k) →
  is_Some (m !! k) ∨ ∃ a, a ∈ l ∧ key a = k.
Proof.
  revert m. induction l as [|a l IH]; intros m; simpl; [auto|].
  intros H. destruct (IH _ H) as [Hk | (b & Hb & <-)].
  - unfold step, tally in Hk. rewrite lookup_insert in Hk.
    case_decide as E; [|auto].
    right. exists a. split; [left | done].
  - right. exists b. split; [by right | done].
Qed.

Lemma foldl_tally_lookup l m k :
  default 0 (foldl step m l !! k)
  = default 0 (m !! k) + Z.of_nat (length (filter (λ a, key a = k) l)).
Proof.
  revert m. induction l as [|a l IH]; intros m; simpl; [lia|].
  rewrite IH. unfold step, tally. rewrite lookup_insert.
  rewrite filter_cons. case_decide as E; simpl.
  - subst k. destruct (m !! key a); simpl; lia.
  - lia.
Qed.

Lemma foldl_tally_empty_lookup l k :
  foldl step ∅ l !! k =
    match length (filter (λ a, key a = k) l) with
    | O => None
    | S n => Some (Z.of_nat (S n))
    end.
Proof.
  pose proof (foldl_tally_lookup l ∅ k) as Hn.
  rewrite lookup_empty in Hn. simpl in Hn.
  destruct (foldl step ∅ l !! k) as [c|] eqn:Hc; simpl in Hn.
  - assert (1 <= c) as Hpos.
    { eapply (foldl_tally_positive l ∅); [|exact Hc].
      intros k' c'. by rewrite lookup_empty. }
    destruct (length _); [lia | by rewrite Hn].
  - destruct (length _); [done | lia].
Qed.

End Tally.

Section Aggregator.

Implicit Types (papers : list paper) (m : gmap string Z).

Lemma count_years_lookup papers y :
  count_years papers !! y =
    match length (filter (λ p, year p = y) papers) with
    | O => None
    | S n => Some (Z.of_nat (S n))
    end.
Proof. apply (foldl_tally_empty_lookup year). Qed.

Lemma count_years_total papers :
  total (count_years papers) = Z.of_nat (length papers).
Proof.
  unfold count_years. rewrite (foldl_tally_total year), total_empty. lia.
Qed.

Lemma count_years_positive papers : counts_positive (count_years papers).
Proof.
  apply (foldl_tally_positive year). intros k c. by rewrite lookup_empty.
Qed.

Lemma count_years_keys papers k :
  is_Some (count_years papers !! k) → ∃ p, p ∈ papers ∧ year p = k.
Proof.
  intros Hk. apply (foldl_tally_keys year) in Hk as [Hk|Hk]; [|done].
  rewrite lookup_empty in Hk. by destruct Hk.
Qed.

Lemma plot_paper_trend_count_years render papers :
  plot_paper_trend render papers = count_years papers.
Proof.
  unfold plot_paper_trend. destruct papers as [|p papers]; [done|].
  by destruct (render _ _).
Qed.

End Aggregator.

(** C6: the Aggregator groups the records by their [year] field and counts
    the records of each year: a year is a key exactly when some record
    carries it, and its count is the number of such records.  For records
    with years 2021, 2021, 2022 the Year Count Map is exactly
    {2021: 2, 2022: 1}. *)
Theorem aggregator_groups_by_year :
  (∀ render papers y,
     plot_paper_trend render papers !! y =
       match length (filter (λ p, year p = y) papers) with
       | O => None
       | S n => Some (Z.of_nat (S n))
       end) ∧
  (∀ render,
     plot_paper_trend render
       [paper_of_year "2021"; paper_of_year "2021"; paper_of_year "2022"]
     = <["2021" := 2]> (<["2022" := 1]> ∅)).
Proof.
  split.
  - intros. rewrite plot_paper_trend_count_years. apply count_years_lookup.
  - intros render. rewrite plot_paper_trend_count_years.
    apply map_eq. intros k. unfold count_years, count_step; simpl.
    destruct (decide (k = "2021")) as [->|H1]; [by simplify_map_eq|].
    destruct (decide (k = "2022")) as [->|H2]; by simplify_map_eq.
Qed.

(** C8: for every list of records the Year Count Map of the aggregation
    step has counts that sum to the number of records, every count is at
    least 1, and every key is the [year] of some input record. *)
Theorem aggregator_invariants render papers :
  let m := plot_paper_trend render papers in
  total m = Z.of_nat (length papers) ∧
  (∀ k c, m !! k = Some c → 1 ≤ c) ∧
  (∀ k, is_Some (m !! k) → ∃ p, p ∈ papers ∧ year p = k).
Proof.
  simpl. rewrite plot_paper_trend_count_years.
  split; [|split].
  - apply count_years_total.
  - apply count_years_positive.
  - apply count_years_keys.
Qed.

(** C10: for every non-empty list of records the trend-plotting step
    returns the fully computed (non-empty) Year Count Map when the chart
    rendering raises, exactly as when it succeeds: the [except] branch
    returns the same map as the normal path. *)
Theorem plot_paper_trend_returns_map_on_render_failure papers :
  papers ≠ [] →
  (∀ e, plot_paper_trend (λ _ _, Raise e) papers = count_years papers) ∧
  (∀ render,
     plot_paper_trend render papers
     = plot_paper_trend (λ _ _, Ok ()) papers) ∧
  count_years papers ≠ ∅.
Proof.
  intros Hne. split; [|split].
  - intros e. apply plot_paper_trend_count_years.
  - intros render. by rewrite !plot_paper_trend_count_years.
  - destruct papers as [|p papers]; [done|].
    intros Hempty.
    pose proof (count_years_lookup (p :: papers) (year p)) as Hl.
    rewrite Hempty, lookup_empty, filter_cons in Hl.
    by case_decide.
Qed.

Lemma plot_paper_trend_returns_map_on_render_failure_witness :
  plot_paper_trend (λ _ _, Raise RenderError) [paper_of_year "2021"]
  = count_years [paper_of_year "2021"].
Proof.
  apply (plot_paper_trend_returns_map_on_render_failure
           [paper_of_year "2021"]).
  discriminate.
Defined.

(** ** Fetcher and Extractor *)

Section Extractor.

Lemma append_nonempty_l s1 s2 : s1 ≠ "" → s1 +:+ s2 ≠ "".
Proof. by destruct s1. Qed.

Lemma append_nonempty_r s1 s2 : s2 ≠ "" → s1 +:+ s2 ≠ "".
Proof. destruct s1; simpl; [done|]. discriminate. Qed.

Lemma py_join_nonempty sep l s :
  sep ≠ "" → s ∈ l → s ≠ "" → py_join sep l ≠ "".
Proof.
  intros Hsep Hin Hs. destruct l as [|x [|y l]].
  - by apply elem_of_nil in Hin.
  - apply list_elem_of_singleton in Hin as ->. done.
  - cbn [py_join]. by apply append_nonempty_r, append_nonempty_l.
Qed.

Lemma eqb_empty_false s : negb (String.eqb s "") = true → s ≠ "".
Proof. intros H ->. done. Qed.

Lemma entry_title_nonempty entry :
  has_title entry = true → entry_title entry ≠ "".
Proof.
  unfold has_title, entry_title, visible.
  destruct (find _ _ _ entry); [|done]. apply eqb_empty_false.
Qed.

Lemma entry_author_names_visible entry :
  has_author entry = true →
  ∃ s, s ∈ entry_author_names entry ∧ s ≠ "".
Proof.
  unfold has_author, entry_author_names.
  intros (author_tag & Hin & H)%existsb_exists.
  destruct (find "span" "itemprop" _ author_tag) as [name_tag|] eqn:E;
    [|done].
  exists (py_strip (text name_tag)). split; [|by apply eqb_empty_false].
  apply list_elem_of_omap. exists author_tag.
  split; [by apply list_elem_of_In|]. by rewrite E.
Qed.

Lemma entry_authors_nonempty entry :
  has_author entry = true → entry_authors entry ≠ "".
Proof.
  intros (s & Hin & Hs)%entry_author_names_visible. unfold entry_authors.
  destruct (entry_author_names entry) as [|x l] eqn:E.
  - by apply elem_of_nil in Hin.
  - by apply (py_join_nonempty "; " (x :: l) s).
Qed.

Lemma configured_name_nonempty conf_key conf_config :
  CONFERENCE_CONFIGS !! conf_key = Some conf_config → name conf_config ≠ "".
Proof.
  assert (map_Forall (λ _ c, name c ≠ "") CONFERENCE_CONFIGS) as H.
  { apply (bool_decide_unpack _). by vm_compute. }
  apply H.
Qed.

Lemma well_formed_record conf_key conf_config yr entry :
  CONFERENCE_CONFIGS !! conf_key = Some conf_config →
  well_formed entry →
  let p := paper_of_entry conf_config yr entry in
  title p ≠ "" ∧ authors p ≠ "" ∧ year p ≠ "" ∧ conference p ≠ "".
Proof.
  intros Hc [Ht Ha]%andb_prop. simpl. split_and!.
  - by apply entry_title_nonempty.
  - by apply entry_authors_nonempty.
  - apply py_str_nonempty.
  - by apply (configured_name_nonempty conf_key).
Qed.

Lemma get_paper_info_page w conf_key conf_config yr resp soup :
  CONFERENCE_CONFIGS !! conf_key = Some conf_config →
  requests_get w (format_year (url_pattern conf_config) yr) = Ok resp →
  raise_for_status resp = Ok () →
  BeautifulSoup w (resp_text resp) = Ok soup →
  get_paper_info w conf_key yr
  = Ok (map (paper_of_entry conf_config yr) (find_entries soup)).
Proof.
  intros Hc Hget Hst Hsoup. unfold get_paper_info, fetch_and_extract.
  rewrite Hc, Hget. cbn [mbind result_bind]. rewrite Hst.
  cbn [mbind result_bind]. rewrite Hsoup. cbn [mbind result_bind].
  by destruct (find_entries soup).
Qed.

Lemma get_paper_info_failure w conf_key conf_config yr e :
  CONFERENCE_CONFIGS !! conf_key = Some conf_config →
  fetch_and_extract w conf_config
    (format_year (url_pattern conf_config) yr) yr = Raise e →
  get_paper_info w conf_key yr = Ok [].
Proof. intros Hc He. unfold get_paper_info. by rewrite Hc, He. Qed.

Lemma raise_for_status_error resp :
  400 <= status_code resp < 600 → raise_for_status resp = Raise HTTPError.
Proof.
  intros [H1 H2]. unfold raise_for_status.
  destruct (Z.leb_spec 400 (status_code resp)); [|lia].
  destruct (Z.ltb_spec (status_code resp) 600); [done|lia].
Qed.

(** Anchors and their [href]. *)
Lemma tag_matches_href crit n :
  tag_matches "a" "href" crit n = true ↔
  ∃ attrs children h,
    n = Tag "a" attrs children ∧ attrs !! "href" = Some h ∧ crit h = true.
Proof.
  destruct n as [t|t attrs children]; simpl.
  - split; [done|]. by intros (? & ? & ? & ? & _).
  - unfold attr_matches. change (String.eqb "href" "class") with false.
    split.
    + intros [Ht Ha]%andb_prop. apply String.eqb_eq in Ht as ->.
      destruct (attrs !! "href") as [h|] eqn:E; [|done].
      by exists attrs, children, h.
    + intros (attrs' & children' & h & [= -> -> ->] & -> & Hh).
      by rewrite String.eqb_refl.
Qed.

Lemma elem_of_link_candidates crit entry h :
  h ∈ link_candidates crit entry ↔
  ∃ attrs children,
    Tag "a" attrs children ∈ descendants entry
    ∧ attrs !! "href" = Some h ∧ crit h = true.
Proof.
  unfold link_candidates, find_all.
  rewrite list_elem_of_In, in_map_iff. split.
  - intros (n & <- & [Hin Hm]%filter_In).
    apply tag_matches_href in Hm as (attrs & children & h & -> & Hh & Hc).
    exists attrs, children. rewrite list_elem_of_In. simpl. by rewrite Hh.
  - intros (attrs & children & Hin%list_elem_of_In & Hh & Hc).
    exists (Tag "a" attrs children). simpl. rewrite Hh. split; [done|].
    apply filter_In. split; [done|]. apply tag_matches_href.
    by exists attrs, children, h.
Qed.

Lemma find_link_candidates crit entry :
  get_attr "href" <$> find "a" "href" crit entry
  = head (link_candidates crit entry).
Proof.
  unfold find, link_candidates. by destruct (find_all _ _ _ _).
Qed.

Lemma entry_link_candidates entry :
  entry_link entry =
    match link_candidates is_doi entry with
    | doi :: _ => doi
    | [] => match link_candidates is_rec entry with
            | rec :: _ => rec
            | [] => ""
            end
    end.
Proof.
  unfold entry_link.
  pose proof (find_link_candidates is_doi entry) as Hd.
  pose proof (find_link_candidates is_rec entry) as Hr.
  destruct (find "a" "href" is_doi entry);
    destruct (link_candidates is_doi entry); try done.
  - by injection Hd.
  - destruct (find "a" "href" is_rec entry);
      destruct (link_candidates is_rec entry); try done.
    by injection Hr.
Qed.

Lemma is_doi_contains h : is_doi h = py_contains "doi.org" h.
Proof. by destruct h. Qed.

Lemma is_rec_contains h : is_rec h = py_contains "dblp.org/rec/" h.
Proof. by destruct h. Qed.

End Extractor.

(** C3: when every paper entry of a fetched page is well formed, the
    Extractor returns exactly one Paper Record per entry, in page order,
    and every record has a non-empty title, authors, year and conference
    field. *)
Theorem extractor_one_record_per_entry
    (w : world) (conf_key : string) (conf_config : conf_config) (yr : Z)
    (resp : response) (soup : node) :
  CONFERENCE_CONFIGS !! conf_key = Some conf_config →
  requests_get w (format_year (url_pattern conf_config) yr) = Ok resp →
  raise_for_status resp = Ok () →
  BeautifulSoup w (resp_text resp) = Ok soup →
  Forall well_formed (find_entries soup) →
  ∃ papers,
    get_paper_info w conf_key yr = Ok papers ∧
    length papers = length (find_entries soup) ∧
    papers = map (paper_of_entry conf_config yr) (find_entries soup) ∧
    Forall (λ p, title p ≠ "" ∧ authors p ≠ "" ∧ year p ≠ ""
                 ∧ conference p ≠ "") papers.
Proof.
  intros Hc Hget Hst Hsoup Hwf.
  exists (map (paper_of_entry conf_config yr) (find_entries soup)).
  split_and!;
    [by apply (get_paper_info_page _ _ _ _ resp)|by rewrite length_map|done|].
  apply Forall_forall. intros p.
  rewrite list_elem_of_In, in_map_iff.
  intros (entry & <- & Hin%list_elem_of_In).
  rewrite Forall_forall in Hwf.
  by apply (well_formed_record conf_key), Hwf.
Qed.

Lemma extractor_one_record_per_entry_witness :
  ∃ papers,
    get_paper_info sample_world "aaai" 2021 = Ok papers ∧
    length papers = 2%nat.
Proof.
  destruct (extractor_one_record_per_entry sample_world "aaai"
              (ConfConfig "AAAI"
                 "https://dblp.org/db/conf/aaai/aaai{year}.html" 2020 2025)
              2021 (Response 200 "<html>") sample_page)
    as (papers & H1 & H2 & _).
  - by vm_compute.
  - reflexivity.
  - reflexivity.
  - reflexivity.
  - repeat constructor.
  - exists papers. split; [done|]. rewrite H2. by vm_compute.
Defined.

(** C4: the link of a record is the first DOI-style link of the entry when
    the entry has one, whether or not it also has a registry-style link;
    otherwise the first registry-record link when it has one; otherwise
    the empty string. *)
Theorem link_selection :
  (∀ crit entry h,
     h ∈ link_candidates crit entry ↔
     ∃ attrs children,
       Tag "a" attrs children ∈ descendants entry
       ∧ attrs !! "href" = Some h ∧ crit h = true) ∧
  (∀ h, is_doi h = py_contains "doi.org" h) ∧
  (∀ h, is_rec h = py_contains "dblp.org/rec/" h) ∧
  (∀ entry doi rest,
     link_candidates is_doi entry = doi :: rest → entry_link entry = doi) ∧
  (∀ entry rec rest,
     link_candidates is_doi entry = [] →
     link_candidates is_rec entry = rec :: rest → entry_link entry = rec) ∧
  (∀ entry,
     link_candidates is_doi entry = [] →
     link_candidates is_rec entry = [] → entry_link entry = "") ∧
  (∀ conf_config yr entry,
     link (paper_of_entry conf_config yr entry) = entry_link entry) ∧
  (entry_link (sample_entry [anchor "https://dblp.org/rec/conf/x/1";
                             anchor "https://doi.org/10.1/x"])
   = "https://doi.org/10.1/x" ∧
   entry_link (sample_entry [anchor "https://dblp.org/rec/conf/x/1"])
   = "https://dblp.org/rec/conf/x/1" ∧
   entry_link (sample_entry [anchor "https://example.org/x"]) = "").
Proof.
  split_and!.
  - intros. apply elem_of_link_candidates.
  - apply is_doi_contains.
  - apply is_rec_contains.
  - intros entry doi rest H. by rewrite entry_link_candidates, H.
  - intros entry rec rest H1 H2. by rewrite entry_link_candidates, H1, H2.
  - intros entry H1 H2. by rewrite entry_link_candidates, H1, H2.
  - done.
  - vm_compute. reflexivity.
  - vm_compute. reflexivity.
  - vm_compute. reflexivity.
Qed.

(** C7: for a configured conference and any year, whenever the fetch
    raises (the request fails, the status is not a success, or the parser
    cannot be set up) the Fetcher returns the empty sequence, which is
    also what it returns for a page without paper entries. *)
Theorem fetcher_failure_returns_empty
    (w : world) (conf_key : string) (conf_config : conf_config) (yr : Z) :
  CONFERENCE_CONFIGS !! conf_key = Some conf_config →
  let url := format_year (url_pattern conf_config) yr in
  (∀ e, fetch_and_extract w conf_config url yr = Raise e →
        get_paper_info w conf_key yr = Ok []) ∧
  (∀ e, requests_get w url = Raise e →
        get_paper_info w conf_key yr = Ok []) ∧
  (∀ resp, requests_get w url = Ok resp →
           400 <= status_code resp < 600 →
           get_paper_info w conf_key yr = Ok []) ∧
  (∀ resp e, requests_get w url = Ok resp →
             raise_for_status resp = Ok () →
             BeautifulSoup w (resp_text resp) = Raise e →
             get_paper_info w conf_key yr = Ok []) ∧
  (∀ resp soup, requests_get w url = Ok resp →
                raise_for_status resp = Ok () →
                BeautifulSoup w (resp_text resp) = Ok soup →
                find_entries soup = [] →
                get_paper_info w conf_key yr = Ok []).
Proof.
  intros Hc url. split_and!.
  - intros e. by apply get_paper_info_failure.
  - intros e He. apply (get_paper_info_failure _ _ conf_config _ e); [done|].
    unfold fetch_and_extract. fold url. by rewrite He.
  - intros resp Hget Hst.
    apply (get_paper_info_failure _ _ conf_config _ HTTPError); [done|].
    unfold fetch_and_extract. fold url. rewrite Hget.
    cbn [mbind result_bind]. by rewrite raise_for_status_error.
  - intros resp e Hget Hst Hsoup.
    apply (get_paper_info_failure _ _ conf_config _ e); [done|].
    unfold fetch_and_extract. fold url. rewrite Hget.
    cbn [mbind result_bind]. rewrite Hst. cbn [mbind result_bind].
    by rewrite Hsoup.
  - intros resp soup Hget Hst Hsoup Hnone.
    rewrite (get_paper_info_page _ _ conf_config _ resp soup) by done.
    by rewrite Hnone.
Qed.

Lemma fetcher_failure_returns_empty_witness :
  get_paper_info offline_world "cvpr" 2022 = Ok [].
Proof.
  destruct (fetcher_failure_returns_empty offline_world "cvpr"
              (ConfConfig "CVPR"
                 "https://dblp.org/db/conf/cvpr/cvpr{year}.html" 2020 2024)
              2022) as (_ & H & _).
  - by vm_compute.
  - by apply (H RequestException).
Defined.

(** ** Keyword Analyzer *)

Section Keywords.

Lemma Counter_lookup words w :
  Counter words !! w =
    match length (filter (λ x, x = w) words) with
    | O => None
    | S n => Some (Z.of_nat (S n))
    end.
Proof. apply (foldl_tally_empty_lookup id). Qed.

Lemma filter_keep_word_count words w :
  length (filter (λ x, x = w) (filter keep_word words))
  = if decide (keep_word w)
    then length (filter (λ x, x = w) words) else O.
Proof.
  induction words as [|x words IH]; [by case_decide|].
  rewrite !filter_cons.
  destruct (decide (keep_word x)) as [Hx|Hx].
  - rewrite filter_cons. destruct (decide (x = w)) as [->|Hxw].
    + simpl. rewrite IH. by case_decide.
    + done.
  - rewrite IH. destruct (decide (x = w)) as [->|Hxw]; [|done].
    by case_decide.
Qed.

(** What [re.sub] leaves is a word character or white space. *)
Lemma sub_char_clean c :
  let c' := if py_isword c || py_isspace c then c else 0x20%N in
  py_isword c' || py_isspace c' = true.
Proof. simpl. by destruct (py_isword c || py_isspace c) eqn:E. Qed.

(** The substitution acts on the characters one by one. *)
Lemma code_points_sub s :
  code_points (sub_nonword_nonspace s)
  = map (λ c, if py_isword c || py_isspace c then c else 0x20%N)
        (code_points s).
Proof.
  unfold sub_nonword_nonspace. apply code_points_of_code_points.
  apply Forall_fmap. eapply Forall_impl; [apply code_points_scalar|].
  intros c Hc. simpl. by destruct (_ || _).
Qed.

(** Lowercasing acts on the characters. *)
Lemma lower_full_scalar c :
  scalar c = true → Forall (λ d, scalar d = true) (lower_full c).
Proof.
  intros Hc. unfold lower_full.
  destruct (c =? 304)%N; [by repeat constructor|].
  destruct (List.find _ _) as [[[[lo hi] stride] target]|] eqn:E;
    [|by repeat constructor].
  apply find_some in E as [Hin Hc'].
  apply andb_prop in Hc' as [[H1 H2]%between_spec _].
  assert (forallb (λ '(lo, hi, _, target),
                     (lo <=? hi)%N && scalar target
                     && scalar (target + (hi - lo))
                     && ((0xDFFF <? target) || (target + (hi - lo) <? 0xD800))%N)
                  Unicode.LOWER = true) as Hall by (by vm_compute).
  rewrite forallb_forall in Hall. specialize (Hall _ Hin). simpl in Hall.
  apply andb_prop in Hall as [[[_ Ht]%andb_prop Hu]%andb_prop Hv].
  apply scalar_spec in Ht, Hu. repeat constructor. apply scalar_spec.
  apply orb_prop in Hv as [Hv%N.ltb_lt|Hv%N.ltb_lt]; lia.
Qed.

Lemma lower_points_scalar before l :
  Forall (λ c, scalar c = true) l →
  Forall (λ c, scalar c = true) (lower_points before l).
Proof.
  intros H. revert before.
  induction H as [|c l Hc _ IH]; intros before; [constructor|].
  cbn [lower_points]. apply Forall_app. split; [|apply IH].
  destruct (c =? 931)%N; [|by apply lower_full_scalar].
  unfold lower_sigma. by destruct (_ && _); repeat constructor.
Qed.

Lemma code_points_lower s :
  code_points (py_lower s) = lower_points [] (code_points s).
Proof.
  unfold py_lower. apply code_points_of_code_points.
  apply lower_points_scalar, code_points_scalar.
Qed.

(** The lower-case forms are not changed by lowercasing them again. *)
Lemma lower_full_fixed c : Forall (λ d, lower_fixed d = true) (lower_full c).
Proof.
  unfold lower_full at 1.
  destruct (c =? 304)%N eqn:E304; [by repeat constructor|].
  destruct (List.find _ _) as [[[[lo hi] stride] target]|] eqn:E.
  - apply find_some in E as [Hin Hc].
    apply andb_prop in Hc as [[H1 H2]%between_spec Hm%N.eqb_eq].
    assert (forallb (λ '(lo, hi, stride, target),
                       (0 <? stride)%N &&
                       forallb (λ k, lower_fixed (target + N.of_nat k * stride))
                               (seq 0 (S (N.to_nat ((hi - lo) / stride)))))
                    Unicode.LOWER = true) as Hall by (by vm_compute).
    rewrite forallb_forall in Hall. specialize (Hall _ Hin).
    cbv beta iota in Hall.
    apply andb_prop in Hall as [Hs%N.ltb_lt Hall].
    rewrite forallb_forall in Hall.
    repeat constructor.
    replace (target + (c - lo))%N
      with (target + N.of_nat (N.to_nat ((c - lo) / stride)) * stride)%N.
    + apply Hall, in_seq.
      assert ((c - lo) / stride <= (hi - lo) / stride)%N as Hq
        by (apply N.Div0.div_le_mono; lia).
      revert Hq. generalize ((c - lo) / stride)%N ((hi - lo) / stride)%N.
      lia.
    + rewrite N2Nat.id. f_equal.
      rewrite (N.Div0.div_mod (c - lo) stride) at 2. lia.
  - repeat constructor. unfold lower_fixed, lower_full. rewrite E304, E.
    rewrite N.eqb_refl, andb_true_r. apply negb_true_iff, N.eqb_neq.
    intros ->. by vm_compute in E.
Qed.

Lemma lower_points_fixed before l :
  Forall (λ d, lower_fixed d = true) (lower_points before l).
Proof.
  revert before. induction l as [|c l IH]; intros before; [constructor|].
  cbn [lower_points]. apply Forall_app. split; [|apply IH].
  destruct (c =? 931)%N; [|apply lower_full_fixed].
  unfold lower_sigma. by destruct (_ && _); repeat constructor.
Qed.

Lemma lower_points_id before l :
  Forall (λ c, lower_fixed c = true) l → lower_points before l = l.
Proof.
  intros H. revert before.
  induction H as [|c l Hc _ IH]; intros before; [done|].
  cbn [lower_points]. rewrite IH. unfold lower_fixed in Hc.
  apply andb_prop in Hc as [Hs%negb_true_iff Hc]. rewrite Hs.
  destruct (lower_full c) as [|d [|]]; [done| |done].
  by apply N.eqb_eq in Hc as ->.
Qed.

(** The tokens of [split] are non-empty and made of the non-whitespace
    characters of the text. *)
Lemma split_points_tokens (P : N → bool) l :
  Forall (λ c, P c || py_isspace c = true) l →
  Forall (λ w, w ≠ [] ∧ Forall (λ c, P c = true) w) (split_points l).
Proof.
  induction 1 as [|c l Hc Hl IH]; cbn [split_points]; [constructor|].
  destruct (py_isspace c) eqn:Ec; [done|].
  rewrite orb_false_r in Hc.
  destruct l as [|c' l']; [by repeat constructor|].
  destruct (py_isspace c') eqn:Ec'.
  - constructor; [by repeat constructor|done].
  - destruct (split_points (c' :: l')) as [|w ws].
    + by repeat constructor.
    + apply Forall_cons in IH as [[_ Hw] Hws].
      constructor; [|done]. split; [done|]. by constructor.
Qed.

(** Every token of the titles is a non-empty run of word characters in
    lower case. *)
Lemma title_words_tokens papers :
  Forall (λ w, w ≠ "" ∧ Forall (λ c, py_isword c = true) (code_points w)
               ∧ py_lower w = w)
         (title_words papers).
Proof.
  unfold title_words, py_split. rewrite code_points_sub, code_points_lower.
  apply Forall_fmap.
  eapply Forall_impl;
    [apply (split_points_tokens
              (λ c, py_isword c && scalar c && lower_fixed c))|].
  - apply Forall_fmap.
    pose proof (lower_points_scalar [] _
                  (code_points_scalar (py_join " " (map title papers)))) as Hs.
    pose proof (lower_points_fixed []
                  (code_points (py_join " " (map title papers)))) as Hf.
    revert Hs Hf. generalize (lower_points [] (code_points (py_join " " (map title papers)))).
    intros l Hs Hf. induction l as [|c l IH]; [constructor|].
    apply Forall_cons in Hs as [Hc Hs]. apply Forall_cons in Hf as [Hc' Hf].
    constructor; [|by apply IH]. simpl.
    destruct (py_isword c || py_isspace c) eqn:E; [|done].
    rewrite Hc, Hc', !andb_true_r. done.
  - intros w [Hne Hw]. simpl.
    assert (code_points (of_code_points w) = w) as Hback.
    { apply code_points_of_code_points.
      eapply Forall_impl; [exact Hw|].
      by intros c [[_ ?]%andb_prop _]%andb_prop. }
    split_and!.
    + by intros ?%of_code_points_nil_inv.
    + rewrite Hback.
      eapply Forall_impl; [exact Hw|].
      by intros c [[? _]%andb_prop _]%andb_prop.
    + unfold py_lower. rewrite Hback, lower_points_id; [done|].
      eapply Forall_impl; [exact Hw|]. by intros c [_ ?]%andb_prop.
Qed.

Lemma extract_keywords_Counter papers :
  extract_keywords papers = Counter (filter keep_word (title_words papers)).
Proof. by destruct papers. Qed.

End Keywords.

(** C5: the Keyword Analyzer lowercases the joined titles, replaces every
    character that is neither a word character nor white space by a
    space, splits on white space, and counts exactly the tokens that are
    not stop-words and are longer than 2 characters.  The substitution is
    by character: the cleaned text has the characters of the lowercased
    text, with a space for each that is neither.  So no key is a
    stop-word or has length at most 2, every key is made of word
    characters and is in lower case, and for the titles
    "Deep Learning for X" and "deep learning FOR Y" both "deep" and
    "learning" have frequency 2.  Titles in any script are covered: the
    title that the Extractor gives an entry without a title is one word of
    four characters, and it is counted. *)
Theorem keyword_analyzer_counts :
  (∀ papers,
     title_words papers
     = py_split (sub_nonword_nonspace
                   (py_lower (py_join " " (map title papers))))) ∧
  (∀ s,
     code_points (sub_nonword_nonspace s)
     = map (λ c, if py_isword c || py_isspace c then c else 0x20%N)
           (code_points s)) ∧
  (∀ papers w,
     extract_keywords papers !! w =
       if decide ((w ∉ STOP_WORDS) ∧ (2 < py_len w))
       then match length (filter (λ x, x = w) (title_words papers)) with
            | O => None
            | S n => Some (Z.of_nat (S n))
            end
       else None) ∧
  (∀ papers w,
     is_Some (extract_keywords papers !! w) →
     (w ∉ STOP_WORDS) ∧ (2 < py_len w) ∧
     Forall (λ c, py_isword c = true) (code_points w) ∧ py_lower w = w) ∧
  (let papers := [titled "Deep Learning for X"; titled "deep learning FOR Y"] in
   ("for" ∈ STOP_WORDS) ∧
   title_words papers
   = ["deep"; "learning"; "for"; "x"; "deep"; "learning"; "for"; "y"] ∧
   extract_keywords papers !! "deep" = Some 2 ∧
   extract_keywords papers !! "learning" = Some 2 ∧
   extract_keywords papers = <["deep" := 2]> (<["learning" := 2]> ∅)) ∧
  (py_len UNKNOWN_TITLE = 4 ∧
   extract_keywords [titled UNKNOWN_TITLE] = {[UNKNOWN_TITLE := 1]} ∧
   extract_keywords [titled "Déjà-vu: ΟΔΟΣ, 深度学习 für Bäume"]
   = list_to_map [("déjà", 1); ("οδος", 1); ("深度学习", 1); ("für", 1);
                  ("bäume", 1)]).
Proof.
  assert (∀ papers w,
     extract_keywords papers !! w =
       if decide (keep_word w)
       then match length (filter (λ x, x = w) (title_words papers)) with
            | O => None
            | S n => Some (Z.of_nat (S n))
            end
       else None) as Hlookup.
  { intros papers w.
    rewrite extract_keywords_Counter, Counter_lookup, filter_keep_word_count.
    by case_decide. }
  split; [done|]. split; [apply code_points_sub|].
  split; [exact Hlookup|]. split; [|split].
  - intros papers w [c Hc]. rewrite Hlookup in Hc.
    case_decide as Hk; [|done]. destruct Hk as [H1 H2].
    split; [done|]. split; [done|].
    destruct (length _) eqn:Hlen; [done|].
    assert (w ∈ title_words papers) as Hin.
    { assert (w ∈ filter (λ x, x = w) (title_words papers)) as Hw.
      { destruct (filter _ _) as [|x l] eqn:E; [done|].
        assert (x ∈ filter (λ x, x = w) (title_words papers)) as Hx
          by (rewrite E; left).
        apply list_elem_of_filter in Hx as [-> _]. left. }
      by apply list_elem_of_filter in Hw as [_ ?]. }
    pose proof (title_words_tokens papers) as Htok.
    rewrite Forall_forall in Htok. by apply Htok.
  - split_and!.
    + apply (bool_decide_unpack _). by vm_compute.
    + vm_compute. reflexivity.
    + vm_compute. reflexivity.
    + vm_compute. reflexivity.
    + vm_compute. reflexivity.
  - split_and!.
    + vm_compute. reflexivity.
    + vm_compute. reflexivity.
    + vm_compute. reflexivity.
Qed.

(** ** Rounding to binary64 *)

Section FloatTheory.
Import Float.
Local Open Scope Q_scope.

Lemma pow2_Qpower e : pow2 e == 2 ^ e.
Proof.
  unfold pow2. destruct (Z.leb_spec 0 e) as [He|He].
  - by rewrite Zpower_Qpower.
  - rewrite Zpower_Qpower by lia. rewrite <- Qpower_opp.
    by rewrite Z.opp_involutive.
Qed.

Lemma pow2_pos e : 0 < pow2 e.
Proof. rewrite pow2_Qpower. by apply Qpower_0_lt. Qed.

Lemma pow2_add a b : pow2 (a + b) == pow2 a * pow2 b.
Proof. rewrite !pow2_Qpower. by apply Qpower_plus. Qed.

Lemma pow2_nonneg_Z e : (0 <= e)%Z → pow2 e = inject_Z (2 ^ e).
Proof. intros He. unfold pow2. by destruct (Z.leb_spec 0 e); [|lia]. Qed.

Lemma pow2_le a b : (a <= b)%Z → pow2 a <= pow2 b.
Proof.
  intros Hab. replace b with (a + (b - a))%Z by lia.
  rewrite pow2_add, (pow2_nonneg_Z (b - a)) by lia.
  assert (1 <= inject_Z (2 ^ (b - a))) as H1.
  { change 1 with (inject_Z 1). rewrite <- Zle_Qle.
    pose proof (Z.pow_pos_nonneg 2 (b - a)). lia. }
  pose proof (pow2_pos a). nra.
Qed.

Lemma pow2_lt_inv a b : pow2 a < pow2 b → (a < b)%Z.
Proof.
  intros Hlt. destruct (Z.lt_ge_cases a b) as [|Hge]; [done|].
  apply pow2_le in Hge. lra.
Qed.


Lemma inject_Z_pos z : (0 < z)%Z → 0 < inject_Z z.
Proof. intros Hz. unfold Qlt; simpl; lia. Qed.

Lemma floor_log2_le q : 0 < q → pow2 (floor_log2 q) <= q.
Proof.
  intros Hq. unfold floor_log2.
  set (k := (Z.log2 (Qnum q) - Z.log2 (Z.pos (Qden q)))%Z).
  destruct (Qle_bool (pow2 k) q) eqn:E; [by apply Qle_bool_iff|].
  destruct q as [n d]. cbn [Qnum Qden] in k.
  assert (0 < n)%Z as Hn by (unfold Qlt in Hq; simpl in Hq; lia).
  destruct (Z.log2_spec n Hn) as [Hn1 _].
  destruct (Z.log2_spec (Z.pos d) (Pos2Z.is_pos d)) as [_ Hd2].
  rewrite (Qmake_Qdiv n d).
  apply Qle_shift_div_l; [by apply inject_Z_pos|].
  assert (pow2 (k - 1) * pow2 (Z.succ (Z.log2 (Z.pos d)))
          == pow2 (Z.log2 n)) as Hk.
  { rewrite <- pow2_add. subst k. pow2_eq. }
  rewrite (pow2_nonneg_Z (Z.log2 n)) in Hk by apply Z.log2_nonneg.
  rewrite (pow2_nonneg_Z (Z.succ _)) in Hk
    by (pose proof (Z.log2_nonneg (Z.pos d)); lia).
  pose proof (pow2_pos (k - 1)) as Hp.
  rewrite Zle_Qle in Hn1. rewrite Zlt_Qlt in Hd2. nra.
Qed.

Lemma floor_log2_lt q : 0 < q → q < pow2 (floor_log2 q + 1).
Proof.
  intros Hq. unfold floor_log2.
  set (k := (Z.log2 (Qnum q) - Z.log2 (Z.pos (Qden q)))%Z).
  destruct (Qle_bool (pow2 k) q) eqn:E.
  - destruct q as [n d]. cbn [Qnum Qden] in k.
    assert (0 < n)%Z as Hn by (unfold Qlt in Hq; simpl in Hq; lia).
    destruct (Z.log2_spec n Hn) as [_ Hn2].
    destruct (Z.log2_spec (Z.pos d) (Pos2Z.is_pos d)) as [Hd1 _].
    rewrite (Qmake_Qdiv n d).
    apply Qlt_shift_div_r; [by apply inject_Z_pos|].
    assert (pow2 (k + 1) * pow2 (Z.log2 (Z.pos d))
            == pow2 (Z.succ (Z.log2 n))) as Hk.
    { rewrite <- pow2_add. subst k. pow2_eq. }
    rewrite (pow2_nonneg_Z (Z.log2 (Z.pos d))) in Hk by apply Z.log2_nonneg.
    rewrite (pow2_nonneg_Z (Z.succ _)) in Hk
      by (pose proof (Z.log2_nonneg n); lia).
    pose proof (pow2_pos (k + 1)) as Hp.
    rewrite Zlt_Qlt in Hn2. rewrite Zle_Qle in Hd1. nra.
  - replace (k - 1 + 1)%Z with k by lia.
    apply Qnot_le_lt. intros Hle. apply Qle_bool_iff in Hle. congruence.
Qed.

Lemma round_half_even_le x J :
  x <= inject_Z J → (round_half_even x <= J)%Z.
Proof.
  intros Hx. unfold round_half_even.
  pose proof (Qfloor_le x) as Hf. pose proof (Qlt_floor x) as Hf'.
  assert (Qfloor x <= J)%Z as HfJ by (rewrite Zle_Qle; lra).
  destruct (Qcompare_spec (x - inject_Z (Qfloor x)) (1 # 2)) as [H|H|H];
    [destruct (Z.even _)| |]; try lia;
    (assert (Qfloor x ≠ J) by (intros Heq; rewrite Heq in *; lra); lia).
Qed.

Lemma round_half_even_ge x J :
  inject_Z J <= x → (J <= round_half_even x)%Z.
Proof.
  intros Hx. unfold round_half_even.
  assert (J <= Qfloor x)%Z as HfJ.
  { rewrite <- (Qfloor_Z J). by apply Qfloor_resp_le. }
  destruct (_ ?= _); [destruct (Z.even _)| |]; lia.
Qed.

Lemma grid_rescale j eb e :
  (e <= eb)%Z →
  inject_Z j * pow2 eb == inject_Z (j * 2 ^ (eb - e)) * pow2 e.
Proof.
  intros He. replace eb with ((eb - e) + e)%Z at 1 by lia.
  rewrite pow2_add, (pow2_nonneg_Z (eb - e)) by lia.
  rewrite inject_Z_mult. ring.
Qed.

Lemma round_core_le q j eb :
  (ulp_exp q <= eb)%Z →
  q <= inject_Z j * pow2 eb → round_core q <= inject_Z j * pow2 eb.
Proof.
  intros He Hq. unfold round_core. rewrite Qred_correct.
  rewrite (grid_rescale j eb _ He) in Hq |- *.
  pose proof (pow2_pos (ulp_exp q)) as Hp.
  apply Qmult_le_compat_r; [|lra].
  rewrite <- Zle_Qle. apply round_half_even_le.
  apply Qle_shift_div_r; [done|lra].
Qed.

Lemma round_core_ge q j eb :
  (ulp_exp q <= eb)%Z →
  inject_Z j * pow2 eb <= q → inject_Z j * pow2 eb <= round_core q.
Proof.
  intros He Hq. unfold round_core. rewrite Qred_correct.
  rewrite (grid_rescale j eb _ He) in Hq |- *.
  pose proof (pow2_pos (ulp_exp q)) as Hp.
  apply Qmult_le_compat_r; [|lra].
  rewrite <- Zle_Qle. apply round_half_even_ge.
  apply Qle_shift_div_l; [done|lra].
Qed.

Lemma round_core_nonneg q : 0 <= q → 0 <= round_core q.
Proof.
  intros Hq. unfold round_core. rewrite Qred_correct.
  pose proof (pow2_pos (ulp_exp q)) as Hp.
  apply Qmult_le_0_compat; [|lra].
  change 0 with (inject_Z 0). rewrite <- Zle_Qle.
  apply round_half_even_ge. apply Qle_shift_div_l; [done|].
  change (inject_Z 0) with 0. lra.
Qed.

Lemma round_core_nonpos q : q <= 0 → round_core q <= 0.
Proof.
  intros Hq. unfold round_core. rewrite Qred_correct.
  pose proof (pow2_pos (ulp_exp q)) as Hp.
  assert (inject_Z (round_half_even (q / pow2 (ulp_exp q))) <= 0) as Hr.
  { change 0 with (inject_Z 0). rewrite <- Zle_Qle.
    apply round_half_even_le. apply Qle_shift_div_r; [done|].
    change (inject_Z 0) with 0. lra. }
  nra.
Qed.

Lemma ulp_exp_le q eb :
  (-1074 <= eb)%Z → 0 < Qabs q → Qabs q < pow2 (eb + 53) →
  (ulp_exp q <= eb)%Z.
Proof.
  intros Heb Hq0 Hq. unfold ulp_exp.
  pose proof (floor_log2_le _ Hq0) as Hl.
  assert (floor_log2 (Qabs q) < eb + 53)%Z by (apply pow2_lt_inv; lra).
  lia.
Qed.


Lemma Qabs_inject_Z j : Qabs (inject_Z j) == inject_Z (Z.abs j).
Proof. unfold inject_Z. by rewrite <- Zabs_Qabs. Qed.

Lemma Qabs_nonzero q : ¬ q == 0 → 0 < Qabs q.
Proof.
  intros Hq. destruct (Qlt_le_dec 0 q) as [Hpos|Hle].
  - rewrite Qabs_pos; lra.
  - rewrite Qabs_neg by done.
    destruct (Qlt_le_dec q 0); [lra|]. exfalso. apply Hq. lra.
Qed.

Lemma on_grid_inject_Z z : (Z.abs z < 2 ^ 53)%Z → on_grid (inject_Z z).
Proof. intros Hz. exists z, 0%Z. split_and!; [done|lia|]. change (pow2 0) with 1. ring. Qed.

Lemma on_grid_pow2 k : (-1074 <= k)%Z → on_grid (pow2 k).
Proof. intros Hk. exists 1%Z, k. split_and!; [done..|]. ring. Qed.

Lemma on_grid_opp b : on_grid b → on_grid (- b).
Proof.
  intros (j & eb & Hj & Heb & Hb). exists (- j)%Z, eb.
  split_and!; [lia|done|]. rewrite Hb, inject_Z_opp. ring.
Qed.

Lemma on_grid_scaled j eb :
  (Z.abs j < 2 ^ 53)%Z → (-1074 <= eb)%Z → on_grid (inject_Z j * pow2 eb).
Proof. intros. by exists j, eb. Qed.

Lemma round_core_grid q b :
  on_grid b → ¬ q == 0 → Qabs q <= Qabs b →
  (q <= b → round_core q <= b) ∧ (b <= q → b <= round_core q).
Proof.
  intros (j & eb & Hj & Heb & Hb) Hq0 Hqb.
  assert (ulp_exp q <= eb)%Z as He.
  { apply ulp_exp_le; [done| |].
    - by apply Qabs_nonzero.
    - eapply Qle_lt_trans; [exact Hqb|].
      rewrite Hb, Qabs_Qmult, Qabs_inject_Z.
      rewrite (Qabs_pos (pow2 eb)) by (pose proof (pow2_pos eb); lra).
      replace (eb + 53)%Z with (53 + eb)%Z by lia.
      rewrite pow2_add. apply Qmult_lt_compat_r; [apply pow2_pos|].
      rewrite (pow2_nonneg_Z 53) by lia. by rewrite <- Zlt_Qlt. }
  split; intros H; rewrite Hb in H |- *.
  - by apply round_core_le.
  - by apply round_core_ge.
Qed.

Lemma round_core_upper q b :
  on_grid b → 0 <= b → q <= b → round_core q <= b.
Proof.
  intros Hg Hb Hq. destruct (Qlt_le_dec 0 q) as [Hpos|Hneg].
  - apply round_core_grid; [done|lra| |done].
    rewrite !Qabs_pos by lra. done.
  - pose proof (round_core_nonpos q Hneg). lra.
Qed.

Lemma round_core_lower q b :
  on_grid b → b <= 0 → b <= q → b <= round_core q.
Proof.
  intros Hg Hb Hq. destruct (Qlt_le_dec q 0) as [Hneg|Hpos].
  - apply round_core_grid; [done|lra| |done].
    rewrite !Qabs_neg by lra. lra.
  - pose proof (round_core_nonneg q Hpos). lra.
Qed.

Lemma round_core_exact b : on_grid b → round_core b == b.
Proof.
  intros Hg. destruct (Qeq_dec b 0) as [H0|H0].
  - pose proof (round_core_nonneg b). pose proof (round_core_nonpos b). lra.
  - destruct (round_core_grid b b Hg H0) as [H1 H2]; [lra|].
    specialize (H1 ltac:(lra)). specialize (H2 ltac:(lra)). lra.
Qed.

Lemma round_finite q B :
  on_grid B → B < pow2 1024 → Qabs q <= B → round q = Fin (round_core q).
Proof.
  intros Hg HB Hq. apply Qabs_Qle_condition in Hq as [Hq1 Hq2].
  pose proof (round_core_upper q B Hg ltac:(lra) Hq2) as Hu.
  pose proof (round_core_lower q (- B) (on_grid_opp _ Hg) ltac:(lra) Hq1) as Hl.
  unfold round. destruct (Qle_bool _ _) eqn:E; [|done].
  apply Qle_bool_iff in E.
  assert (Qabs (round_core q) <= B) by (apply Qabs_Qle_condition; lra).
  lra.
Qed.

Lemma is_neg_false q : 0 <= q → is_neg q = false.
Proof. intros Hq. unfold is_neg. apply Qle_bool_iff in Hq. by rewrite Hq. Qed.

Lemma round_lower q b :
  on_grid b → b <= 0 → - b < pow2 1024 → b <= q → ge_float b (round q).
Proof.
  intros Hg Hb Hfin Hq. destruct (Qlt_le_dec q 0) as [Hneg|Hpos].
  - rewrite (round_finite q (- b)); [|by apply on_grid_opp|done|].
    + simpl. by apply round_core_lower.
    + rewrite Qabs_neg by lra. lra.
  - unfold round. destruct (Qle_bool _ _); simpl.
    + by apply is_neg_false.
    + pose proof (round_core_nonneg q Hpos). lra.
Qed.


Lemma round_in_range q lo hi :
  on_grid lo → on_grid hi → lo <= 0 → - lo <= hi → hi < pow2 1024 →
  lo <= q <= hi → in_range lo hi (round q).
Proof.
  intros Hlo Hhi Hlo0 Hlh Hfin [Hq1 Hq2].
  exists (round_core q). split.
  - apply (round_finite q hi); [done..|].
    apply Qabs_Qle_condition. split; lra.
  - split; [by apply round_core_lower|apply round_core_upper; [done|lra|done]].
Qed.

Lemma round_exact b : on_grid b → Qabs b < pow2 1024 → ∃ q, round b = Fin q ∧ q == b.
Proof.
  intros Hg Hb. unfold round.
  pose proof (round_core_exact b Hg) as He.
  destruct (Qle_bool _ _) eqn:E.
  - apply Qle_bool_iff in E. rewrite He in E. lra.
  - by exists (round_core b).
Qed.

Lemma pow2_lt a b : (a < b)%Z → pow2 a < pow2 b.
Proof.
  intros Hab. replace b with (a + (b - a))%Z by lia.
  rewrite pow2_add, (pow2_nonneg_Z (b - a)) by lia.
  assert (1 < inject_Z (2 ^ (b - a))) as H1.
  { change 1 with (inject_Z 1). rewrite <- Zlt_Qlt.
    apply Z.pow_gt_1; lia. }
  pose proof (pow2_pos a). nra.
Qed.

Lemma inject_Z_lt_pow2 z k :
  (0 <= k)%Z → (z < 2 ^ k)%Z → inject_Z z < pow2 k.
Proof. intros Hk Hz. rewrite pow2_nonneg_Z by done. by rewrite <- Zlt_Qlt. Qed.

Lemma inject_Z_lt_pow2_1024 z : (z < 2 ^ 53)%Z → inject_Z z < pow2 1024.
Proof.
  intros Hz. eapply Qlt_trans; [apply (inject_Z_lt_pow2 z 53); [lia|done]|].
  by apply pow2_lt.
Qed.

Lemma scaled_lt_pow2_1024 z :
  (0 <= z < 2 ^ 53)%Z → inject_Z z * pow2 53 < pow2 1024.
Proof.
  intros [Hz0 Hz]. apply Qle_lt_trans with (pow2 53 * pow2 53).
  - apply Qmult_le_compat_r; [|pose proof (pow2_pos 53); lra].
    apply Qlt_le_weak, inject_Z_lt_pow2; [lia|done].
  - rewrite <- pow2_add. by apply pow2_lt.
Qed.

Lemma one_lt_pow2_1024 : 1 < pow2 1024.
Proof. by apply (inject_Z_lt_pow2_1024 1). Qed.

Lemma on_grid_0 : on_grid 0.
Proof. by apply (on_grid_inject_Z 0). Qed.

Lemma on_grid_m1 : on_grid (- (1)).
Proof. by apply (on_grid_inject_Z (-1)). Qed.

Lemma on_grid_neg_Z z : (Z.abs z < 2 ^ 53)%Z → on_grid (- inject_Z z).
Proof. intros Hz. by apply on_grid_opp, on_grid_inject_Z. Qed.

End FloatTheory.

Ltac grid :=
  first [ exact on_grid_0 | exact on_grid_m1
        | apply on_grid_pow2; lia | apply on_grid_neg_Z; lia
        | apply on_grid_inject_Z; lia | apply on_grid_scaled; lia
        | apply on_grid_opp; grid ].

(** ** Mixed arithmetic of the Forecaster *)

Section Arithmetic.
Import Float.
Local Open Scope Q_scope.

Lemma fin_ge_ge_float b x : fin_ge b x → ge_float b x.
Proof. by intros (q & -> & ?). Qed.

Lemma inject_Z_nonneg z : (0 <= z)%Z → 0 <= inject_Z z.
Proof. intros Hz. change 0 with (inject_Z 0). by rewrite <- Zle_Qle. Qed.

Lemma of_int_small n :
  (Z.abs n < 2 ^ 53)%Z → ∃ q, of_int n = Ok (Fin q) ∧ q == inject_Z n.
Proof.
  intros Hn. unfold of_int.
  assert (∃ q, round (inject_Z n) = Fin q ∧ q == inject_Z n) as (q & -> & Hq).
  { apply round_exact; [grid|].
    rewrite Qabs_inject_Z. by apply inject_Z_lt_pow2_1024. }
  by exists q.
Qed.

Lemma of_int_nonneg n x : (0 <= n)%Z → of_int n = Ok x → fin_ge 0 x.
Proof.
  intros Hn. unfold of_int, round.
  destruct (Qle_bool _ _); [done|]. intros [= <-]. eexists; split; [done|].
  apply round_core_nonneg. change 0 with (inject_Z 0). by rewrite <- Zle_Qle.
Qed.

Lemma rate_exact_ge prev cur :
  (0 < prev)%Z → (0 <= cur)%Z →
  - (1) <= inject_Z (cur - prev) / inject_Z prev.
Proof.
  intros Hp Hc. apply Qle_shift_div_l; [by apply inject_Z_pos|].
  unfold Z.sub. rewrite inject_Z_plus, inject_Z_opp.
  rewrite Zle_Qle in Hc. change (inject_Z 0) with 0 in Hc. lra.
Qed.

Lemma rate_exact_le prev cur :
  (0 < prev)%Z → (0 <= cur)%Z →
  inject_Z (cur - prev) / inject_Z prev <= inject_Z cur.
Proof.
  intros Hp Hc. apply Qle_shift_div_r; [by apply inject_Z_pos|].
  rewrite <- inject_Z_mult, <- Zle_Qle. nia.
Qed.

Lemma true_div_rate_ge prev cur r :
  (0 < prev)%Z → (0 <= cur)%Z →
  true_div (cur - prev) prev = Ok r → fin_ge (- (1)) r.
Proof.
  intros Hp Hc. unfold true_div.
  destruct (Z.eqb_spec prev 0) as [|_]; [lia|].
  pose proof one_lt_pow2_1024 as H1.
  pose proof (round_lower _ (- (1)) on_grid_m1 ltac:(lra) ltac:(lra)
                (rate_exact_ge prev cur Hp Hc)) as Hr.
  destruct (round _) as [q| |]; [|done..].
  intros [= <-]. by exists q.
Qed.

Lemma true_div_rate_range prev cur :
  (0 < prev)%Z → (0 <= cur < 2 ^ 53)%Z →
  ∃ r, true_div (cur - prev) prev = Ok r ∧ in_range (- (1)) (pow2 53) r.
Proof.
  intros Hp [Hc Hc']. unfold true_div.
  destruct (Z.eqb_spec prev 0) as [|_]; [lia|].
  pose proof one_lt_pow2_1024 as H1.
  pose proof (pow2_lt 0 53 ltac:(lia)) as H53. change (pow2 0) with 1 in H53.
  assert (in_range (- (1)) (pow2 53)
            (round (inject_Z (cur - prev) / inject_Z prev))) as (q & -> & Hq).
  { apply round_in_range; [grid..|lra|lra|by apply pow2_lt|].
    split; [by apply rate_exact_ge|].
    eapply Qle_trans; [by apply rate_exact_le|].
    apply Qlt_le_weak, inject_Z_lt_pow2; [lia|done]. }
  eexists; split; [done|]. by exists q.
Qed.

(** *** Lower bounds that survive overflow *)

Lemma add_ge a x y :
  (0 <= a)%Z → (a + 1 < 2 ^ 53)%Z →
  ge_float (- inject_Z a) x → fin_ge (- (1)) y →
  ge_float (- inject_Z (a + 1)) (add x y).
Proof.
  intros Ha Ha' Hx (b & -> & Hb).
  destruct x as [qa|neg|]; simpl in *; [|done..].
  apply round_lower; [apply on_grid_neg_Z; lia| | |].
  - apply inject_Z_nonneg in Ha. rewrite inject_Z_plus.
    change (inject_Z 1) with 1. lra.
  - rewrite Qopp_involutive. apply inject_Z_lt_pow2_1024. lia.
  - rewrite inject_Z_plus. change (inject_Z 1) with 1. lra.
Qed.

Lemma foldl_add_ge rates a acc :
  Forall (fin_ge (- (1))) rates →
  (0 <= a)%Z → (a + Z.of_nat (length rates) < 2 ^ 53)%Z →
  ge_float (- inject_Z a) acc →
  ge_float (- inject_Z (a + Z.of_nat (length rates)))
           (foldl add acc rates).
Proof.
  intros Hr. revert a acc.
  induction Hr as [|r rates Hr _ IH]; intros a acc Ha Hlen Hacc; simpl in *.
  - by rewrite Z.add_0_r.
  - replace (a + Z.of_nat (S (length rates)))%Z
      with ((a + 1) + Z.of_nat (length rates))%Z by lia.
    apply IH; [lia..|]. apply add_ge; [lia..|done|done].
Qed.

Lemma sum_floats_ge rates :
  Forall (fin_ge (- (1))) rates → (len rates < 2 ^ 53)%Z →
  ge_float (- inject_Z (len rates)) (sum_floats rates).
Proof.
  intros Hr Hlen. apply (foldl_add_ge rates 0 (Fin 0)); [done|lia|done|].
  simpl. done.
Qed.

Lemma average_growth_rate_ge rates avg :
  rates ≠ [] → Forall (fin_ge (- (1))) rates → (len rates < 2 ^ 53)%Z →
  average_growth_rate rates = Ok avg → ge_float (- (1)) avg.
Proof.
  intros Hne Hr Hlen.
  assert (0 < len rates)%Z as Hpos.
  { unfold len. destruct rates; [done|]. simpl; lia. }
  unfold average_growth_rate, float_div_int.
  destruct (of_int_small (len rates)) as (n & -> & Hn); [lia|]. simpl.
  pose proof (sum_floats_ge rates Hr Hlen) as Hs.
  assert (0 < n) as Hn0.
  { rewrite Hn. by apply inject_Z_pos. }
  assert (Qeq_bool n 0 = false) as E.
  { destruct (Qeq_bool n 0) eqn:E; [apply Qeq_bool_iff in E; lra|done]. }
  pose proof one_lt_pow2_1024.
  destruct (sum_floats rates) as [a|neg|]; simpl in *; [|subst neg|done];
    rewrite E; intros [= <-]; simpl.
  - apply round_lower; [grid|lra|lra|].
    apply Qle_shift_div_l; [done|]. lra.
  - by rewrite is_neg_false by lra.
Qed.

Lemma factor_ge avg factor :
  ge_float (- (1)) avg → int_add_float 1 avg = Ok factor → ge_float 0 factor.
Proof.
  intros Havg. unfold int_add_float.
  destruct (of_int_small 1) as (one & -> & H1); [done|]. simpl.
  intros [= <-]. change (inject_Z 1) with 1 in H1.
  pose proof one_lt_pow2_1024.
  destruct avg as [a|neg|]; simpl in *; [|done..].
  apply round_lower; [grid|lra|lra|lra].
Qed.

Lemma product_ge last factor v :
  (0 <= last)%Z → ge_float 0 factor →
  int_mul_float last factor = Ok v → v = NaN ∨ ge_float 0 v.
Proof.
  intros Hl Hf. unfold int_mul_float.
  destruct (of_int last) as [x|] eqn:E; [|done]. simpl.
  destruct (of_int_nonneg _ _ Hl E) as (l & -> & Hl0).
  intros [= <-]. pose proof one_lt_pow2_1024.
  destruct factor as [f|neg|]; simpl in *; [|subst neg|done].
  - right. apply round_lower; [grid|lra|lra|].
    by apply Qmult_le_0_compat.
  - destruct (Qeq_bool l 0); [by left|right].
    simpl. by rewrite is_neg_false.
Qed.

Lemma truncate_nonneg q : 0 <= q → truncate q = Qfloor q ∧ (0 <= truncate q)%Z.
Proof.
  intros Hq. destruct q as [n d]. unfold truncate, Qfloor; simpl.
  assert (0 <= n)%Z by (unfold Qle in Hq; simpl in Hq; lia).
  rewrite Z.quot_div_nonneg by lia. split; [done|].
  apply Z.div_pos; lia.
Qed.

Lemma to_int_floor v : v = NaN ∨ ge_float 0 v → to_int v = floor v.
Proof.
  intros [->|Hv]; [done|]. destruct v as [q|neg|]; simpl in *; [|done..].
  f_equal. by apply truncate_nonneg.
Qed.

Lemma to_int_nonneg v p :
  v = NaN ∨ ge_float 0 v → to_int v = Ok p → (0 <= p)%Z.
Proof.
  intros [->|Hv]; [done|]. destruct v as [q|neg|]; simpl in *; [|done..].
  intros [= <-]. by apply truncate_nonneg.
Qed.

(** *** Two-sided bounds when the counts are below 2^53 *)

Lemma one_le_pow2_53 : 1 <= pow2 53.
Proof.
  pose proof (pow2_lt 0 53 ltac:(lia)) as H. change (pow2 0) with 1 in H. lra.
Qed.

Lemma add_range a x y :
  (0 <= a)%Z → (a + 1 < 2 ^ 53)%Z →
  in_range (- inject_Z a) (inject_Z a * pow2 53) x →
  in_range (- (1)) (pow2 53) y →
  in_range (- inject_Z (a + 1)) (inject_Z (a + 1) * pow2 53) (add x y).
Proof.
  intros Ha Ha' (qa & -> & Hqa) (b & -> & Hb). simpl.
  pose proof one_le_pow2_53 as HP. pose proof (inject_Z_nonneg a Ha) as HA.
  apply round_in_range;
    [grid|grid| | |apply scaled_lt_pow2_1024; lia|];
    rewrite ?inject_Z_plus; change (inject_Z 1) with 1.
  - lra.
  - nra.
  - split; [lra|nra].
Qed.

Lemma foldl_add_range rates a acc :
  Forall (in_range (- (1)) (pow2 53)) rates →
  (0 <= a)%Z → (a + Z.of_nat (length rates) < 2 ^ 53)%Z →
  in_range (- inject_Z a) (inject_Z a * pow2 53) acc →
  in_range (- inject_Z (a + Z.of_nat (length rates)))
           (inject_Z (a + Z.of_nat (length rates)) * pow2 53)
           (foldl add acc rates).
Proof.
  intros Hr. revert a acc.
  induction Hr as [|r rates Hr _ IH]; intros a acc Ha Hlen Hacc; simpl in *.
  - by rewrite Z.add_0_r.
  - replace (a + Z.of_nat (S (length rates)))%Z
      with ((a + 1) + Z.of_nat (length rates))%Z by lia.
    apply IH; [lia..|]. apply add_range; [lia..|done|done].
Qed.

Lemma sum_floats_range rates :
  Forall (in_range (- (1)) (pow2 53)) rates → (len rates < 2 ^ 53)%Z →
  in_range (- inject_Z (len rates)) (inject_Z (len rates) * pow2 53)
           (sum_floats rates).
Proof.
  intros Hr Hlen. apply (foldl_add_range rates 0 (Fin 0)); [done|lia|done|].
  exists 0. split; [done|]. change (inject_Z 0) with 0. lra.
Qed.

Lemma average_growth_rate_range rates :
  rates ≠ [] → Forall (in_range (- (1)) (pow2 53)) rates →
  (len rates < 2 ^ 53)%Z →
  ∃ avg, average_growth_rate rates = Ok avg ∧ in_range (- (1)) (pow2 53) avg.
Proof.
  intros Hne Hr Hlen.
  assert (0 < len rates)%Z as Hpos.
  { unfold len. destruct rates; [done|]. simpl; lia. }
  unfold average_growth_rate, float_div_int.
  destruct (of_int_small (len rates)) as (n & -> & Hn); [lia|]. simpl.
  destruct (sum_floats_range rates Hr Hlen) as (a & -> & Ha).
  assert (0 < n) as Hn0.
  { rewrite Hn. by apply inject_Z_pos. }
  assert (Qeq_bool n 0 = false) as E.
  { destruct (Qeq_bool n 0) eqn:E; [apply Qeq_bool_iff in E; lra|done]. }
  simpl. rewrite E. eexists; split; [done|].
  pose proof one_le_pow2_53.
  apply round_in_range; [grid|grid|lra|lra|by apply pow2_lt|].
  rewrite <- Hn in Ha. split.
  - apply Qle_shift_div_l; [done|]. lra.
  - apply Qle_shift_div_r; [done|]. lra.
Qed.

Lemma factor_range avg :
  in_range (- (1)) (pow2 53) avg →
  ∃ factor, int_add_float 1 avg = Ok factor ∧ in_range 0 (pow2 54) factor.
Proof.
  intros (a & -> & Ha). unfold int_add_float.
  destruct (of_int_small 1) as (one & -> & H1); [done|]. simpl.
  change (inject_Z 1) with 1 in H1.
  eexists; split; [done|].
  pose proof one_le_pow2_53.
  assert (pow2 54 == 2 * pow2 53) as H54 by (by rewrite (pow2_add 1 53)).
  apply round_in_range; [grid|grid|lra|lra|by apply pow2_lt|]. lra.
Qed.

Lemma product_range last factor :
  (0 <= last < 2 ^ 53)%Z → in_range 0 (pow2 54) factor →
  ∃ v, int_mul_float last factor = Ok v ∧ in_range 0 (pow2 107) v.
Proof.
  intros [Hl Hl'] (f & -> & Hf). unfold int_mul_float.
  destruct (of_int_small last) as (l & -> & Hlast); [lia|]. simpl.
  eexists; split; [done|].
  pose proof (inject_Z_nonneg _ Hl).
  pose proof (inject_Z_lt_pow2 last 53 ltac:(lia) Hl').
  assert (pow2 107 == pow2 53 * pow2 54) as H107 by (by rewrite <- pow2_add).
  pose proof (pow2_pos 107).
  apply round_in_range; [grid|grid|lra|lra|by apply pow2_lt|].
  rewrite H107, Hlast. split; [apply Qmult_le_0_compat; lra|].
  apply Qmult_le_compat_nonneg; lra.
Qed.

Lemma sum_ints_nonneg counts :
  Forall (λ c, 0 <= c)%Z counts → (0 <= sum_ints counts)%Z.
Proof.
  intros Hc. unfold sum_ints.
  assert (∀ acc, 0 <= acc → 0 <= foldl Z.add acc counts)%Z as H; [|by apply H].
  induction Hc as [|c counts Hc _ IH]; intros acc Hacc; simpl; [done|].
  apply IH. lia.
Qed.

Lemma average_count_ge counts avg :
  Forall (λ c, 0 <= c)%Z counts →
  true_div (sum_ints counts) (len counts) = Ok avg → fin_ge 0 avg.
Proof.
  intros Hc. unfold true_div.
  destruct (Z.eqb_spec (len counts) 0) as [|Hne]; [done|].
  assert (0 <= sum_ints counts)%Z as Hs.
  { by apply sum_ints_nonneg. }
  unfold round. destruct (Qle_bool _ _); [done|]. intros [= <-].
  eexists; split; [done|]. apply round_core_nonneg.
  apply Qle_shift_div_l; [apply inject_Z_pos; unfold len in *; lia|].
  apply inject_Z_nonneg in Hs. lra.
Qed.

Lemma to_int_range hi v :
  in_range 0 hi v → ∃ p, to_int v = Ok p ∧ floor v = Ok p ∧ (0 <= p)%Z.
Proof.
  intros (q & -> & Hq & _). simpl.
  destruct (truncate_nonneg q Hq) as [-> ?]. by eexists.
Qed.

(** *** The average count is exact below 2^53 *)

Lemma round_half_even_below_half x J :
  x < inject_Z J - (1 # 2) → (round_half_even x <= J - 1)%Z.
Proof.
  intros Hx. unfold round_half_even.
  pose proof (Qfloor_le x) as Hf.
  assert (Qfloor x <= J - 1)%Z as HfJ.
  { assert (Qfloor x < J)%Z; [|lia]. rewrite Zlt_Qlt. lra. }
  destruct (Qcompare_spec (x - inject_Z (Qfloor x)) (1 # 2)) as [H|H|H];
    [destruct (Z.even _)| |]; try lia;
    (assert (Qfloor x + 1 < J)%Z; [|lia];
     rewrite Zlt_Qlt, inject_Z_plus; change (inject_Z 1) with 1; lra).
Qed.

Lemma Qfloor_unique y k :
  inject_Z k <= y → y < inject_Z (k + 1) → Qfloor y = k.
Proof.
  intros H1 H2. apply Z.le_antisymm.
  - assert (Qfloor y < k + 1)%Z; [|lia].
    rewrite Zlt_Qlt. pose proof (Qfloor_le y). lra.
  - rewrite <- (Qfloor_Z k). by apply Qfloor_resp_le.
Qed.

Lemma ulp_small x S n :
  (0 < n < 2 ^ 53)%Z → (S < 2 ^ 53)%Z → 0 < x → x * inject_Z n == inject_Z S →
  inject_Z n * pow2 (ulp_exp x) < 2.
Proof.
  intros [Hn Hn'] HS Hx Hxn.
  pose proof (inject_Z_pos n Hn) as Hn0.
  pose proof (inject_Z_lt_pow2 n 53 ltac:(lia) Hn') as Hn53.
  pose proof (inject_Z_lt_pow2 S 53 ltac:(lia) HS) as HS53.
  assert (0 < Qabs x) as Hax by (rewrite Qabs_pos; lra).
  pose proof (floor_log2_le (Qabs x) Hax) as Hfl.
  rewrite (Qabs_pos x) in Hfl at 2 by lra.
  unfold ulp_exp.
  destruct (Z.max_spec (floor_log2 (Qabs x) - 52) (-1074)) as [[_ ->]|[_ ->]].
  - assert (pow2 (-1074) * pow2 53 < 2) as H.
    { rewrite <- pow2_add. change 2 with (pow2 1). by apply pow2_lt. }
    pose proof (pow2_pos (-1074)). nra.
  - assert (pow2 (floor_log2 (Qabs x) - 52) * pow2 53
            == 2 * pow2 (floor_log2 (Qabs x))) as H.
    { rewrite <- pow2_add. change 2 with (pow2 1). rewrite <- pow2_add.
      pow2_eq. }
    pose proof (pow2_pos (floor_log2 (Qabs x) - 52)).
    pose proof (pow2_pos (floor_log2 (Qabs x))).
    assert (pow2 (floor_log2 (Qabs x)) * inject_Z n < pow2 53) by nra.
    nra.
Qed.

Lemma true_div_floor S n :
  (0 <= S < 2 ^ 53)%Z → (0 < n < 2 ^ 53)%Z →
  ∃ q, true_div S n = Ok (Fin q) ∧ 0 <= q ∧ Qfloor q = (S / n)%Z.
Proof.
  intros [HS0 HS] [Hn Hn']. unfold true_div.
  destruct (Z.eqb_spec n 0) as [|_]; [lia|].
  set (x := inject_Z S / inject_Z n).
  pose proof (inject_Z_pos n Hn) as Hn0.
  pose proof (inject_Z_nonneg S HS0) as HS0'.
  pose proof (inject_Z_lt_pow2 S 53 ltac:(lia) HS) as HS53.
  assert (x * inject_Z n == inject_Z S) as Hxn.
  { unfold x. field. lra. }
  assert (0 <= x) as Hx0 by (apply Qle_shift_div_l; lra).
  assert (x <= inject_Z S) as HxS.
  { apply Qle_shift_div_r; [done|].
    assert (1 <= inject_Z n) by (change 1 with (inject_Z 1);
                                 rewrite <- Zle_Qle; lia).
    nra. }
  rewrite (round_finite x (pow2 53));
    [|grid|by apply pow2_lt|rewrite Qabs_pos; lra].
  eexists; split; [done|]. split; [by apply round_core_nonneg|].
  rewrite (Zdiv_Qdiv S n). fold x.
  pose proof (Qfloor_le x) as Hk1. pose proof (Qlt_floor x) as Hk2.
  set (k := Qfloor x) in *.
  destruct (Qlt_le_dec 0 x) as [Hpos|Hzero].
  2:{ assert (k = 0%Z) as ->.
      { apply Qfloor_unique; change (inject_Z 0) with 0;
          change (inject_Z (0 + 1)) with 1; lra. }
      apply Qfloor_unique; change (inject_Z 0) with 0;
        change (inject_Z (0 + 1)) with 1.
      - by apply round_core_nonneg.
      - pose proof (round_core_nonpos x Hzero). lra. }
  assert (ulp_exp x <= 0)%Z as He.
  { apply ulp_exp_le; [lia|rewrite Qabs_pos; lra|].
    rewrite Qabs_pos by lra. change (0 + 53)%Z with 53%Z. lra. }
  apply Qfloor_unique.
  - pose proof (round_core_ge x k 0 He) as H.
    change (pow2 0) with 1 in H. rewrite Qmult_1_r in H. by apply H.
  - (* the quotient is at least [1/n] below [k + 1], more than half an ulp *)
    assert (x * inject_Z n <= (inject_Z (k + 1)) * inject_Z n - 1) as Hgap.
    { assert (S + 1 <= (k + 1) * n)%Z as HZ.
      { assert (S < (k + 1) * n)%Z; [|lia].
        rewrite Zlt_Qlt, inject_Z_mult, <- Hxn.
        by apply Qmult_lt_compat_r. }
      rewrite Zle_Qle, inject_Z_plus, inject_Z_mult in HZ.
      change (inject_Z 1) with 1 in HZ. rewrite Hxn. lra. }
    pose proof (ulp_small x S n ltac:(lia) HS Hpos Hxn) as Hulp.
    pose proof (pow2_pos (ulp_exp x)) as Hp.
    unfold round_core. rewrite Qred_correct.
    pose proof (grid_rescale (k + 1) 0 (ulp_exp x) He) as HJ.
    change (pow2 0) with 1 in HJ. rewrite Qmult_1_r in HJ.
    set (J := ((k + 1) * 2 ^ (0 - ulp_exp x))%Z) in *.
    assert (round_half_even (x / pow2 (ulp_exp x)) <= J - 1)%Z as Hr.
    { apply round_half_even_below_half.
      apply Qlt_shift_div_r; [done|].
      assert (x * inject_Z n
              < (inject_Z J - (1 # 2)) * pow2 (ulp_exp x) * inject_Z n);
        [|nra].
      rewrite HJ in Hgap. nra. }
    rewrite Zle_Qle in Hr. unfold Z.sub in Hr.
    rewrite inject_Z_plus, inject_Z_opp in Hr.
    change (inject_Z 1) with 1 in Hr. rewrite HJ. nra.
Qed.

End Arithmetic.

(** ** The Forecaster *)

Section Forecaster.
Import Float.

Lemma bind_Ok {A B} (r : result A) (k : A → result B) b :
  (r ≫= k) = Ok b ↔ ∃ a, r = Ok a ∧ k a = Ok b.
Proof.
  destruct r as [a|e]; simpl; split.
  - intros H. by exists a.
  - by intros (a' & [= ->] & H).
  - done.
  - by intros (a' & [=] & _).
Qed.

Lemma traverse_Ok {A B} (f : A → result B) l rs :
  traverse f l = Ok rs → Forall2 (λ a r, f a = Ok r) l rs.
Proof.
  revert rs. induction l as [|a l IH]; intros rs; simpl.
  - intros [= <-]. constructor.
  - destruct (f a) as [b|] eqn:Ha; [|done]. simpl.
    destruct (traverse f l) as [bs|]; [|done]. simpl.
    intros [= <-]. constructor; [done|by apply IH].
Qed.

Lemma traverse_Forall {A B} (f : A → result B) (P : B → Prop) l :
  Forall (λ a, ∃ b, f a = Ok b ∧ P b) l →
  ∃ rs, traverse f l = Ok rs ∧ Forall P rs ∧ length rs = length l.
Proof.
  induction 1 as [|a l (b & Hb & HP) _ (rs & IH & HPs & Hlen)]; simpl.
  - by exists [].
  - rewrite Hb, IH. simpl. exists (b :: rs).
    split_and!; [done|by constructor|simpl; by rewrite Hlen].
Qed.

(** The indexed loop computes the rates of the valid transitions. *)
Lemma growth_rates_loop_shift c0 counts k i acc :
  growth_rates_loop (c0 :: counts) (seq (S (S i)) k) acc
  = growth_rates_loop counts (seq (S i) k) acc.
Proof.
  revert i acc. induction k as [|k IH]; intros i acc; [done|].
  cbn [seq growth_rates_loop].
  replace (S (S i) - 1)%nat with (S i) by lia.
  replace (S i - 1)%nat with i by lia.
  cbn [nth]. destruct (0 <? nth i counts 0); [|by rewrite IH].
  destruct (true_div _ _); simpl; [by rewrite IH|done].
Qed.

Lemma adjacent_growth_rates_cons c0 c1 rest :
  adjacent_growth_rates (c0 :: c1 :: rest)
  = if decide (0 < c0)
    then r ← true_div (c1 - c0) c0;
         rs ← adjacent_growth_rates (c1 :: rest); Ok (r :: rs)
    else adjacent_growth_rates (c1 :: rest).
Proof.
  unfold adjacent_growth_rates, valid_transitions.
  cbn [transitions]. rewrite filter_cons. cbn [fst].
  by case_decide.
Qed.

Lemma growth_rates_loop_spec counts acc :
  growth_rates_loop counts (seq 1 (length counts - 1)) acc
  = rs ← adjacent_growth_rates counts; Ok (acc ++ rs).
Proof.
  revert acc. induction counts as [|c0 counts IH]; intros acc.
  { simpl. by rewrite app_nil_r. }
  destruct counts as [|c1 rest].
  { simpl. by rewrite app_nil_r. }
  replace (length (c0 :: c1 :: rest) - 1)%nat with (S (length rest))
    by (simpl; lia).
  assert (∀ acc',
    growth_rates_loop (c0 :: c1 :: rest) (seq 2 (length rest)) acc'
    = rs ← adjacent_growth_rates (c1 :: rest); Ok (acc' ++ rs)) as Hstep.
  { intros acc'. rewrite growth_rates_loop_shift, <- IH.
    simpl. by rewrite Nat.sub_0_r. }
  cbn [seq growth_rates_loop nth Nat.sub].
  rewrite adjacent_growth_rates_cons.
  destruct (Z.ltb_spec 0 c0) as [Hc|Hc]; case_decide; try lia.
  - destruct (true_div (c1 - c0) c0) as [r|e]; [|done]. simpl.
    rewrite Hstep.
    destruct (adjacent_growth_rates (c1 :: rest)); simpl; [|done].
    by rewrite <- app_assoc.
  - by rewrite Hstep.
Qed.

Lemma growth_rates_spec counts :
  growth_rates counts = adjacent_growth_rates counts.
Proof.
  unfold growth_rates. rewrite growth_rates_loop_spec.
  by destruct (adjacent_growth_rates counts).
Qed.

(** *** From the dictionary to the sorted lists *)

Lemma is_year_text_str y : is_year_text (py_str y).
Proof. unfold is_year_text, year_of_key. by rewrite py_int_str. Qed.

Lemma is_year_text_inv k : is_year_text k → ∃ y, k = py_str y ∧ py_int k = Ok y.
Proof.
  unfold is_year_text, year_of_key.
  destruct (py_int k) as [y|]; [|done]. intros [= H]. by exists y.
Qed.

Lemma year_of_key_Ok k y : py_int k = Ok y → year_of_key k = Some y.
Proof. intros H. unfold year_of_key. by rewrite H. Qed.

Lemma elem_of_dict_keys (m : gmap string Z) k :
  k ∈ dict_keys m ↔ is_Some (m !! k).
Proof.
  unfold dict_keys. rewrite list_elem_of_fmap. split.
  - intros ([k' c] & -> & H%elem_of_map_to_list). by exists c.
  - intros [c H]. exists (k, c). by rewrite elem_of_map_to_list.
Qed.

Lemma year_keys_Forall (m : gmap string Z) :
  year_keys m → Forall is_year_text (dict_keys m).
Proof.
  intros Hm. apply Forall_forall. intros k [c Hk]%elem_of_dict_keys.
  by apply (Hm k c).
Qed.

Lemma traverse_py_int ks :
  Forall is_year_text ks → traverse py_int ks = Ok (omap year_of_key ks).
Proof.
  induction 1 as [|k ks (y & -> & Hy)%is_year_text_inv _ IH]; [done|].
  cbn [traverse omap list_omap]. rewrite (year_of_key_Ok _ _ Hy), Hy.
  cbn [mbind result_bind]. by rewrite IH.
Qed.

Lemma elem_of_years_of (m : gmap string Z) y :
  year_keys m → y ∈ years_of m → is_Some (m !! py_str y).
Proof.
  intros Hm. unfold years_of. rewrite merge_sort_Permutation.
  rewrite list_elem_of_omap. intros (k & Hk & Hy).
  apply elem_of_dict_keys in Hk as [c Hc].
  destruct (is_year_text_inv k (Hm k c Hc)) as (y' & -> & Hy').
  unfold year_of_key in Hy. rewrite Hy' in Hy. injection Hy as <-.
  by exists c.
Qed.

Lemma getitem_Some (m : gmap string Z) k c :
  m !! k = Some c → getitem m k = Ok c.
Proof. intros H. unfold getitem. by rewrite H. Qed.

Lemma traverse_getitem (m : gmap string Z) :
  year_keys m →
  traverse (λ y, getitem m (py_str y)) (years_of m) = Ok (counts_of m).
Proof.
  intros Hm. unfold counts_of.
  assert (Forall (λ y, is_Some (m !! py_str y)) (years_of m)) as H.
  { apply Forall_forall. intros y. by apply elem_of_years_of. }
  revert H. generalize (years_of m). intros ys H.
  induction H as [|y ys [c Hc] _ IH]; cbn [traverse map]; [done|].
  rewrite (getitem_Some _ _ _ Hc), Hc. cbn [mbind result_bind].
  by rewrite IH.
Qed.

Lemma predict_next_year_sorted (m : gmap string Z) :
  year_keys m → (2 <= size m)%nat →
  predict_next_year m = outcome_of (forecast (years_of m) (counts_of m)).
Proof.
  intros Hm Hsize. unfold predict_next_year.
  rewrite bool_decide_eq_false_2 by lia.
  rewrite traverse_py_int by by apply year_keys_Forall.
  cbn [mbind result_bind]. fold (years_of m). by rewrite traverse_getitem.
Qed.

Lemma length_years_of (m : gmap string Z) :
  year_keys m → length (years_of m) = size m.
Proof.
  intros Hm. unfold years_of. rewrite merge_sort_Permutation.
  pose proof (year_keys_Forall m Hm) as H.
  assert (length (omap year_of_key (dict_keys m)) = length (dict_keys m)) as ->.
  { revert H. generalize (dict_keys m). intros ks H.
    induction H as [|k ks (y & -> & Hy)%is_year_text_inv _ IH]; [done|].
    cbn [omap list_omap]. rewrite (year_of_key_Ok _ _ Hy).
    cbn [length]. by rewrite IH. }
  unfold dict_keys. by rewrite length_fmap, length_map_to_list.
Qed.

Lemma length_counts_of (m : gmap string Z) :
  year_keys m → length (counts_of m) = size m.
Proof. intros Hm. unfold counts_of. by rewrite length_map, length_years_of. Qed.

Lemma counts_of_Forall (P : Z → Prop) (m : gmap string Z) :
  year_keys m → map_Forall (λ _ c, P c) m → Forall P (counts_of m).
Proof.
  intros Hm HP. unfold counts_of. apply Forall_forall. intros c.
  rewrite list_elem_of_In, in_map_iff. intros (y & <- & Hy%list_elem_of_In).
  destruct (elem_of_years_of m y Hm Hy) as [c Hc]. rewrite Hc. simpl.
  by apply (HP _ _ Hc).
Qed.

(** *** Growth rates of a list of counts *)

Lemma transitions_Forall (P : Z → Prop) counts :
  Forall P counts → Forall (λ t, P t.1 ∧ P t.2) (transitions counts).
Proof.
  induction 1 as [|c0 counts H0 Hc IH]; [constructor|].
  destruct counts as [|c1 rest]; [constructor|].
  cbn [transitions]. constructor; [|done].
  split; [done|]. by apply Forall_inv in Hc.
Qed.

Lemma valid_transitions_Forall (P : Z → Prop) counts :
  Forall P counts →
  Forall (λ t, 0 < t.1 ∧ P t.1 ∧ P t.2) (valid_transitions counts).
Proof.
  intros H%transitions_Forall. unfold valid_transitions.
  apply Forall_forall. intros t [Ht Hin]%list_elem_of_filter.
  rewrite Forall_forall in H. split; [done|]. by apply H.
Qed.

Lemma length_transitions counts :
  (length (transitions counts) <= length counts)%nat.
Proof.
  induction counts as [|c0 [|c1 rest] IH]; simpl in *; lia.
Qed.

Lemma length_valid_transitions counts :
  (length (valid_transitions counts) <= length counts)%nat.
Proof.
  unfold valid_transitions.
  etrans; [apply length_filter|apply length_transitions].
Qed.

Lemma last_Forall (P : Z → Prop) l d : Forall P l → P d → P (List.last l d).
Proof.
  induction 1 as [|x l Hx Hl IH]; intros Hd; [done|].
  destruct l; [done|]. by apply IH.
Qed.

Lemma adjacent_growth_rates_ge counts rates :
  Forall (λ c, 0 <= c) counts →
  adjacent_growth_rates counts = Ok rates →
  Forall (fin_ge (- (1))%Q) rates
  ∧ length rates = length (valid_transitions counts).
Proof.
  intros Hc H%traverse_Ok.
  pose proof (valid_transitions_Forall _ counts Hc) as Hv.
  induction H as [|t r ts rs Hr _ IH]; [by split|].
  apply Forall_cons in Hv as [(H1 & _ & H2) Hv].
  destruct (IH Hv) as [IH1 IH2]. split; [|simpl; by rewrite IH2].
  constructor; [|done]. by apply (true_div_rate_ge t.1 t.2).
Qed.

Lemma adjacent_growth_rates_range counts :
  Forall (λ c, 0 <= c < 2 ^ 53) counts →
  ∃ rates, adjacent_growth_rates counts = Ok rates
    ∧ Forall (in_range (- (1)) (pow2 53))%Q rates
    ∧ length rates = length (valid_transitions counts).
Proof.
  intros Hc. apply traverse_Forall.
  eapply Forall_impl; [by apply valid_transitions_Forall|].
  intros t (H1 & _ & H2). by apply true_div_rate_range.
Qed.

(** *** The projected count *)

Lemma projected_count_ge counts rates v :
  Forall (λ c, 0 <= c) counts → rates ≠ [] →
  Forall (fin_ge (- (1))%Q) rates → len rates < 2 ^ 53 →
  projected_count counts rates = Ok v → v = NaN ∨ ge_float 0 v.
Proof.
  intros Hc Hne Hr Hlen. unfold projected_count.
  intros (avg & Havg & (factor & Hf & Hv)%bind_Ok)%bind_Ok.
  apply (product_ge (List.last counts 0) factor); [|..|done].
  - by apply last_Forall.
  - apply (factor_ge avg); [|done].
    by apply (average_growth_rate_ge rates).
Qed.

Lemma projected_count_range counts rates :
  Forall (λ c, 0 <= c < 2 ^ 53) counts → rates ≠ [] →
  Forall (in_range (- (1)) (pow2 53))%Q rates → len rates < 2 ^ 53 →
  ∃ avg v, average_growth_rate rates = Ok avg
    ∧ in_range (- (1)) (pow2 53)%Q avg
    ∧ projected_count counts rates = Ok v
    ∧ in_range 0 (pow2 107) v.
Proof.
  intros Hc Hne Hr Hlen. unfold projected_count.
  destruct (average_growth_rate_range rates) as (avg & Havg & Hr1); [done..|].
  destruct (factor_range avg Hr1) as (factor & Hf & Hr2).
  destruct (product_range (List.last counts 0) factor) as (v & Hv & Hr3);
    [by apply last_Forall|done|].
  exists avg, v. rewrite Havg. cbn [mbind result_bind]. rewrite Hf.
  by cbn [mbind result_bind].
Qed.

(** *** The two branches of [forecast] *)

Lemma forecast_fallback years counts :
  valid_transitions counts = [] →
  forecast years counts = average_formula years counts.
Proof.
  intros Hv. unfold forecast. rewrite growth_rates_spec.
  unfold adjacent_growth_rates. by rewrite Hv.
Qed.

Lemma forecast_growth years counts :
  Forall (λ c, 0 <= c) counts → len counts < 2 ^ 53 →
  valid_transitions counts ≠ [] →
  forecast years counts = forecast_formula years counts.
Proof.
  intros Hc Hlen Hv. unfold forecast, forecast_formula.
  rewrite growth_rates_spec.
  destruct (adjacent_growth_rates counts) as [rates|] eqn:E; [|done].
  cbn [mbind result_bind].
  destruct (adjacent_growth_rates_ge counts rates Hc E) as [Hr Hl].
  assert (rates ≠ []) as Hne.
  { intros ->. by destruct (valid_transitions counts). }
  assert (len rates < 2 ^ 53) as Hlen'.
  { pose proof (length_valid_transitions counts). unfold len in *. lia. }
  destruct rates as [|r rates]; [done|].
  destruct (projected_count counts (r :: rates)) as [v|] eqn:Ev; [|done].
  cbn [mbind result_bind].
  by rewrite (to_int_floor v (projected_count_ge _ _ _ Hc Hne Hr Hlen' Ev)).
Qed.

Lemma forecast_nonneg years counts y p :
  Forall (λ c, 0 <= c) counts → len counts < 2 ^ 53 →
  forecast years counts = Ok (y, p) → 0 <= p.
Proof.
  intros Hc Hlen.
  destruct (decide (valid_transitions counts = [])) as [Hv|Hv].
  - rewrite forecast_fallback by done. unfold average_formula.
    intros (avg & Havg & (p' & Hp & [= _ <-])%bind_Ok)%bind_Ok.
    apply (to_int_nonneg avg); [|done].
    right. by apply fin_ge_ge_float, (average_count_ge counts).
  - unfold forecast. rewrite growth_rates_spec.
    intros (rates & E & H)%bind_Ok.
    destruct (adjacent_growth_rates_ge counts rates Hc E) as [Hr Hl].
    assert (rates ≠ []) as Hne.
    { intros ->. by destruct (valid_transitions counts). }
    assert (len rates < 2 ^ 53) as Hlen'.
    { pose proof (length_valid_transitions counts). unfold len in *. lia. }
    destruct rates as [|r rates]; [done|].
    apply bind_Ok in H as (v & Ev & (p' & Hp & [= _ <-])%bind_Ok).
    apply (to_int_nonneg v); [|done].
    by apply (projected_count_ge counts (r :: rates)).
Qed.

Lemma forecast_bounded years counts :
  Forall (λ c, 0 <= c < 2 ^ 53) counts → len counts < 2 ^ 53 →
  valid_transitions counts ≠ [] →
  ∃ rates avg factor next_count prediction,
    adjacent_growth_rates counts = Ok rates ∧ rates ≠ [] ∧
    average_growth_rate rates = Ok avg ∧
    int_add_float 1 avg = Ok factor ∧
    int_mul_float (List.last counts 0) factor = Ok next_count ∧
    floor next_count = Ok prediction ∧
    forecast years counts = Ok (List.last years 0 + 1, prediction).
Proof.
  intros Hc Hlen Hv.
  assert (Forall (λ c, 0 <= c) counts) as Hc0.
  { eapply Forall_impl; [exact Hc|]. simpl. lia. }
  destruct (adjacent_growth_rates_range counts Hc) as (rates & E & Hr & Hl).
  assert (rates ≠ []) as Hne.
  { intros ->. by destruct (valid_transitions counts). }
  assert (len rates < 2 ^ 53) as Hlen'.
  { pose proof (length_valid_transitions counts). unfold len in *. lia. }
  destruct (projected_count_range counts rates Hc Hne Hr Hlen')
    as (avg & v & Havg & _ & Hv' & Hrange).
  destruct (to_int_range _ _ Hrange) as (p & Hp & Hfl & _).
  pose proof Hv' as Hproj. unfold projected_count in Hv'.
  rewrite Havg in Hv'. cbn [mbind result_bind] in Hv'.
  apply bind_Ok in Hv' as (factor & Hf & Hmul).
  exists rates, avg, factor, v, p. split_and!; try done.
  rewrite forecast_growth by done. unfold forecast_formula.
  rewrite E. cbn [mbind result_bind]. rewrite Hproj.
  cbn [mbind result_bind]. by rewrite Hfl.
Qed.

Lemma sum_ints_cons c l : sum_ints (c :: l) = c + sum_ints l.
Proof.
  unfold sum_ints. cbn [foldl].
  assert (∀ a, foldl Z.add a l = a + foldl Z.add 0 l) as H.
  { induction l as [|x l IH]; intros a; cbn [foldl]; [lia|].
    rewrite (IH (a + x)), (IH (0 + x)). lia. }
  apply H.
Qed.

Lemma sum_ints_no_valid counts :
  Forall (λ c, 0 <= c) counts → valid_transitions counts = [] →
  sum_ints counts = List.last counts 0.
Proof.
  induction 1 as [|c0 counts H0 Hc IH]; [done|].
  destruct counts as [|c1 rest];
    [intros _; rewrite sum_ints_cons; unfold sum_ints; simpl; lia|].
  unfold valid_transitions. cbn [transitions]. rewrite filter_cons.
  cbn [fst]. case_decide as Hpos; [done|]. intros Hv.
  rewrite sum_ints_cons, (IH Hv). cbn [List.last]. lia.
Qed.

Lemma forecast_fallback_bounded years counts :
  counts ≠ [] → Forall (λ c, 0 <= c < 2 ^ 53) counts → len counts < 2 ^ 53 →
  valid_transitions counts = [] →
  sum_ints counts = List.last counts 0 ∧
  forecast years counts
  = Ok (List.last years 0 + 1, sum_ints counts / len counts).
Proof.
  intros Hne Hc Hlen Hv.
  assert (Forall (λ c, 0 <= c) counts) as Hc0.
  { eapply Forall_impl; [exact Hc|]. simpl. lia. }
  pose proof (sum_ints_no_valid counts Hc0 Hv) as Hsum.
  split; [done|].
  assert (0 < len counts) as Hpos.
  { unfold len. destruct counts; [done|]. simpl; lia. }
  destruct (true_div_floor (sum_ints counts) (len counts))
    as (q & Hq & Hq0 & Hfl); [|lia|].
  { rewrite Hsum. by apply last_Forall. }
  rewrite forecast_fallback by done. unfold average_formula.
  rewrite Hq. cbn [mbind result_bind to_int].
  destruct (truncate_nonneg q Hq0) as [-> _]. by rewrite Hfl.
Qed.

(** *** No division by zero *)

Lemma true_div_no_zero_division a b :
  b ≠ 0 → true_div a b ≠ Raise ZeroDivisionError.
Proof.
  intros Hb. unfold true_div. destruct (Z.eqb_spec b 0); [done|].
  by destruct (round _).
Qed.

Lemma traverse_not_raise {A B} (f : A → result B) l e :
  Forall (λ a, f a ≠ Raise e) l → traverse f l ≠ Raise e.
Proof.
  induction 1 as [|a l Ha _ IH]; simpl; [done|].
  destruct (f a) as [b|e']; simpl.
  - destruct (traverse f l); simpl; [done|].
    intros [= ->]. by apply IH.
  - intros [= ->]. by apply Ha.
Qed.

Lemma adjacent_growth_rates_no_zero_division counts :
  adjacent_growth_rates counts ≠ Raise ZeroDivisionError.
Proof.
  apply traverse_not_raise. unfold valid_transitions.
  apply Forall_forall. intros t [Ht _]%list_elem_of_filter.
  apply true_div_no_zero_division. lia.
Qed.

Lemma bind_not_raise {A B} (r : result A) (k : A → result B) e :
  r ≠ Raise e → (∀ a, r = Ok a → k a ≠ Raise e) → (r ≫= k) ≠ Raise e.
Proof.
  intros Hr Hk. destruct r as [a|e']; simpl; [by apply Hk|].
  intros [= ->]. by apply Hr.
Qed.

Lemma of_int_no_zero_division n : of_int n ≠ Raise ZeroDivisionError.
Proof. unfold of_int. by destruct (round _). Qed.

Lemma to_int_no_zero_division x : to_int x ≠ Raise ZeroDivisionError.
Proof. by destruct x. Qed.

Lemma average_growth_rate_no_zero_division rates :
  rates ≠ [] → len rates < 2 ^ 53 →
  average_growth_rate rates ≠ Raise ZeroDivisionError.
Proof.
  intros Hne Hlen. unfold average_growth_rate, float_div_int.
  assert (0 < len rates) as Hpos.
  { unfold len. destruct rates; [done|]. simpl; lia. }
  destruct (of_int_small (len rates)) as (n & -> & Hn); [lia|].
  cbn [mbind result_bind].
  assert (Qeq_bool n 0 = false) as En.
  { destruct (Qeq_bool n 0) eqn:En; [|done].
    apply Qeq_bool_iff in En. rewrite Hn in En.
    apply inject_Z_pos in Hpos. lra. }
  destruct (sum_floats _); simpl; by rewrite En.
Qed.

Lemma forecast_no_zero_division years counts :
  counts ≠ [] → len counts < 2 ^ 53 →
  forecast years counts ≠ Raise ZeroDivisionError.
Proof.
  intros Hne Hlen. unfold forecast. rewrite growth_rates_spec.
  assert (0 < len counts) as Hpos.
  { unfold len. destruct counts; [done|]. simpl; lia. }
  apply bind_not_raise; [apply adjacent_growth_rates_no_zero_division|].
  intros rates E. destruct rates as [|r rates].
  - apply bind_not_raise; [apply true_div_no_zero_division; lia|].
    intros avg _. apply bind_not_raise; [apply to_int_no_zero_division|done].
  - assert (len (r :: rates) < 2 ^ 53) as Hlen'.
    { apply traverse_Ok, Forall2_length in E.
      pose proof (length_valid_transitions counts). unfold len in *. lia. }
    apply bind_not_raise.
    + unfold projected_count.
      apply bind_not_raise;
        [by apply average_growth_rate_no_zero_division|].
      intros avg _. unfold int_add_float, int_mul_float.
      apply bind_not_raise;
        [apply bind_not_raise; [apply of_int_no_zero_division|done]|].
      intros factor _.
      apply bind_not_raise; [apply of_int_no_zero_division|done].
    + intros v _.
      apply bind_not_raise; [apply to_int_no_zero_division|done].
Qed.

End Forecaster.



Lemma outcome_of_Failed r e : outcome_of r = Failed e → r = Raise e.
Proof. destruct r as [[y p]|e']; simpl; congruence. Qed.

(** C2: a transition whose prior count is zero contributes no growth rate,
    so no division by zero occurs; when no transition is valid the
    prediction is the truncated average count [int(sum(counts) /
    len(counts))], which for counts below 2^53 is exactly the integer
    quotient of the sum by the number of years.  For {2020: 0, 2021: 100}
    the single transition is skipped and the average path predicts 50. *)
Theorem forecaster_zero_guard :
  (∀ counts, growth_rates counts = adjacent_growth_rates counts) ∧
  (∀ prev cur rest,
     prev <= 0 → growth_rates (prev :: cur :: rest) = growth_rates (cur :: rest)) ∧
  (∀ counts, growth_rates counts ≠ Raise ZeroDivisionError) ∧
  (∀ m : gmap string Z,
     year_keys m → (2 <= size m)%nat → Z.of_nat (size m) < 2 ^ 53 →
     predict_next_year m ≠ Failed ZeroDivisionError) ∧
  (∀ m : gmap string Z,
     year_keys m → (2 <= size m)%nat →
     valid_transitions (counts_of m) = [] →
     predict_next_year m
     = outcome_of (average_formula (years_of m) (counts_of m))) ∧
  (∀ m : gmap string Z,
     year_keys m → counts_nonneg m → counts_below (2 ^ 53) m →
     (2 <= size m)%nat → Z.of_nat (size m) < 2 ^ 53 →
     valid_transitions (counts_of m) = [] →
     predict_next_year m
     = Predicted (List.last (years_of m) 0 + 1)
                 (sum_ints (counts_of m) / len (counts_of m))) ∧
  (counts_of counts_zero_then_100 = [0; 100] ∧
   growth_rates [0; 100] = Ok [] ∧
   predict_next_year counts_zero_then_100 = Predicted 2022 50).
Proof.
  split_and!.
  - apply growth_rates_spec.
  - intros prev cur rest Hp. rewrite !growth_rates_spec.
    rewrite adjacent_growth_rates_cons. case_decide; [lia|done].
  - intros counts. rewrite growth_rates_spec.
    apply adjacent_growth_rates_no_zero_division.
  - intros m Hk Hs Hs' H. rewrite predict_next_year_sorted in H by done.
    apply outcome_of_Failed in H. revert H.
    apply forecast_no_zero_division.
    + pose proof (length_counts_of m Hk). destruct (counts_of m); [|done].
      simpl in *. lia.
    + unfold len. by rewrite length_counts_of.
  - intros m Hk Hs Hv. rewrite predict_next_year_sorted by done.
    by rewrite forecast_fallback.
  - intros m Hk Hc Hb Hs Hs' Hv.
    destruct (forecast_fallback_bounded (years_of m) (counts_of m))
      as [_ H]; [| | |done|].
    + pose proof (length_counts_of m Hk). destruct (counts_of m); [|done].
      simpl in *. lia.
    + apply counts_of_Forall; [done|].
      intros k c Hkc. split; [by apply (Hc k)|by apply (Hb k)].
    + unfold len. by rewrite length_counts_of.
    + rewrite predict_next_year_sorted by done. by rewrite H.
  - by vm_compute.
  - by vm_compute.
  - by vm_compute.
Qed.

Lemma forecaster_zero_guard_witness :
  predict_next_year counts_zero_then_100
  = outcome_of (average_formula (years_of counts_zero_then_100)
                                (counts_of counts_zero_then_100)).
Proof.
  destruct forecaster_zero_guard as (_ & _ & _ & _ & Hfallback & _).
  apply Hfallback.
  - by_computation.
  - vm_compute. lia.
  - by vm_compute.
Defined.

(** C9: with at least two years and nonnegative counts the prediction is
    nonnegative: every growth rate is at least -1, so is their mean, the
    projected count [last_count * (1 + mean)] is not negative, and on it
    [int()] agrees with [floor]. *)
Theorem forecaster_prediction_nonneg (m : gmap string Z) :
  year_keys m → counts_nonneg m →
  (2 <= size m)%nat → Z.of_nat (size m) < 2 ^ 53 →
  (∀ rates,
     growth_rates (counts_of m) = Ok rates →
     Forall (Float.fin_ge (- (1))%Q) rates ∧
     (rates ≠ [] →
      (∀ avg, average_growth_rate rates = Ok avg → Float.ge_float (- (1))%Q avg) ∧
      (∀ next_count,
         projected_count (counts_of m) rates = Ok next_count →
         (next_count = Float.NaN ∨ Float.ge_float 0%Q next_count) ∧
         Float.to_int next_count = Float.floor next_count))) ∧
  (∀ next_year prediction,
     predict_next_year m = Predicted next_year prediction → 0 <= prediction).
Proof.
  intros Hk Hc Hs Hs'.
  pose proof (counts_of_Forall (λ c, 0 <= c) m Hk Hc) as Hc'.
  assert (len (counts_of m) < 2 ^ 53) as Hlen.
  { unfold len. by rewrite length_counts_of. }
  split.
  - intros rates. rewrite growth_rates_spec. intros E.
    destruct (adjacent_growth_rates_ge _ _ Hc' E) as [Hr Hl].
    split; [done|]. intros Hne.
    assert (len rates < 2 ^ 53) as Hlen'.
    { pose proof (length_valid_transitions (counts_of m)).
      unfold len in *. lia. }
    split.
    + intros avg. by apply average_growth_rate_ge.
    + intros v Hv.
      pose proof (projected_count_ge _ _ _ Hc' Hne Hr Hlen' Hv) as Hge.
      split; [done|by apply to_int_floor].
  - intros y p. rewrite predict_next_year_sorted by done.
    destruct (forecast _ _) as [[y' p']|] eqn:E; simpl; [|done].
    intros [= -> ->]. by apply (forecast_nonneg _ _ _ _ Hc' Hlen E).
Qed.

Lemma forecaster_prediction_nonneg_witness :
  predict_next_year counts_2020_2022 = Predicted 2023 337 ∧ 0 <= 337.
Proof.
  split; [by vm_compute|].
  destruct (forecaster_prediction_nonneg counts_2020_2022) as [_ Hnonneg].
  - by_computation.
  - by_computation.
  - vm_compute. lia.
  - by vm_compute.
  - apply (Hnonneg 2023). by vm_compute.
Defined.

(** * Further properties *)

(** ** Records and the request that produced them *)

Section Records.

Lemma fetch_and_extract_Ok w conf_config url yr papers :
  fetch_and_extract w conf_config url yr = Ok papers →
  ∃ soup, papers = map (paper_of_entry conf_config yr) (find_entries soup).
Proof.
  unfold fetch_and_extract. intros H.
  apply bind_Ok in H as (resp & _ & H).
  apply bind_Ok in H as (_ & _ & H).
  apply bind_Ok in H as (soup & _ & H).
  exists soup. destruct (find_entries soup); by injection H as <-.
Qed.

Lemma get_paper_info_Ok w conf_key yr papers :
  get_paper_info w conf_key yr = Ok papers →
  ∃ conf_config, CONFERENCE_CONFIGS !! conf_key = Some conf_config ∧
    (papers = [] ∨
     ∃ soup, papers = map (paper_of_entry conf_config yr) (find_entries soup)).
Proof.
  unfold get_paper_info.
  destruct (CONFERENCE_CONFIGS !! conf_key) as [conf_config|]; [|done].
  intros H. exists conf_config. split; [done|].
  destruct (fetch_and_extract _ _ _ _) as [ps|e] eqn:E.
  - injection H as <-. right. by eapply fetch_and_extract_Ok.
  - injection H as <-. by left.
Qed.

Lemma get_paper_info_total w conf_key conf_config yr :
  CONFERENCE_CONFIGS !! conf_key = Some conf_config →
  ∃ papers, get_paper_info w conf_key yr = Ok papers.
Proof.
  intros Hc. unfold get_paper_info. rewrite Hc.
  destruct (fetch_and_extract _ _ _ _); eauto.
Qed.

Lemma configured_keys conf_key :
  is_Some (CONFERENCE_CONFIGS !! conf_key) ↔
  conf_key = "aaai" ∨ conf_key = "cvpr" ∨ conf_key = "iccv".
Proof.
  unfold CONFERENCE_CONFIGS. rewrite !lookup_insert_is_Some, lookup_empty.
  split.
  - intros [H | (_ & [H | (_ & [H | (_ & H)])])]; auto. by destruct H.
  - intros [-> | [-> | ->]]; auto 10.
Qed.

Lemma py_join_empty sep l :
  sep ≠ "" → py_join sep l = "" ↔ l = [] ∨ l = [""].
Proof.
  intros Hsep. split.
  - destruct l as [|s [|s' l]]; simpl; [auto..|].
    + intros ->. auto.
    + intros H. exfalso. revert H.
      apply append_nonempty_r, append_nonempty_l, Hsep.
  - by intros [-> | ->].
Qed.

Lemma elem_of_link_candidates_nonempty crit entry h :
  (∀ h, crit h = true → h ≠ "") → h ∈ link_candidates crit entry → h ≠ "".
Proof.
  intros Hcrit. rewrite elem_of_link_candidates.
  intros (_ & _ & _ & _ & Hh). by apply Hcrit.
Qed.

Lemma is_doi_nonempty h : is_doi h = true → h ≠ "".
Proof. unfold is_doi. intros [H _]%andb_prop. by apply eqb_empty_false. Qed.

Lemma is_rec_nonempty h : is_rec h = true → h ≠ "".
Proof. unfold is_rec. intros [H _]%andb_prop. by apply eqb_empty_false. Qed.

End Records.

(** X1: every record that [get_paper_info] returns carries the year of the
    request as text and the display name of the requested conference, and
    the year text reads back as the requested year. *)
Theorem records_match_request w conf_key yr papers :
  get_paper_info w conf_key yr = Ok papers →
  ∃ conf_config,
    CONFERENCE_CONFIGS !! conf_key = Some conf_config ∧
    Forall (λ p, year p = py_str yr ∧ py_int (year p) = Ok yr
                 ∧ conference p = name conf_config) papers.
Proof.
  intros (conf_config & Hc & Hp)%get_paper_info_Ok.
  exists conf_config. split; [done|].
  destruct Hp as [->|(soup & ->)]; [constructor|].
  apply Forall_map, Forall_true. intros entry. simpl.
  by rewrite py_int_str.
Qed.

Lemma records_match_request_witness :
  ∃ conf_config,
    CONFERENCE_CONFIGS !! "aaai" = Some conf_config ∧
    Forall (λ p, year p = py_str 2021 ∧ py_int (year p) = Ok 2021
                 ∧ conference p = name conf_config)
      [Paper "On Engines." "Ada Lovelace" "2021" "AAAI" "https://doi.org/10.1/x";
       Paper "On Engines." "Ada Lovelace" "2021" "AAAI" ""].
Proof.
  apply (records_match_request sample_world "aaai" 2021).
  vm_compute. reflexivity.
Defined.

(** X2: [get_paper_info] raises exactly when the conference key is not in
    the table, and then it is [KeyError]; for the three configured keys it
    returns a list whatever the network and the parser do. *)
Theorem get_paper_info_raises_only_on_unknown_key w conf_key yr :
  (get_paper_info w conf_key yr = Raise KeyError ↔
   ¬ (conf_key = "aaai" ∨ conf_key = "cvpr" ∨ conf_key = "iccv")) ∧
  (∀ e, get_paper_info w conf_key yr = Raise e → e = KeyError) ∧
  ((∃ papers, get_paper_info w conf_key yr = Ok papers) ↔
   conf_key = "aaai" ∨ conf_key = "cvpr" ∨ conf_key = "iccv").
Proof.
  rewrite <- configured_keys. unfold get_paper_info.
  destruct (CONFERENCE_CONFIGS !! conf_key) as [conf_config|] eqn:Hc.
  - destruct (fetch_and_extract _ _ _ _) as [ps|e0].
    + split_and!; [|done|].
      * split; [done|]. intros []. eauto.
      * split; eauto.
    + split_and!; [|done|].
      * split; [done|]. intros []. eauto.
      * split; eauto.
  - split_and!.
    + split; [|done]. by intros _ [? [=]].
    + by intros e [= <-].
    + split; [by intros [? [=]] | by intros [? [=]]].
Qed.

(** X3: when a field of a record is empty.  The title is empty only for a
    title element without visible text, the authors only for a single
    author element whose name has no visible text, the link exactly when
    no anchor qualifies; the year never is.  A missing title or author
    gives the sentinel, not the empty string. *)
Theorem empty_fields_of_a_record conf_config yr entry :
  let p := paper_of_entry conf_config yr entry in
  (title p = "" ↔
   ∃ title_tag, find "span" "class" (String.eqb "title") entry = Some title_tag
                ∧ py_strip (text title_tag) = "") ∧
  (authors p = "" ↔ entry_author_names entry = [""]) ∧
  year p ≠ "" ∧
  (link p = "" ↔
   link_candidates is_doi entry = [] ∧ link_candidates is_rec entry = []).
Proof.
  simpl. split_and!.
  - unfold entry_title.
    destruct (find "span" "class" _ entry) as [title_tag|].
    + split; [by eauto | by intros (? & [= <-] & ?)].
    + split; [done | by intros (? & [=] & _)].
  - unfold entry_authors.
    destruct (entry_author_names entry) as [|a l] eqn:E.
    + split; [done | done].
    + rewrite py_join_empty by done. split; [by intros [|] | auto].
  - apply py_str_nonempty.
  - rewrite entry_link_candidates.
    destruct (link_candidates is_doi entry) as [|doi l] eqn:Hdoi.
    + destruct (link_candidates is_rec entry) as [|rec l] eqn:Hrec.
      * done.
      * split; [|by intros [_ [=]]]. intros ->. exfalso.
        eapply (elem_of_link_candidates_nonempty is_rec entry "");
          [apply is_rec_nonempty | by rewrite Hrec; left | done].
    + split; [|by intros [[=] _]]. intros ->. exfalso.
      eapply (elem_of_link_candidates_nonempty is_doi entry "");
        [apply is_doi_nonempty | by rewrite Hdoi; left | done].
Qed.

(** ** Font discovery *)

Section Fonts.

Lemma first_font_Some path_exists loads font_paths font_path :
  first_font path_exists loads font_paths = Ok (Some font_path) ↔
  ∃ before after,
    font_paths = before ++ font_path :: after ∧
    Forall (λ p, path_exists p = false) before ∧
    path_exists font_path = true ∧ loads font_path = true.
Proof.
  induction font_paths as [|p l IH]; simpl.
  - split; [done|]. by intros ([|??] & ? & ? & _).
  - destruct (path_exists p) eqn:Hp.
    + destruct (loads p) eqn:Hl.
      * split.
        -- intros [= <-]. by exists [], l.
        -- intros ([|p' before] & after & Heq & Hb & He & _).
           ++ by injection Heq as <- _.
           ++ injection Heq as <- _. apply Forall_cons in Hb as [Hb _].
              congruence.
      * split; [done|].
        intros ([|p' before] & after & Heq & Hb & He & Hload).
        -- injection Heq as <- _. congruence.
        -- injection Heq as <- _. apply Forall_cons in Hb as [Hb _].
           congruence.
    + rewrite IH. split.
      * intros (before & after & -> & Hb & He & Hload).
        exists (p :: before), after. by repeat constructor.
      * intros ([|p' before] & after & Heq & Hb & He & Hload).
        -- injection Heq as <- _. congruence.
        -- injection Heq as <- ->. apply Forall_cons in Hb as [_ Hb].
           by exists before, after.
Qed.

End Fonts.

(** X4: [set_chinese_font] returns a font path only on Windows, and then
    the first of its four candidates that exists, provided that font
    loads; a first existing candidate that fails to load ends the search
    without a font, and no later candidate is tried. *)
Theorem set_chinese_font_first_existing os_name path_exists loads :
  (∀ font_path,
     set_chinese_font os_name path_exists loads = Some font_path ↔
     os_name = "nt" ∧
     ∃ before after,
       FONT_PATHS = before ++ font_path :: after ∧
       Forall (λ p, path_exists p = false) before ∧
       path_exists font_path = true ∧ loads font_path = true) ∧
  (∀ before font_path after,
     FONT_PATHS = before ++ font_path :: after →
     Forall (λ p, path_exists p = false) before →
     path_exists font_path = true → loads font_path = false →
     set_chinese_font os_name path_exists loads = None).
Proof.
  unfold set_chinese_font. split.
  - intros font_path. rewrite <- first_font_Some.
    destruct (String.eqb_spec os_name "nt") as [->|Hos].
    + destruct (first_font _ _ _) as [[p|]|e].
      * split; [by intros [= ->] | by intros [_ [= ->]]].
      * split; [done | by intros [_ [=]]].
      * split; [done | by intros [_ [=]]].
    + split; [done | by intros [? _]].
  - intros before font_path after Heq Hb He Hl.
    destruct (String.eqb os_name "nt"); [|done].
    destruct (first_font _ _ _) as [[p|]|e] eqn:E; [|done..].
    apply first_font_Some in E as (before' & after' & Heq' & Hb' & He' & Hl').
    exfalso. rewrite Heq in Heq'. clear Heq.
    revert before' Heq' Hb'.
    induction Hb as [|q before Hq Hb IH]; intros [|q' before'] Heq' Hb'.
    + injection Heq' as -> _. congruence.
    + injection Heq' as -> _. apply Forall_cons in Hb' as [? _]. congruence.
    + injection Heq' as -> _. congruence.
    + injection Heq' as -> Heq'. apply Forall_cons in Hb' as [_ Hb'].
      by eapply IH.
Qed.

(** ** The CSV file determines the records *)

Section Csv.

Implicit Types (s f rest : string) (c : ascii).

Lemma csv_read_plain_field f rest :
  any_char csv_special f = false → after_field rest →
  csv_read_plain (f +:+ rest) = (f, rest).
Proof.
  intros Hf (c & rest' & -> & Hc & _).
  induction f as [|c' f IH].
  - rewrite string_app_nil. simpl. by rewrite Hc.
  - simpl in Hf. apply orb_false_elim in Hf as [Hc' Hf].
    rewrite string_app_cons. simpl. by rewrite Hc', IH.
Qed.

Lemma csv_read_quoted_field f rest :
  after_field rest →
  csv_read_quoted (csv_double_quotes f +:+ String QUOTE rest) = Some (f, rest).
Proof.
  intros (c & rest' & -> & _ & Hc).
  induction f as [|c' f IH].
  - rewrite string_app_nil. simpl. by destruct (Ascii.eqb_spec c QUOTE).
  - simpl. destruct (Ascii.eqb_spec c' QUOTE) as [->|Hc'].
    + rewrite !string_app_cons. simpl. by rewrite IH.
    + rewrite string_app_cons. simpl.
      destruct (Ascii.eqb_spec c' QUOTE); [done|]. by rewrite IH.
Qed.

Lemma csv_read_field_field f rest :
  after_field rest → csv_read_field (csv_field f +:+ rest) = Some (f, rest).
Proof.
  intros Hrest. unfold csv_field.
  destruct (any_char csv_special f) eqn:Hf.
  - rewrite string_app_cons, string_app_assoc, string_app_cons, string_app_nil.
    simpl. by apply csv_read_quoted_field.
  - unfold csv_read_field.
    destruct (f +:+ rest) as [|c s] eqn:E.
    + destruct Hrest as (c & rest' & -> & _). by destruct f.
    + assert (Ascii.eqb c QUOTE = false) as ->.
      { destruct f as [|c' f].
        - destruct Hrest as (c0 & rest' & -> & _ & Hc0).
          injection E as -> _. by apply Ascii.eqb_neq.
        - injection E as -> _. simpl in Hf.
          apply orb_false_elim in Hf as [Hc _].
          apply Ascii.eqb_neq. by intros ->. }
      rewrite <- E. by rewrite csv_read_plain_field.
Qed.

Lemma after_field_comma rest : after_field (String "," rest).
Proof. by exists ","%char, rest. Qed.

Lemma after_field_CRLF rest : after_field (CRLF +:+ rest).
Proof. by eexists "013"%char, _. Qed.

(** Two fields followed by a separator are equal when the texts are. *)
Lemma csv_field_inj f1 f2 rest1 rest2 :
  after_field rest1 → after_field rest2 →
  csv_field f1 +:+ rest1 = csv_field f2 +:+ rest2 →
  f1 = f2 ∧ rest1 = rest2.
Proof.
  intros H1 H2 Heq. apply (f_equal csv_read_field) in Heq.
  rewrite !csv_read_field_field in Heq by done. by injection Heq.
Qed.

Lemma csv_writerow_fields f1 f2 row :
  csv_writerow (f1 :: f2 :: row)
  = py_join "," (map csv_field (f1 :: f2 :: row)) +:+ CRLF.
Proof. by destruct f1. Qed.

Lemma csv_writerow_paper p rest :
  csv_writerow (dict_to_list p) +:+ rest
  = csv_field (title p) +:+ String ","
      (csv_field (authors p) +:+ String ","
         (csv_field (year p) +:+ String ","
            (csv_field (conference p) +:+ String ","
               (csv_field (link p) +:+ (CRLF +:+ rest))))).
Proof.
  unfold dict_to_list. rewrite csv_writerow_fields. cbn [map py_join].
  by rewrite !string_app_assoc.
Qed.

Lemma csv_writerow_inj p1 p2 rest1 rest2 :
  csv_writerow (dict_to_list p1) +:+ rest1
  = csv_writerow (dict_to_list p2) +:+ rest2 →
  p1 = p2 ∧ rest1 = rest2.
Proof.
  rewrite !csv_writerow_paper. intros H.
  apply csv_field_inj in H as [Ht [= H]]; [|apply after_field_comma..].
  apply csv_field_inj in H as [Ha [= H]]; [|apply after_field_comma..].
  apply csv_field_inj in H as [Hy [= H]]; [|apply after_field_comma..].
  apply csv_field_inj in H as [Hc [= H]]; [|apply after_field_comma..].
  apply csv_field_inj in H as [Hl H]; [|apply after_field_CRLF..].
  apply String.app_inj in H. split; [|done].
  destruct p1, p2; simpl in *; congruence.
Qed.

Lemma csv_writerow_paper_nonempty p rest :
  csv_writerow (dict_to_list p) +:+ rest ≠ "".
Proof.
  rewrite csv_writerow_paper.
  destruct (csv_field (title p)); discriminate.
Qed.

Lemma csv_rows_inj papers1 papers2 :
  py_concat (map (λ p, csv_writerow (dict_to_list p)) papers1)
  = py_concat (map (λ p, csv_writerow (dict_to_list p)) papers2) →
  papers1 = papers2.
Proof.
  revert papers2. induction papers1 as [|p1 l1 IH]; intros [|p2 l2]; simpl.
  - done.
  - intros H. symmetry in H. by apply csv_writerow_paper_nonempty in H.
  - intros H. by apply csv_writerow_paper_nonempty in H.
  - intros [-> H]%csv_writerow_inj. f_equal. by apply IH.
Qed.

End Csv.

(** X5: the text written by [save_to_csv] determines the records: two
    lists of records with the same CSV text are equal, field by field and
    in the same order, whatever commas, quotes or line breaks the fields
    hold. *)
Theorem csv_text_determines_records papers1 papers2 :
  csv_text papers1 = csv_text papers2 → papers1 = papers2.
Proof.
  unfold csv_text. intros H. apply String.app_inj in H.
  by apply csv_rows_inj.
Qed.

Lemma csv_text_determines_records_witness :
  [Paper "a,b" "x; y" "2020" "AAAI" ""]
  = [Paper "a,b" "x; y" "2020" "AAAI" ""].
Proof.
  apply (csv_text_determines_records
           [Paper "a,b" "x; y" "2020" "AAAI" ""]
           [Paper "a,b" "x; y" "2020" "AAAI" ""]).
  reflexivity.
Defined.

(** ** Keyword ranking *)

Section Ranking.

Implicit Types (items l : list (string * Z)) (words : list string).

(** The ordered items hold the counts of the [Counter]. *)
Lemma list_to_map_bump w items :
  (list_to_map (bump w items) : gmap string Z) = tally (list_to_map items) w.
Proof.
  induction items as [|[k c] items IH]; simpl.
  - unfold tally. by rewrite lookup_empty.
  - destruct (String.eqb_spec k w) as [->|Hk]; simpl.
    + unfold tally. rewrite lookup_insert_eq. simpl.
      by rewrite insert_insert_eq.
    + rewrite IH. unfold tally. rewrite lookup_insert_ne by done.
      by apply insert_insert_ne.
Qed.

Lemma keys_bump w items :
  (bump w items).*1
  = items.*1 ++ (if decide (w ∈ items.*1) then [] else [w]).
Proof.
  induction items as [|[k c] items IH]; [done|]. cbn [bump].
  destruct (String.eqb_spec k w) as [->|Hk]; rewrite !fmap_cons; cbn [fst].
  - rewrite decide_True by left. by rewrite app_nil_r.
  - rewrite IH. rewrite <- app_comm_cons. f_equal. f_equal.
    destruct (decide (w ∈ items.*1)) as [Hw|Hw].
    + by rewrite decide_True by by right.
    + rewrite decide_False; [done|].
      intros [?|?]%elem_of_cons; [congruence | done].
Qed.

Lemma counter_items_snoc words w :
  counter_items (words ++ [w]) = bump w (counter_items words).
Proof. unfold counter_items. by rewrite foldl_app. Qed.

Lemma list_to_map_counter_items words :
  list_to_map (counter_items words) = Counter words.
Proof.
  induction words as [|w words IH] using rev_ind; [done|].
  rewrite counter_items_snoc, list_to_map_bump, IH.
  unfold Counter. by rewrite foldl_app.
Qed.

Lemma NoDup_counter_items words : NoDup (counter_items words).*1.
Proof.
  induction words as [|w words IH] using rev_ind; [constructor|].
  rewrite counter_items_snoc, keys_bump.
  case_decide as Hw; [by rewrite app_nil_r|].
  apply NoDup_app. split_and!; [done| |apply NoDup_singleton].
  intros k Hk ->%list_elem_of_singleton. done.
Qed.

Lemma elem_of_counter_items words w c :
  (w, c) ∈ counter_items words ↔ Counter words !! w = Some c.
Proof.
  rewrite <- list_to_map_counter_items.
  apply elem_of_list_to_map, NoDup_counter_items.
Qed.

(** The keys are the words in the order of their first occurrence. *)
Lemma keys_counter_items words :
  (counter_items words).*1 = reverse (remove_dups (reverse words)).
Proof.
  induction words as [|w words IH] using rev_ind; [done|].
  rewrite counter_items_snoc, keys_bump, reverse_snoc. simpl.
  rewrite IH.
  destruct (decide_rel elem_of w (reverse words)) as [Hw|Hw].
  - rewrite decide_True; [by rewrite app_nil_r|].
    by rewrite elem_of_reverse, elem_of_remove_dups.
  - rewrite decide_False; [by rewrite reverse_cons|].
    by rewrite elem_of_reverse, elem_of_remove_dups.
Qed.

Lemma list_to_map_keyword_items papers :
  list_to_map (keyword_items papers) = extract_keywords papers.
Proof.
  destruct papers; [done|]. apply list_to_map_counter_items.
Qed.

Lemma keyword_items_counter_items papers :
  keyword_items papers
  = counter_items (filter keep_word (title_words papers)).
Proof. by destruct papers. Qed.

(** Insertion keeps the items, the order by count, and the order among
    the items of equal count. *)
Lemma insert_by_count_Permutation x l : insert_by_count x l ≡ₚ x :: l.
Proof.
  induction l as [|y l IH]; simpl; [done|].
  destruct (y.2 <=? x.2); [done|]. by rewrite IH, Permutation_swap.
Qed.

Lemma sorted_by_count_Permutation l : sorted_by_count l ≡ₚ l.
Proof.
  induction l as [|x l IH]; simpl; [done|].
  by rewrite insert_by_count_Permutation, IH.
Qed.

Lemma insert_by_count_sorted x l :
  StronglySorted count_ge l → StronglySorted count_ge (insert_by_count x l).
Proof.
  induction 1 as [|y l Hl IH Hy]; simpl; [by repeat constructor|].
  destruct (Z.leb_spec y.2 x.2) as [Hle|Hlt].
  - constructor; [by constructor|]. constructor; [done|].
    eapply Forall_impl; [exact Hy|]. unfold count_ge. simpl. lia.
  - constructor; [done|].
    rewrite insert_by_count_Permutation. constructor; [|done].
    unfold count_ge. lia.
Qed.

Lemma sorted_by_count_sorted l : StronglySorted count_ge (sorted_by_count l).
Proof.
  induction l as [|x l IH]; simpl; [constructor|].
  by apply insert_by_count_sorted.
Qed.

Lemma insert_by_count_filter c x l :
  filter (λ y, y.2 = c) (insert_by_count x l)
  = filter (λ y, y.2 = c) (x :: l).
Proof.
  induction l as [|y l IH]; simpl; [done|].
  destruct (Z.leb_spec y.2 x.2) as [Hle|Hlt]; [done|].
  rewrite (filter_cons _ y), IH, !filter_cons.
  repeat case_decide; (done || lia).
Qed.

Lemma sorted_by_count_filter c l :
  filter (λ y, y.2 = c) (sorted_by_count l) = filter (λ y, y.2 = c) l.
Proof.
  induction l as [|x l IH]; simpl; [done|].
  by rewrite insert_by_count_filter, !filter_cons, IH.
Qed.

Lemma filter_take_prefix {A} (P : A → Prop) `{∀ x, Decision (P x)}
    n (l : list A) :
  filter P (take n l) `prefix_of` filter P l.
Proof.
  exists (filter P (drop n l)). by rewrite <- filter_app, take_drop.
Qed.

Lemma most_common_top n l x y :
  x ∈ most_common n l → y ∈ l → y ∉ most_common n l → y.2 <= x.2.
Proof.
  unfold most_common. intros Hx Hy Hny.
  rewrite <- (sorted_by_count_Permutation l) in Hy.
  rewrite <- (take_drop (Z.to_nat n) (sorted_by_count l)) in Hy.
  apply elem_of_app in Hy as [Hy|Hy]; [done|].
  pose proof (sorted_by_count_sorted l) as Hs.
  rewrite <- (take_drop (Z.to_nat n) (sorted_by_count l)) in Hs.
  by apply (StronglySorted_app_1_elem_of _ _ _ x y) in Hs.
Qed.

Lemma most_common_sublist n l : most_common n l ⊆+ l.
Proof.
  unfold most_common. rewrite <- (sorted_by_count_Permutation l) at 2.
  apply sublist_submseteq, sublist_take.
Qed.

End Ranking.

(** X6: the ranking behind the keyword bar chart and the listing.  For
    every [n], [most_common n] of the keywords of the papers has [n]
    entries, or all keywords if there are fewer; no word is listed twice;
    every entry is a keyword with its frequency; the frequencies do not
    increase down the list; and a keyword that is left out is no more
    frequent than any listed one. *)
Theorem keyword_ranking papers n :
  let top := most_common n (keyword_items papers) in
  length top = Nat.min (Z.to_nat n) (size (extract_keywords papers)) ∧
  NoDup top.*1 ∧
  (∀ w c, (w, c) ∈ top → extract_keywords papers !! w = Some c) ∧
  StronglySorted count_ge top ∧
  (∀ w c x, extract_keywords papers !! w = Some c → (w, c) ∉ top →
            x ∈ top → c <= x.2).
Proof.
  intros top.
  assert (NoDup (keyword_items papers).*1) as Hnd.
  { rewrite keyword_items_counter_items. apply NoDup_counter_items. }
  assert (∀ w c, (w, c) ∈ keyword_items papers
                 ↔ extract_keywords papers !! w = Some c) as Hin.
  { intros w c. rewrite <- list_to_map_keyword_items.
    by apply elem_of_list_to_map. }
  pose proof (most_common_sublist n (keyword_items papers)) as Hsub.
  split_and!.
  - unfold top, most_common. rewrite length_take.
    rewrite sorted_by_count_Permutation.
    rewrite <- list_to_map_keyword_items, map_size_list_to_map by done.
    done.
  - apply (sublist_NoDup _ (sorted_by_count (keyword_items papers)).*1).
    + by rewrite sorted_by_count_Permutation.
    + apply fmap_sublist, sublist_take.
  - intros w c Hw. apply Hin. by eapply elem_of_submseteq.
  - unfold top, most_common.
    pose proof (sorted_by_count_sorted (keyword_items papers)) as Hs.
    rewrite <- (take_drop (Z.to_nat n)) in Hs.
    by apply StronglySorted_app_1_l in Hs.
  - intros w c x Hw Hnot Hx.
    apply (most_common_top n (keyword_items papers) x (w, c)); [done| |done].
    by apply Hin.
Qed.

(** X7: ties in the ranking.  Keywords of equal frequency are listed in
    the order of their first occurrence in the titles: the entries of any
    one frequency form an initial part of the keywords of that frequency
    in first-occurrence order. *)
Theorem keyword_ranking_ties papers n c :
  let words := filter keep_word (title_words papers) in
  let top := most_common n (keyword_items papers) in
  (keyword_items papers).*1 = reverse (remove_dups (reverse words)) ∧
  filter (λ x, x.2 = c) top
    `prefix_of` filter (λ x, x.2 = c) (keyword_items papers).
Proof.
  intros words top. split.
  - rewrite keyword_items_counter_items. apply keys_counter_items.
  - unfold top, most_common.
    rewrite <- (sorted_by_count_filter c (keyword_items papers)).
    apply filter_take_prefix.
Qed.

(** ** Keywords of several papers *)

Section KeywordsOfPapers.

Implicit Types (s : string) (papers : list paper).

(** A space is neither cased nor case-ignorable: no context of a capital
    sigma reaches across it. *)
Lemma meets_cased_app_space l1 l2 :
  meets_cased (l1 ++ 0x20%N :: l2) = meets_cased l1.
Proof.
  induction l1 as [|c l1 IH]; [done|]. cbn [app meets_cased]. by rewrite IH.
Qed.

Lemma lower_points_before before before' l :
  meets_cased before = meets_cased before' →
  lower_points before l = lower_points before' l.
Proof.
  revert before before'. induction l as [|c l IH]; intros b b' Hb; [done|].
  cbn [lower_points]. unfold lower_sigma. rewrite Hb. f_equal.
  apply IH. cbn [meets_cased]. by rewrite Hb.
Qed.

Lemma lower_points_app_space before l1 l2 :
  lower_points before (l1 ++ 0x20%N :: l2)
  = lower_points before l1 ++ 0x20%N :: lower_points [] l2.
Proof.
  revert before. induction l1 as [|c l1 IH]; intros before.
  - cbn [app lower_points].
    replace (lower_points (32%N :: before) l2) with (lower_points [] l2)
      by (by apply lower_points_before).
    done.
  - cbn [app lower_points]. rewrite IH, app_assoc. do 2 f_equal.
    unfold lower_sigma. by rewrite meets_cased_app_space.
Qed.

Lemma py_lower_app_space s1 s2 :
  py_lower (s1 +:+ String " " s2) = py_lower s1 +:+ String " " (py_lower s2).
Proof.
  unfold py_lower.
  by rewrite code_points_app_space, lower_points_app_space, of_code_points_app.
Qed.

Lemma sub_app_space s1 s2 :
  sub_nonword_nonspace (s1 +:+ String " " s2)
  = sub_nonword_nonspace s1 +:+ String " " (sub_nonword_nonspace s2).
Proof.
  unfold sub_nonword_nonspace.
  by rewrite code_points_app_space, map_app, of_code_points_app.
Qed.

Lemma split_points_nonempty c l :
  py_isspace c = false → split_points (c :: l) ≠ [].
Proof.
  intros Hc. cbn [split_points]. rewrite Hc. destruct l as [|c' l']; [done|].
  destruct (py_isspace c'); [done|]. by destruct (split_points _).
Qed.

(** A space between two texts separates their tokens. *)
Lemma split_points_app_space l1 l2 :
  split_points (l1 ++ 0x20%N :: l2) = split_points l1 ++ split_points l2.
Proof.
  induction l1 as [|c l1 IH]; [done|].
  cbn [app split_points].
  destruct (py_isspace c) eqn:Hc; [done|].
  destruct l1 as [|c' l1'].
  - done.
  - cbn [app] in *.
    destruct (py_isspace c') eqn:Hc'; [by rewrite IH|].
    rewrite IH.
    pose proof (split_points_nonempty c' l1' Hc') as Hne.
    by destruct (split_points (c' :: l1')).
Qed.

Lemma py_split_app_space s1 s2 :
  py_split (s1 +:+ String " " s2) = py_split s1 ++ py_split s2.
Proof.
  unfold py_split.
  by rewrite code_points_app_space, split_points_app_space, fmap_app.
Qed.

Lemma py_split_join l :
  py_split (py_join " " l) = concat (map py_split l).
Proof.
  induction l as [|s [|s' l] IH]; [done| |].
  - simpl. by rewrite app_nil_r.
  - cbn [py_join map concat] in *.
    change (" " +:+ ?x) with (String " " x). by rewrite py_split_app_space, IH.
Qed.

(** A function that respects the separating space respects the join. *)
Lemma join_space_map (f : string → string) l :
  f "" = "" →
  (∀ s1 s2, f (s1 +:+ String " " s2) = f s1 +:+ String " " (f s2)) →
  f (py_join " " l) = py_join " " (map f l).
Proof.
  intros H0 Hf. induction l as [|s [|s' l] IH]; [done..|].
  cbn [py_join map] in *.
  change (" " +:+ ?x) with (String " " x). by rewrite Hf, IH.
Qed.

(** The tokens of the joined titles are the tokens of every title. *)
Lemma title_words_concat papers :
  title_words papers
  = concat (map (λ p, py_split (sub_nonword_nonspace (py_lower (title p))))
                papers).
Proof.
  unfold title_words.
  rewrite (join_space_map py_lower) by (done || apply py_lower_app_space).
  rewrite (join_space_map sub_nonword_nonspace)
    by (done || apply sub_app_space).
  rewrite py_split_join, !map_map. done.
Qed.

Lemma title_words_app papers1 papers2 :
  title_words (papers1 ++ papers2)
  = title_words papers1 ++ title_words papers2.
Proof. by rewrite !title_words_concat, map_app, concat_app. Qed.

Lemma Counter_default words w :
  default 0 (Counter words !! w)
  = Z.of_nat (length (filter (λ x, x = w) words)).
Proof.
  pose proof (foldl_tally_lookup id words ∅ w) as H.
  by rewrite lookup_empty in H.
Qed.

Lemma Counter_Permutation words1 words2 :
  words1 ≡ₚ words2 → Counter words1 = Counter words2.
Proof.
  intros Hp. apply map_eq. intros w. rewrite !Counter_lookup.
  by rewrite Hp.
Qed.

Lemma count_years_Permutation papers1 papers2 :
  papers1 ≡ₚ papers2 → count_years papers1 = count_years papers2.
Proof.
  intros Hp. apply map_eq. intros y. rewrite !count_years_lookup.
  by rewrite Hp.
Qed.

End KeywordsOfPapers.

(** X8: the frequencies of the Word Frequency Map add up to the number of
    tokens that pass the stop-word and length filter, and every frequency
    is at least 1. *)
Theorem keyword_frequencies_total papers :
  total (extract_keywords papers)
  = Z.of_nat (length (filter keep_word (title_words papers))) ∧
  (∀ w c, extract_keywords papers !! w = Some c → 1 <= c).
Proof.
  rewrite extract_keywords_Counter. split.
  - unfold Counter. rewrite (foldl_tally_total id), total_empty. lia.
  - apply (foldl_tally_positive id). intros k c. by rewrite lookup_empty.
Qed.

(** X9: the keywords do not depend on the case of the titles: papers
    whose titles agree after lowercasing have the same Word Frequency
    Map. *)
Theorem keywords_ignore_case papers1 papers2 :
  map (λ p, py_lower (title p)) papers1
  = map (λ p, py_lower (title p)) papers2 →
  extract_keywords papers1 = extract_keywords papers2.
Proof.
  intros H. rewrite !extract_keywords_Counter, !title_words_concat.
  do 3 f_equal.
  apply (f_equal (map (λ s, py_split (sub_nonword_nonspace s)))) in H.
  by rewrite !map_map in H.
Qed.

Lemma keywords_ignore_case_witness :
  extract_keywords [titled "Deep Learning for X"]
  = extract_keywords [titled "DEEP learning FOR x"].
Proof.
  apply (keywords_ignore_case [titled "Deep Learning for X"]
                              [titled "DEEP learning FOR x"]).
  reflexivity.
Defined.

(** X10: titles are tokenised one by one: a word never spans two titles,
    so the tokens of two lists of papers are the tokens of the first
    followed by those of the second, and every frequency is the sum of the
    frequencies in the two lists. *)
Theorem keywords_of_papers_add papers1 papers2 :
  title_words (papers1 ++ papers2)
  = title_words papers1 ++ title_words papers2 ∧
  (∀ w, default 0 (extract_keywords (papers1 ++ papers2) !! w)
        = default 0 (extract_keywords papers1 !! w)
          + default 0 (extract_keywords papers2 !! w)).
Proof.
  split; [apply title_words_app|]. intros w.
  rewrite !extract_keywords_Counter, !Counter_default, title_words_app.
  rewrite !filter_app, length_app. lia.
Qed.

(** X11: the order of the records is immaterial to both counting steps:
    a reordered list of papers gives the same Year Count Map and the same
    Word Frequency Map. *)
Theorem order_of_papers_immaterial papers1 papers2 :
  papers1 ≡ₚ papers2 →
  (∀ render1 render2,
     plot_paper_trend render1 papers1 = plot_paper_trend render2 papers2) ∧
  extract_keywords papers1 = extract_keywords papers2.
Proof.
  intros Hp. split.
  - intros render1 render2. rewrite !plot_paper_trend_count_years.
    by apply count_years_Permutation.
  - rewrite !extract_keywords_Counter. apply Counter_Permutation.
    rewrite !title_words_concat. by rewrite Hp.
Qed.

Lemma order_of_papers_immaterial_witness :
  extract_keywords [titled "graph neural networks"; titled "deep learning"]
  = extract_keywords [titled "deep learning"; titled "graph neural networks"].
Proof.
  apply (order_of_papers_immaterial
           [titled "graph neural networks"; titled "deep learning"]
           [titled "deep learning"; titled "graph neural networks"]).
  apply Permutation_swap.
Defined.

(** ** Outcomes of the Forecaster *)

Section Outcomes.

Implicit Types (m : gmap string Z).

Lemma traverse_Raise {A B} (f : A → result B) l e :
  (∀ a e', f a = Raise e' → e' = e) →
  Exists (λ a, ∃ e', f a = Raise e') l → traverse f l = Raise e.
Proof.
  intros Hf. induction 1 as [a l (e' & He')|a l _ IH]; simpl.
  - rewrite He'. by rewrite (Hf _ _ He').
  - destruct (f a) as [b|e'] eqn:E; cbn [mbind result_bind].
    + by rewrite IH.
    + by rewrite (Hf _ _ E).
Qed.

Lemma traverse_total {A B} (f : A → result B) l :
  Forall (λ a, ∃ b, f a = Ok b) l →
  ∃ rs, traverse f l = Ok rs ∧ Forall2 (λ a r, f a = Ok r) l rs.
Proof.
  intros H.
  destruct (traverse_Forall f (λ _, True) l) as (rs & Hrs & _).
  { eapply Forall_impl; [exact H|]. intros a [b Hb]. eauto. }
  exists rs. split; [done|]. by apply traverse_Ok.
Qed.

Lemma py_int_Raise s e : py_int s = Raise e → e = ValueError.
Proof.
  unfold py_int. cbv zeta.
  destruct (match rstrip _ _ with
            | [] => _
            | _ => _
            end) as [neg body].
  destruct (digits_of false _ ≫= NilEmpty.uint_of_string); [done|].
  by intros [= <-].
Qed.

Lemma getitem_Raise m k e : getitem m k = Raise e → e = KeyError.
Proof. unfold getitem. destruct (m !! k); [done|]. by intros [= <-]. Qed.

Lemma outcome_of_Predicted r y p : outcome_of r = Predicted y p → r = Ok (y, p).
Proof. destruct r as [[y' p']|e]; [|done]. by intros [= -> ->]. Qed.

Lemma forecast_next_year years counts y p :
  forecast years counts = Ok (y, p) → y = List.last years 0 + 1.
Proof.
  unfold forecast. intros H.
  apply bind_Ok in H as (rates & _ & H).
  destruct rates as [|r rates].
  - apply bind_Ok in H as (avg & _ & H).
    apply bind_Ok in H as (p' & _ & H). by injection H as <- _.
  - apply bind_Ok in H as (v & _ & H).
    apply bind_Ok in H as (p' & _ & H). by injection H as <- _.
Qed.

(** A prediction comes from keys that all read as integers and whose
    canonical texts are keys. *)
Lemma predict_next_year_Predicted m y p :
  predict_next_year m = Predicted y p →
  (2 <= size m)%nat ∧
  ∃ ys counts,
    Forall2 (λ k y, py_int k = Ok y) (dict_keys m) ys ∧
    forecast (merge_sort Z.le ys) counts = Ok (y, p).
Proof.
  unfold predict_next_year. case_bool_decide as Hsize; [done|].
  intros H%outcome_of_Predicted.
  apply bind_Ok in H as (ys & Hys & H).
  apply bind_Ok in H as (counts & _ & H).
  split; [lia|]. exists ys, counts. split; [|done]. by apply traverse_Ok.
Qed.

Lemma sorted_last_max (l : list Z) x :
  StronglySorted Z.le l → x ∈ l → x <= List.last l 0.
Proof.
  destruct l as [|z l] using rev_ind; [by intros _ ?%elem_of_nil|].
  rewrite last_last. intros Hs [Hx|Hx]%elem_of_app.
  - apply (StronglySorted_app_1_elem_of _ _ _ x z) in Hs; [done..|left].
  - apply list_elem_of_singleton in Hx as ->. lia.
Qed.

Lemma last_elem_of (l : list Z) : l ≠ [] → List.last l 0 ∈ l.
Proof.
  destruct l as [|z l] using rev_ind; [done|]. intros _.
  rewrite last_last. apply elem_of_app. right. left.
Qed.

End Outcomes.

(** X12: when the Forecaster makes no prediction.  It skips exactly the
    maps with fewer than two keys.  With two keys or more, a key that
    [int] does not read makes it fail with [ValueError]; if [int] reads
    all keys (none of them longer than 4300 characters, the default limit
    of the interpreter on the digits of a numeral) but the decimal text of
    one of them is not a key (a year written with a sign, a leading zero,
    spaces or the digits of another script), it fails with [KeyError].
    Both are caught and only logged. *)
Theorem predict_next_year_without_prediction (m : gmap string Z) :
  (predict_next_year m = Skipped ↔ (size m < 2)%nat) ∧
  ((2 <= size m)%nat →
   (∃ k e, is_Some (m !! k) ∧ py_int k = Raise e) →
   predict_next_year m = Failed ValueError) ∧
  ((2 <= size m)%nat →
   (∀ k, is_Some (m !! k) → py_len k <= 4300 ∧ ∃ y, py_int k = Ok y) →
   (∃ k y, is_Some (m !! k) ∧ py_int k = Ok y ∧ m !! py_str y = None) →
   predict_next_year m = Failed KeyError).
Proof.
  unfold predict_next_year. split_and!.
  - case_bool_decide as Hsize; [done|]. split; [|lia].
    by destruct (_ ≫= _) as [[]|].
  - intros Hsize (k & e & Hk & He).
    rewrite bool_decide_eq_false_2 by lia.
    rewrite (traverse_Raise py_int _ ValueError); [done|apply py_int_Raise|].
    apply Exists_exists. exists k. split; [by apply elem_of_dict_keys|eauto].
  - intros Hsize Hall (k & y & Hk & Hy & Hmiss).
    rewrite bool_decide_eq_false_2 by lia.
    destruct (traverse_total py_int (dict_keys m)) as (ys & -> & Hys).
    { apply Forall_forall. intros k' Hk'. by apply Hall, elem_of_dict_keys. }
    cbn [mbind result_bind].
    rewrite (traverse_Raise _ _ KeyError); [done|intros a e'; apply getitem_Raise|].
    apply Exists_exists. exists y. split.
    + rewrite merge_sort_Permutation.
      apply elem_of_dict_keys in Hk.
      apply list_elem_of_lookup in Hk as [i Hi].
      destruct (Forall2_lookup_l _ _ _ _ _ Hys Hi) as (y' & Hy' & Hky').
      rewrite Hy in Hky'. injection Hky' as <-.
      by eapply list_elem_of_lookup_2.
    + exists KeyError. unfold getitem. by rewrite Hmiss.
Qed.

Lemma predict_next_year_without_prediction_witness :
  predict_next_year (<["2020" := 1]> (<["n/a" := 2]> ∅)) = Failed ValueError
  ∧ predict_next_year (<["02020" := 1]> (<["2021" := 2]> ∅)) = Failed KeyError
  ∧ predict_next_year (<[String "028" "2020" := 1]> (<["2021" := 2]> ∅))
    = Failed ValueError.
Proof.
  split_and!.
  - apply predict_next_year_without_prediction.
    + vm_compute. lia.
    + exists "n/a", ValueError.
      split; [eexists; vm_compute; reflexivity | by vm_compute].
  - apply predict_next_year_without_prediction.
    + vm_compute. lia.
    + intros k Hk.
      apply lookup_insert_is_Some in Hk as [<- | (_ & Hk)];
        [split; [by vm_compute|by eexists]|].
      apply lookup_insert_is_Some in Hk as [<- | (_ & Hk)];
        [split; [by vm_compute|by eexists]|].
      by destruct Hk.
    + exists "02020", 2020.
      split_and!; [eexists; vm_compute; reflexivity | by vm_compute..].
  - apply predict_next_year_without_prediction.
    + vm_compute. lia.
    + exists (String "028" "2020"), ValueError.
      split; [eexists; vm_compute; reflexivity | by vm_compute].
Defined.

(** X13: the predicted year is the latest year of the map plus one: when
    a prediction is made, every key reads as a year before the predicted
    one and some key reads as the year just before it, whatever gaps the
    years have. *)
Theorem predicted_year_follows_latest (m : gmap string Z) next_year prediction :
  predict_next_year m = Predicted next_year prediction →
  (∃ k, is_Some (m !! k) ∧ py_int k = Ok (next_year - 1)) ∧
  (∀ k, is_Some (m !! k) → ∃ y, py_int k = Ok y ∧ y < next_year).
Proof.
  intros (Hsize & ys & counts & Hys & Hf)%predict_next_year_Predicted.
  apply forecast_next_year in Hf as ->.
  pose proof (merge_sort_Permutation Z.le ys) as Hperm.
  assert (length ys = size m) as Hlen.
  { rewrite <- (Forall2_length _ _ _ Hys). unfold dict_keys.
    by rewrite length_fmap, length_map_to_list. }
  assert (merge_sort Z.le ys ≠ []) as Hne.
  { intros E. rewrite E in Hperm. apply Permutation_nil_l in Hperm.
    rewrite <- Hperm in Hlen. simpl in Hlen. lia. }
  pose proof (StronglySorted_merge_sort Z.le ys) as Hs.
  split.
  - pose proof (last_elem_of _ Hne) as Hin.
    set (z := List.last (merge_sort Z.le ys) 0) in *. rewrite Hperm in Hin.
    apply list_elem_of_lookup in Hin as [i Hi].
    destruct (Forall2_lookup_r _ _ _ _ _ Hys Hi) as (k & Hk & Hky).
    exists k. split.
    + apply elem_of_dict_keys. by eapply list_elem_of_lookup_2.
    + rewrite Hky. f_equal. lia.
  - intros k Hk. apply elem_of_dict_keys, list_elem_of_lookup in Hk as [i Hi].
    destruct (Forall2_lookup_l _ _ _ _ _ Hys Hi) as (y & Hy & Hky).
    exists y. split; [done|].
    assert (y ∈ merge_sort Z.le ys) as Hin.
    { rewrite Hperm. by eapply list_elem_of_lookup_2. }
    pose proof (sorted_last_max _ _ Hs Hin). lia.
Qed.

Lemma predicted_year_follows_latest_witness :
  (∃ k, is_Some (counts_with_gap !! k) ∧ py_int k = Ok (2024 - 1)) ∧
  (∀ k, is_Some (counts_with_gap !! k) → ∃ y, py_int k = Ok y ∧ y < 2024).
Proof.
  apply (predicted_year_follows_latest counts_with_gap 2024 0).
  vm_compute. reflexivity.
Defined.

(** ** Histories with a constant integer ratio

    Integers below 2^53 are binary64 numbers, so the arithmetic of the
    Forecaster is exact on them. *)

Section ExactArithmetic.
Import Float.

Implicit Types (q : Q) (z r a k : Z).

Lemma round_integer q z :
  Z.abs z < 2 ^ 53 → (q == inject_Z z)%Q → round q = Fin (inject_Z z).
Proof.
  intros Hz Hq.
  assert (round q = Fin (round_core q)) as ->.
  { apply (round_finite q (inject_Z (Z.abs z))).
    - apply on_grid_inject_Z. lia.
    - apply inject_Z_lt_pow2_1024. lia.
    - rewrite Hq, Qabs_inject_Z. apply Qle_refl. }
  f_equal.
  assert (round_core q == inject_Z z)%Q as Hrc; cycle 1.
  { rewrite <- (inject_Z_Qred z). unfold round_core in *.
    apply Qred_complete. rewrite <- Hrc. symmetry. apply Qred_correct. }
  destruct (Qeq_dec q 0) as [H0|H0].
  - pose proof (round_core_nonneg q) as H1.
    pose proof (round_core_nonpos q) as H2.
    assert (0 <= round_core q)%Q by (apply H1; lra).
    assert (round_core q <= 0)%Q by (apply H2; lra). lra.
  - destruct (round_core_grid q (inject_Z z)) as [Hu Hl].
    + by apply on_grid_inject_Z.
    + done.
    + rewrite Hq. apply Qle_refl.
    + assert (round_core q <= inject_Z z)%Q by (apply Hu; lra).
      assert (inject_Z z <= round_core q)%Q by (apply Hl; lra). lra.
Qed.

Lemma of_int_integer z : Z.abs z < 2 ^ 53 → of_int z = Ok (Fin (inject_Z z)).
Proof. intros Hz. unfold of_int. by rewrite (round_integer _ z). Qed.

Lemma inject_Z_nonzero z : z ≠ 0 → ¬ (inject_Z z == 0)%Q.
Proof. intros Hz H. by apply (inject_Z_injective z 0) in H. Qed.

Lemma true_div_ratio prev k :
  0 < prev → Z.abs (k - 1) < 2 ^ 53 →
  true_div (k * prev - prev) prev = Ok (Fin (inject_Z (k - 1))).
Proof.
  intros Hp Hk. unfold true_div.
  destruct (Z.eqb_spec prev 0) as [|Hne]; [lia|].
  rewrite (round_integer _ (k - 1)); [done..|].
  replace (k * prev - prev) with ((k - 1) * prev) by lia.
  rewrite inject_Z_mult. field. by apply inject_Z_nonzero.
Qed.

Lemma foldl_add_integers r rates a :
  Forall (λ x, x = Fin (inject_Z r)) rates →
  0 <= r → 0 <= a → a + len rates * r < 2 ^ 53 →
  foldl add (Fin (inject_Z a)) rates = Fin (inject_Z (a + len rates * r)).
Proof.
  intros Hrates Hr. revert a.
  induction Hrates as [|x rates -> _ IH]; intros a Ha Hb.
  - simpl. do 2 f_equal. unfold len. simpl. lia.
  - unfold len in *. rewrite length_cons, Nat2Z.inj_succ in *.
    cbn [foldl add].
    rewrite (round_integer _ (a + r)); [|nia|by rewrite inject_Z_plus].
    rewrite IH by nia. do 2 f_equal. lia.
Qed.

Lemma average_of_integers r rates :
  rates ≠ [] → Forall (λ x, x = Fin (inject_Z r)) rates →
  0 <= r → len rates * r < 2 ^ 53 → len rates < 2 ^ 53 →
  average_growth_rate rates = Ok (Fin (inject_Z r)).
Proof.
  intros Hne Hrates Hr Hb Hl.
  assert (0 < len rates) as Hpos.
  { unfold len. destruct rates; [done|]. rewrite length_cons. lia. }
  unfold average_growth_rate, float_div_int, sum_floats.
  change (Fin 0) with (Fin (inject_Z 0)).
  rewrite (foldl_add_integers r) by (done || lia).
  rewrite of_int_integer by lia. cbn [mbind result_bind div].
  destruct (Qeq_bool (inject_Z (len rates)) 0) eqn:E.
  - apply Qeq_bool_iff in E. apply inject_Z_nonzero in E; [done|lia].
  - rewrite (round_integer _ r); [done|nia|].
    rewrite Z.add_0_l, inject_Z_mult. field. apply inject_Z_nonzero. lia.
Qed.

Lemma projected_count_integers r rates counts :
  rates ≠ [] → Forall (λ x, x = Fin (inject_Z r)) rates →
  0 <= r → 1 + r < 2 ^ 53 → len rates * r < 2 ^ 53 → len rates < 2 ^ 53 →
  0 <= List.last counts 0 → List.last counts 0 * (1 + r) < 2 ^ 53 →
  projected_count counts rates
  = Ok (Fin (inject_Z (List.last counts 0 * (1 + r)))).
Proof.
  intros Hne Hrates Hr Hr1 Hb Hl Hlast Hprod.
  unfold projected_count. rewrite (average_of_integers r) by done.
  cbn [mbind result_bind]. unfold int_add_float.
  rewrite of_int_integer by (simpl; lia). cbn [mbind result_bind add].
  rewrite (round_integer _ (1 + r)); [|lia|by rewrite inject_Z_plus].
  unfold int_mul_float. rewrite of_int_integer by nia.
  cbn [mbind result_bind mul].
  rewrite (round_integer _ (List.last counts 0 * (1 + r)));
    [done|nia|by rewrite inject_Z_mult].
Qed.

Lemma to_int_integer z : to_int (Fin (inject_Z z)) = Ok z.
Proof. simpl. unfold truncate. simpl. by rewrite Z.quot_1_r. Qed.

End ExactArithmetic.

Section ConstantRatio.

Implicit Types (counts : list Z) (k : Z).

Lemma filter_Forall_id {A} (P : A → Prop) `{∀ x, Decision (P x)} (l : list A) :
  Forall P l → filter P l = l.
Proof.
  induction 1 as [|x l Hx _ IH]; [done|].
  by rewrite filter_cons, decide_True, IH.
Qed.

Lemma transitions_cons c0 c1 counts :
  transitions (c0 :: c1 :: counts) = (c0, c1) :: transitions (c1 :: counts).
Proof. done. Qed.

Lemma counts_of_transitions (P : Z → Prop) counts :
  (2 <= length counts)%nat →
  Forall (λ t, P t.1 ∧ P t.2) (transitions counts) → Forall P counts.
Proof.
  induction counts as [|c0 [|c1 counts] IH]; [simpl; lia..|].
  intros _. rewrite transitions_cons. intros [[H0 H1] Ht]%Forall_cons.
  constructor; [done|].
  destruct counts as [|c2 counts]; [by repeat constructor|].
  apply IH; [simpl; lia | done].
Qed.

Lemma length_transitions_eq counts :
  length (transitions counts) = (length counts - 1)%nat.
Proof.
  induction counts as [|c0 [|c1 counts] IH]; [done..|].
  rewrite transitions_cons. cbn [length] in *. lia.
Qed.

Lemma adjacent_growth_rates_ratio counts k :
  Forall (λ t, 0 < t.1 ∧ t.2 = k * t.1) (transitions counts) →
  Z.abs (k - 1) < 2 ^ 53 →
  ∃ rates,
    adjacent_growth_rates counts = Ok rates ∧
    Forall (λ x, x = Float.Fin (inject_Z (k - 1))) rates ∧
    length rates = (length counts - 1)%nat.
Proof.
  intros Ht Hk. unfold adjacent_growth_rates, valid_transitions.
  rewrite filter_Forall_id
    by (eapply Forall_impl; [exact Ht|]; by intros ? [? _]).
  rewrite <- length_transitions_eq.
  induction Ht as [|[prev cur] ts [Hp Hc] _ IH].
  - by exists [].
  - destruct IH as (rates & IH & Hr & Hl). simpl in Hp, Hc. subst cur.
    cbn [traverse length]. rewrite IH.
    change (growth_rate (prev, k * prev))
      with (true_div (k * prev - prev) prev).
    rewrite true_div_ratio by done. cbn [mbind result_bind].
    eexists. split; [done|]. split; [by constructor | by simpl; rewrite Hl].
Qed.

Lemma forecast_constant_ratio years counts k :
  (2 <= length counts)%nat →
  Forall (λ t, 0 < t.1 ∧ t.2 = k * t.1) (transitions counts) →
  1 <= k → k * List.last counts 0 < 2 ^ 53 → len counts * k < 2 ^ 53 →
  forecast years counts
  = Ok (List.last years 0 + 1, k * List.last counts 0).
Proof.
  intros Hlen Ht Hk Hlast Hsum. unfold len in Hsum.
  assert (Forall (λ c, 0 <= c) counts) as Hpos.
  { apply counts_of_transitions; [done|].
    eapply Forall_impl; [exact Ht|]. intros [prev cur] [? ?]. simpl in *. nia. }
  pose proof (last_Forall _ counts 0 Hpos ltac:(simpl; lia)) as Hl0.
  simpl in Hl0.
  assert (k < 2 ^ 52) as Hk52 by nia.
  destruct (adjacent_growth_rates_ratio counts k Ht ltac:(lia))
    as (rates & Hrates & Hall & Hn).
  unfold forecast. rewrite growth_rates_spec, Hrates.
  cbn [mbind result_bind].
  assert (rates ≠ []) as Hne by (intros ->; simpl in Hn; lia).
  rewrite (projected_count_integers (k - 1)); unfold len; try done; try nia.
  - destruct rates as [|r rates]; [done|]. cbn [mbind result_bind].
    rewrite to_int_integer. cbn [mbind result_bind]. do 2 f_equal. lia.
Qed.

End ConstantRatio.

(** X14: a history that grows by the same whole factor [k] every year is
    continued by that factor: if every count is [k] times the count of
    the year before, the prediction is [k] times the last count, with no
    rounding error; in particular a constant history predicts the same
    count again. *)
Theorem constant_ratio_prediction (m : gmap string Z) (k : Z) :
  year_keys m → (2 <= size m)%nat → 1 <= k →
  Forall (λ t, 0 < t.1 ∧ t.2 = k * t.1) (transitions (counts_of m)) →
  k * List.last (counts_of m) 0 < 2 ^ 53 →
  Z.of_nat (size m) * k < 2 ^ 53 →
  predict_next_year m
  = Predicted (List.last (years_of m) 0 + 1) (k * List.last (counts_of m) 0).
Proof.
  intros Hm Hsize Hk Ht Hlast Hsum.
  rewrite predict_next_year_sorted by done.
  rewrite (forecast_constant_ratio _ _ k); [done| |done..|].
  - by rewrite length_counts_of.
  - unfold len. by rewrite length_counts_of.
Qed.

Lemma constant_ratio_prediction_witness :
  predict_next_year (<["2020" := 10]> (<["2021" := 20]> (<["2022" := 40]> ∅)))
  = Predicted 2023 80.
Proof.
  rewrite (constant_ratio_prediction _ 2).
  - vm_compute. reflexivity.
  - by_computation.
  - vm_compute. lia.
  - lia.
  - by_computation.
  - vm_compute. reflexivity.
  - vm_compute. reflexivity.
Defined.

(** ** The prediction report *)

Section Report.

Implicit Types (years counts : list Z) (rates : list float).

Lemma projected_count_Ok counts rates v :
  projected_count counts rates = Ok v →
  ∃ avg, average_growth_rate rates = Ok avg.
Proof.
  unfold projected_count. intros H.
  apply bind_Ok in H as (avg & Ha & _). by exists avg.
Qed.

Lemma forecast_Ok_rates years counts y p :
  forecast years counts = Ok (y, p) →
  ∃ rates, growth_rates counts = Ok rates ∧
    (rates = [] ∨ ∃ avg, average_growth_rate rates = Ok avg).
Proof.
  unfold forecast. intros H. apply bind_Ok in H as (rates & Hr & H).
  exists rates. split; [done|].
  destruct rates as [|r rs] eqn:E; [by left|]. right. rewrite <- E in *.
  apply bind_Ok in H as (v & Hv & _). by eapply projected_count_Ok.
Qed.

Lemma report_text_forecast pct conf_name years counts y p :
  forecast years counts = Ok (y, p) →
  ∃ rest,
    report_text pct conf_name years counts
    = Ok (conf_name +:+ " " +:+ py_str y +:+ " 年论文数量预测: " +:+
          py_str p +:+ LF +:+ rest).
Proof.
  intros H. destruct (forecast_Ok_rates _ _ _ _ H) as (rates & Hr & Ha).
  unfold report_text. rewrite Hr, H. cbn [mbind result_bind].
  destruct rates as [|r rates].
  - cbn [mbind result_bind]. by eexists.
  - destruct Ha as [|(avg & ->)]; [done|]. cbn [mbind result_bind].
    by eexists.
Qed.

Lemma report_text_Ok pct conf_name years counts text :
  report_text pct conf_name years counts = Ok text →
  ∃ y p, forecast years counts = Ok (y, p).
Proof.
  unfold report_text. intros H. apply bind_Ok in H as (rates & _ & H).
  apply bind_Ok in H as ([y p] & Hf & _). eauto.
Qed.

Lemma transitions_lookup counts i prev cur :
  transitions counts !! i = Some (prev, cur) →
  counts !! i = Some prev ∧ counts !! S i = Some cur.
Proof.
  revert i. induction counts as [|c0 [|c1 counts] IH]; intros i; [done..|].
  rewrite transitions_cons. destruct i as [|i].
  - by intros [= -> ->].
  - intros H. by apply IH in H.
Qed.

Lemma growth_rates_lookup counts rates i rate :
  growth_rates counts = Ok rates → rates !! i = Some rate →
  ∃ t, valid_transitions counts !! i = Some t ∧ growth_rate t = Ok rate.
Proof.
  rewrite growth_rates_spec. unfold adjacent_growth_rates.
  intros H%traverse_Ok Hi.
  destruct (Forall2_lookup_r _ _ _ _ _ H Hi) as (t & Ht & Hr). eauto.
Qed.

Lemma growth_rates_positive counts rates i rate :
  Forall (λ c, 0 < c) counts →
  growth_rates counts = Ok rates → rates !! i = Some rate →
  ∃ prev cur,
    counts !! i = Some prev ∧ counts !! S i = Some cur ∧
    true_div (cur - prev) prev = Ok rate.
Proof.
  intros Hpos Hr Hi.
  destruct (growth_rates_lookup _ _ _ _ Hr Hi) as ([prev cur] & Ht & Hrate).
  unfold valid_transitions in Ht. rewrite filter_Forall_id in Ht.
  - apply transitions_lookup in Ht as [? ?]. by exists prev, cur.
  - eapply Forall_impl; [by apply (transitions_Forall (λ c, 0 < c))|].
    by intros ? [? _].
Qed.

Lemma growth_rates_skip c0 counts :
  c0 <= 0 → growth_rates (c0 :: counts) = growth_rates counts.
Proof.
  intros Hc. rewrite !growth_rates_spec.
  destruct counts as [|c1 counts]; [done|].
  rewrite adjacent_growth_rates_cons. by rewrite decide_False by lia.
Qed.

Lemma length_growth_rates counts rates :
  growth_rates counts = Ok rates → rates ≠ [] →
  (length rates < length counts)%nat.
Proof.
  rewrite growth_rates_spec. unfold adjacent_growth_rates.
  intros H%traverse_Ok Hne. apply Forall2_length in H.
  pose proof (length_filter (λ t : Z * Z, 0 < t.1) (transitions counts)) as Hf.
  fold (valid_transitions counts) in Hf.
  rewrite length_transitions_eq in Hf.
  destruct rates; [done|]. simpl in *. lia.
Qed.

Lemma save_prediction_other pct writable (m : gmap string Z) conf_name
    (fs : files) path :
  path ≠ prediction_path conf_name →
  save_prediction pct writable m conf_name fs !! path = fs !! path.
Proof.
  intros Hne. unfold save_prediction.
  case_bool_decide; [done|]. destruct (_ ≫= _) as [text|e]; [|done].
  cbv zeta. destruct (writable _); [|done]. by rewrite lookup_insert_ne.
Qed.

Lemma save_prediction_few pct writable (m : gmap string Z) conf_name
    (fs : files) :
  (size m < 2)%nat → save_prediction pct writable m conf_name fs = fs.
Proof. intros H. unfold save_prediction. by rewrite bool_decide_eq_true_2. Qed.

End Report.

(** X15: the report follows the printed forecast.  [predict_next_year]
    writes [output/<conf>_prediction.txt] exactly when it makes a
    prediction and the file can be written; the file then opens with the
    line that names the predicted year and count; and no other file is
    touched. *)
Theorem prediction_report_follows_forecast
    pct writable (m : gmap string Z) conf_name (fs : files) :
  let path := prediction_path conf_name in
  let fs' := save_prediction pct writable m conf_name fs in
  (∀ y p,
     predict_next_year m = Predicted y p → writable path = true →
     ∃ rest,
       fs' = <[path := conf_name +:+ " " +:+ py_str y +:+
                       " 年论文数量预测: " +:+ py_str p +:+ LF +:+ rest]> fs) ∧
  ((∀ y p, predict_next_year m ≠ Predicted y p) → fs' = fs) ∧
  (writable path = false → fs' = fs) ∧
  (∀ path', path' ≠ path → fs' !! path' = fs !! path').
Proof.
  intros path fs'. unfold fs', save_prediction, predict_next_year.
  case_bool_decide as Hsize; [done|].
  destruct (traverse py_int (dict_keys m)) as [ys|e]; [|done].
  cbn [mbind result_bind].
  destruct (traverse _ (merge_sort Z.le ys)) as [counts|e]; [|done].
  cbn [mbind result_bind].
  destruct (forecast (merge_sort Z.le ys) counts) as [[y p]|e] eqn:Hf.
  - destruct (report_text_forecast pct conf_name _ _ _ _ Hf) as (rest & ->).
    cbv zeta. fold path. split_and!.
    + intros y' p' [= <- <-] ->. by exists rest.
    + intros H. by destruct (H y p).
    + by intros ->.
    + intros path' Hne. destruct (writable path); [|done].
      by rewrite lookup_insert_ne.
  - destruct (report_text _ _ _ _) as [text|e'] eqn:Ht.
    { apply report_text_Ok in Ht as (y & p & Ht). congruence. }
    done.
Qed.

(** X16: the labels of the growth-rate lines of the report.  Line [i] is
    labelled with the years at positions [i] and [i + 1], which exist.
    When all counts are positive, its rate is the growth between these
    two years.  When the first count is zero the first transition is
    skipped, and every line shows the growth between the years one
    position later than its label says. *)
Theorem rate_lines_labels pct years :
  (∀ rates i rate,
     rates !! i = Some rate →
     imap (rate_line pct years) rates !! i
     = Some (py_str (nth i years 0) +:+ " 至 " +:+
             py_str (nth (i + 1) years 0) +:+ ": " +:+ pct rate +:+ LF)) ∧
  (∀ counts rates,
     growth_rates counts = Ok rates → rates ≠ [] →
     (length rates < length counts)%nat) ∧
  (∀ counts rates i rate,
     Forall (λ c, 0 < c) counts →
     growth_rates counts = Ok rates → rates !! i = Some rate →
     ∃ prev cur,
       counts !! i = Some prev ∧ counts !! S i = Some cur ∧
       true_div (cur - prev) prev = Ok rate) ∧
  (∀ c0 counts rates i rate,
     c0 <= 0 → Forall (λ c, 0 < c) counts →
     growth_rates (c0 :: counts) = Ok rates → rates !! i = Some rate →
     ∃ prev cur,
       (c0 :: counts) !! S i = Some prev ∧
       (c0 :: counts) !! S (S i) = Some cur ∧
       true_div (cur - prev) prev = Ok rate).
Proof.
  split_and!.
  - intros rates i rate Hi. by rewrite list_lookup_imap, Hi.
  - apply length_growth_rates.
  - apply growth_rates_positive.
  - intros c0 counts rates i rate Hc Hpos Hr Hi.
    rewrite growth_rates_skip in Hr by done.
    by apply (growth_rates_positive counts rates).
Qed.

(** ** The Orchestrator *)

Section Orchestrator.

Implicit Types (h : host) (w : world) (fs : files) (papers : list paper)
  (conf_config : conf_config) (m : gmap string Z).

Lemma papers_of_year_Ok w conf_key conf_config y :
  CONFERENCE_CONFIGS !! conf_key = Some conf_config →
  get_paper_info w conf_key y = Ok (papers_of_year w conf_key y).
Proof.
  intros Hc. unfold papers_of_year.
  by destruct (get_paper_info_total w _ _ y Hc) as [ps ->].
Qed.

Lemma papers_of_year_records w conf_key conf_config y :
  CONFERENCE_CONFIGS !! conf_key = Some conf_config →
  Forall (λ p, year p = py_str y ∧ conference p = name conf_config)
         (papers_of_year w conf_key y).
Proof.
  intros Hc.
  pose proof (papers_of_year_Ok w _ _ y Hc) as H.
  apply get_paper_info_Ok in H as (conf_config' & Hc' & H).
  assert (conf_config' = conf_config) as -> by congruence.
  destruct H as [->|(soup & ->)]; [constructor|].
  by apply Forall_map, Forall_true.
Qed.

(** The loop appends the records of the requested years in order. *)
Lemma crawl_spec w conf_key conf_config years acc :
  CONFERENCE_CONFIGS !! conf_key = Some conf_config →
  crawl w conf_key years acc
  = Ok (acc ++ concat (map (papers_of_year w conf_key)
                         (filter (λ y, ¬ (conf_key = "iccv" ∧ y mod 2 = 0))
                                 years))).
Proof.
  intros Hc. revert acc.
  induction years as [|y years IH]; intros acc; cbn [crawl].
  - by rewrite app_nil_r.
  - rewrite filter_cons.
    destruct (String.eqb_spec conf_key "iccv") as [Hk|Hk];
      destruct (Z.eqb_spec (y mod 2) 0) as [He|He]; cbn [andb].
    + rewrite decide_False by (intros H; by apply H). apply IH.
    + rewrite decide_True by (by intros [_ ?]).
      rewrite (papers_of_year_Ok _ _ _ _ Hc). cbn [mbind result_bind].
      rewrite IH. cbn [map concat]. by rewrite app_assoc.
    + rewrite decide_True by (by intros [? _]).
      rewrite (papers_of_year_Ok _ _ _ _ Hc). cbn [mbind result_bind].
      rewrite IH. cbn [map concat]. by rewrite app_assoc.
    + rewrite decide_True by (by intros [? _]).
      rewrite (papers_of_year_Ok _ _ _ _ Hc). cbn [mbind result_bind].
      rewrite IH. cbn [map concat]. by rewrite app_assoc.
Qed.

Lemma elem_of_crawl_years conf_key conf_config y :
  y ∈ crawl_years conf_key conf_config ↔
  start_year conf_config <= y <= end_year conf_config
  ∧ ¬ (conf_key = "iccv" ∧ y mod 2 = 0).
Proof.
  unfold crawl_years, py_range. rewrite list_elem_of_filter, elem_of_seqZ.
  split; intros [? ?]; split; (done || lia).
Qed.

Lemma NoDup_crawl_years conf_key conf_config :
  NoDup (crawl_years conf_key conf_config).
Proof. apply NoDup_filter, NoDup_seqZ. Qed.

Lemma elem_of_productive_years w conf_key conf_config y :
  y ∈ productive_years w conf_key conf_config ↔
  y ∈ crawl_years conf_key conf_config ∧ papers_of_year w conf_key y ≠ [].
Proof.
  unfold productive_years. rewrite list_elem_of_filter.
  destruct (papers_of_year w conf_key y); simpl; split; intros [? ?];
    split; (done || lia).
Qed.

(** [process_conference] in terms of the records of the crawl years. *)
Lemma process_conference_None h conf_key conf_config fs :
  CONFERENCE_CONFIGS !! conf_key = Some conf_config →
  concat (map (papers_of_year (web h) conf_key)
              (crawl_years conf_key conf_config)) = [] →
  process_conference h conf_key fs = Ok (fs, None).
Proof.
  intros Hc Hall. unfold process_conference. rewrite Hc. cbv zeta.
  rewrite (crawl_spec _ _ _ _ _ Hc). fold (crawl_years conf_key conf_config).
  by rewrite Hall.
Qed.

Lemma process_conference_Some h conf_key conf_config fs :
  CONFERENCE_CONFIGS !! conf_key = Some conf_config →
  let all_papers := concat (map (papers_of_year (web h) conf_key)
                                (crawl_years conf_key conf_config)) in
  all_papers ≠ [] →
  process_conference h conf_key fs
  = Ok (save_prediction (percent h) (writable h) (count_years all_papers)
          (name conf_config)
          (plot_keywords_bar (draw_bar h (name conf_config))
             ((λ draw, draw (name conf_config)) <$> draw_wordcloud h)
             (writable h) (keyword_items all_papers) (name conf_config) 20
             (save_paper_trend (draw_trend h (name conf_config)) (writable h)
                all_papers (name conf_config)
                (save_to_csv (writable h) all_papers
                   (csv_path (name conf_config) (start_year conf_config)
                             (end_year conf_config)) fs))),
        Some (Analysis all_papers (count_years all_papers)
                (extract_keywords all_papers)
                (predict_next_year (count_years all_papers)))).
Proof.
  intros Hc all_papers Hall. unfold process_conference. rewrite Hc. cbv zeta.
  rewrite (crawl_spec _ _ _ _ _ Hc). fold (crawl_years conf_key conf_config).
  fold all_papers. cbn [mbind result_bind app].
  rewrite plot_paper_trend_count_years. by destruct all_papers.
Qed.

Lemma process_conference_Ok h conf_key conf_config fs fs' a :
  CONFERENCE_CONFIGS !! conf_key = Some conf_config →
  process_conference h conf_key fs = Ok (fs', Some a) →
  let all_papers := concat (map (papers_of_year (web h) conf_key)
                                (crawl_years conf_key conf_config)) in
  all_papers ≠ [] ∧
  a = Analysis all_papers (count_years all_papers)
        (extract_keywords all_papers)
        (predict_next_year (count_years all_papers)).
Proof.
  intros Hc H all_papers.
  destruct (decide (length all_papers = 0%nat)) as [Hl|Hl].
  - apply nil_length_inv in Hl.
    rewrite (process_conference_None _ _ _ _ Hc Hl) in H. done.
  - assert (all_papers ≠ []) as Hne by (by intros ->).
    rewrite (process_conference_Some _ _ _ _ Hc Hne) in H.
    by injection H as _ <-.
Qed.

Lemma filter_none {A} (P : A → Prop) `{∀ x, Decision (P x)} (l : list A) :
  Forall (λ x, ¬ P x) l → filter P l = [].
Proof.
  induction 1 as [|x l Hx _ IH]; [done|].
  by rewrite filter_cons, decide_False, IH.
Qed.

(** The records of one year among the records of several. *)
Lemma filter_year_concat (f : Z → list paper) years y :
  (∀ y', Forall (λ p, year p = py_str y') (f y')) → NoDup years →
  filter (λ p, year p = py_str y) (concat (map f years))
  = if decide (y ∈ years) then f y else [].
Proof.
  intros Hf. induction 1 as [|y0 years Hy0 Hnd IH]; [done|].
  cbn [map concat]. rewrite filter_app, IH.
  destruct (decide (y0 = y)) as [->|Hne].
  - rewrite (decide_True (P := y ∈ y :: years)) by left.
    rewrite (decide_False (P := y ∈ years)) by done.
    rewrite app_nil_r. by apply filter_Forall_id.
  - rewrite filter_none.
    + simpl. destruct (decide (y ∈ years)) as [Hy|Hy].
      * by rewrite decide_True by by right.
      * rewrite decide_False; [done|].
        intros [?|?]%elem_of_cons; [congruence|done].
    + eapply Forall_impl; [apply Hf|]. simpl. intros p -> E.
      by apply py_str_inj in E.
Qed.

Lemma size_le_total m : counts_positive m → Z.of_nat (size m) <= total m.
Proof.
  induction m as [|k c m Hk IH] using map_ind; intros Hm.
  - by rewrite map_size_empty, total_empty.
  - rewrite map_size_insert_None, total_insert_fresh by done.
    assert (1 <= c) by (apply (Hm k); by rewrite lookup_insert_eq).
    assert (counts_positive m) as Hm'.
    { intros k' c' Hk'. apply (Hm k').
      rewrite lookup_insert_ne; [done|]. intros ->. congruence. }
    specialize (IH Hm'). lia.
Qed.

Lemma count_years_le papers k c :
  count_years papers !! k = Some c → 1 <= c <= Z.of_nat (length papers).
Proof.
  rewrite count_years_lookup. intros H.
  pose proof (length_filter (λ p, year p = k) papers) as Hl.
  destruct (length (filter _ papers)); [done|]. injection H as <-. lia.
Qed.

Lemma elem_of_years_of_str m y :
  is_Some (m !! py_str y) → y ∈ years_of m.
Proof.
  intros Hy. unfold years_of. rewrite merge_sort_Permutation.
  apply list_elem_of_omap. exists (py_str y).
  split; [by apply elem_of_dict_keys|].
  apply year_of_key_Ok, py_int_str.
Qed.

Lemma valid_transitions_positive (counts : list Z) :
  Forall (λ c, 1 <= c) counts → (2 <= length counts)%nat →
  valid_transitions counts ≠ [].
Proof.
  destruct counts as [|c0 [|c1 counts]]; simpl; [lia..|].
  intros [H0 _]%Forall_cons _. unfold valid_transitions.
  rewrite transitions_cons, filter_cons. rewrite decide_True by (simpl; lia).
  done.
Qed.

Section Run.

Context (h : host) (conf_key : string) (conf_config : conf_config).
Hypothesis Hc : CONFERENCE_CONFIGS !! conf_key = Some conf_config.

Let all_papers : list paper :=
  concat (map (papers_of_year (web h) conf_key)
              (crawl_years conf_key conf_config)).
Let year_count := count_years all_papers.

Lemma crawl_records :
  Forall (λ p, conference p = name conf_config ∧
               ∃ y, y ∈ crawl_years conf_key conf_config ∧ year p = py_str y)
         all_papers.
Proof.
  apply Forall_concat, Forall_forall. intros ps Hps.
  apply list_elem_of_fmap in Hps as (y & -> & Hy).
  eapply Forall_impl; [by apply (papers_of_year_records _ _ conf_config)|].
  simpl. intros p [? ?]. eauto.
Qed.

Lemma crawl_year_count_lookup y :
  y ∈ crawl_years conf_key conf_config →
  year_count !! py_str y =
    match length (papers_of_year (web h) conf_key y) with
    | O => None
    | S n => Some (Z.of_nat (S n))
    end.
Proof.
  intros Hy. unfold year_count. rewrite count_years_lookup.
  unfold all_papers. rewrite filter_year_concat.
  - by rewrite decide_True.
  - intros y'. eapply Forall_impl;
      [by apply (papers_of_year_records _ _ conf_config)|].
    by intros p [? _].
  - apply NoDup_crawl_years.
Qed.

Lemma crawl_year_count_keys k :
  is_Some (year_count !! k) →
  ∃ y, y ∈ productive_years (web h) conf_key conf_config ∧ k = py_str y.
Proof.
  intros Hk. pose proof Hk as Hk'.
  apply count_years_keys in Hk as (p & Hp & <-).
  pose proof crawl_records as Hr. rewrite Forall_forall in Hr.
  destruct (Hr p Hp) as (_ & y & Hy & Hyp). exists y. split; [|done].
  apply elem_of_productive_years. split; [done|].
  rewrite Hyp, (crawl_year_count_lookup y Hy) in Hk'.
  intros E. rewrite E in Hk'. by destruct Hk'.
Qed.

Lemma crawl_year_count_productive y :
  y ∈ productive_years (web h) conf_key conf_config →
  is_Some (year_count !! py_str y).
Proof.
  intros [Hy Hne]%elem_of_productive_years.
  rewrite (crawl_year_count_lookup y Hy).
  destruct (papers_of_year (web h) conf_key y); [done|]. by eexists.
Qed.

Lemma crawl_year_keys : year_keys year_count.
Proof.
  intros k c Hk.
  destruct (crawl_year_count_keys k) as (y & _ & ->); [by eexists|].
  apply is_year_text_str.
Qed.

Lemma NoDup_productive_years :
  NoDup (productive_years (web h) conf_key conf_config).
Proof. apply NoDup_filter, NoDup_crawl_years. Qed.

Lemma size_crawl_year_count :
  size year_count = length (productive_years (web h) conf_key conf_config).
Proof.
  rewrite <- (length_fmap py_str), <- length_map_to_list.
  rewrite <- (length_fmap fst). apply Permutation_length.
  apply NoDup_Permutation.
  - apply NoDup_fst_map_to_list.
  - apply (NoDup_fmap_2 _ (Inj0 := py_str_inj)), NoDup_productive_years.
  - intros k. fold (dict_keys year_count). rewrite elem_of_dict_keys.
    rewrite list_elem_of_fmap. split.
    + intros (y & Hy & ->)%crawl_year_count_keys. eauto.
    + intros (y & -> & Hy). by apply crawl_year_count_productive.
Qed.

End Run.

End Orchestrator.

Section Runs.

Implicit Types (h : host) (w : world) (fs : files) (papers : list paper)
  (conf_config : conf_config) (m : gmap string Z).

Lemma get_paper_info_ext w w' conf_key conf_config y :
  CONFERENCE_CONFIGS !! conf_key = Some conf_config →
  requests_get w' (format_year (url_pattern conf_config) y)
  = requests_get w (format_year (url_pattern conf_config) y) →
  (∀ s, BeautifulSoup w' s = BeautifulSoup w s) →
  get_paper_info w' conf_key y = get_paper_info w conf_key y.
Proof.
  intros Hc Hr Hb. unfold get_paper_info. rewrite Hc. cbv zeta.
  unfold fetch_and_extract. rewrite Hr.
  destruct (requests_get w _) as [resp|]; [|done]. cbn [mbind result_bind].
  destruct (raise_for_status resp); [|done]. cbn [mbind result_bind].
  by rewrite Hb.
Qed.

Lemma concat_map_ext {A B} (f g : A → list B) l :
  Forall (λ x, f x = g x) l → concat (map f l) = concat (map g l).
Proof. induction 1 as [|x l Hx _ IH]; [done|]. simpl. by rewrite Hx, IH. Qed.

Lemma concat_map_nil {A B} (f : A → list B) l :
  concat (map f l) = [] ↔ Forall (λ x, f x = []) l.
Proof.
  induction l as [|x l IH]; simpl; [by split|].
  rewrite Forall_cons, <- IH. split.
  - by intros [? ?]%app_eq_nil.
  - by intros [-> ->].
Qed.

Lemma concat_map_nonempty {A B} (f : A → list B) l :
  concat (map f l)
  = concat (map f (filter (λ x, (0 < length (f x))%nat) l)).
Proof.
  induction l as [|x l IH]; [done|]. rewrite filter_cons. simpl.
  case_decide as Hx.
  - simpl. by rewrite IH.
  - destruct (f x); [by rewrite IH | simpl in Hx; lia].
Qed.

Lemma save_to_csv_other writable papers filename fs path :
  path ≠ filename →
  save_to_csv writable papers filename fs !! path = fs !! path.
Proof.
  intros Hne. unfold save_to_csv. destruct papers; [done|].
  destruct (writable filename); [|done]. by rewrite lookup_insert_ne.
Qed.

Lemma savefig_other writable path image fs fs' path' :
  savefig writable path image fs = Ok fs' → path' ≠ path →
  fs' !! path' = fs !! path'.
Proof.
  unfold savefig. destruct image as [png|]; [|done]. cbn [mbind result_bind].
  destruct (writable path); [|done]. intros [= <-] Hne.
  by rewrite lookup_insert_ne.
Qed.

Lemma save_paper_trend_other draw writable papers conf_name fs path :
  path ≠ paper_trend_path conf_name →
  save_paper_trend draw writable papers conf_name fs !! path = fs !! path.
Proof.
  intros Hne. unfold save_paper_trend. destruct papers; [done|]. cbv zeta.
  destruct (savefig _ _ _ _) as [fs'|] eqn:E; [|done].
  by apply (savefig_other _ _ _ _ _ _ E).
Qed.

Lemma generate_wordcloud_other draw writable word_freq conf_name fs path :
  path ≠ wordcloud_path conf_name →
  generate_wordcloud draw writable word_freq conf_name fs !! path = fs !! path.
Proof.
  intros Hne. unfold generate_wordcloud.
  destruct (savefig _ _ _ _) as [fs'|] eqn:E; [|done].
  by apply (savefig_other _ _ _ _ _ _ E).
Qed.

Lemma plot_keywords_bar_other
    draw wordcloud writable word_freq conf_name top_n fs path :
  path ≠ keywords_bar_path conf_name →
  path ≠ top_keywords_path conf_name →
  path ≠ wordcloud_path conf_name →
  plot_keywords_bar draw wordcloud writable word_freq conf_name top_n fs !! path
  = fs !! path.
Proof.
  intros H1 H2 H3. unfold plot_keywords_bar. destruct word_freq; [done|].
  destruct (most_common _ _); [done|]. cbv zeta.
  destruct (savefig _ _ _ _) as [fs'|] eqn:E; [|done].
  pose proof (savefig_other _ _ _ _ _ _ E H1) as Hfs'.
  destruct (writable _); [|done].
  destruct wordcloud as [draw_cloud|].
  - by rewrite generate_wordcloud_other, lookup_insert_ne.
  - by rewrite lookup_insert_ne.
Qed.

(** The six files of a conference have six names. *)
Lemma output_path_inj conf_name suffix1 suffix2 :
  "output/" +:+ py_lower conf_name +:+ suffix1
  = "output/" +:+ py_lower conf_name +:+ suffix2 →
  suffix1 = suffix2.
Proof. intros H. by do 2 apply String.app_inj in H. Qed.

Lemma prediction_path_not_csv conf_name start_year end_year :
  prediction_path conf_name ≠ csv_path conf_name start_year end_year.
Proof.
  unfold prediction_path, csv_path. intros H%output_path_inj.
  cbv [append] in H. discriminate.
Qed.

Lemma prediction_path_not_top_keywords conf_name :
  prediction_path conf_name ≠ top_keywords_path conf_name.
Proof. by intros H%output_path_inj. Qed.

Lemma prediction_path_not_image conf_name :
  prediction_path conf_name ≠ paper_trend_path conf_name ∧
  prediction_path conf_name ≠ keywords_bar_path conf_name ∧
  prediction_path conf_name ≠ wordcloud_path conf_name.
Proof. split_and!; by intros H%output_path_inj. Qed.

Lemma csv_path_not_other conf_name start_year end_year :
  csv_path conf_name start_year end_year ≠ paper_trend_path conf_name ∧
  csv_path conf_name start_year end_year ≠ keywords_bar_path conf_name ∧
  csv_path conf_name start_year end_year ≠ top_keywords_path conf_name ∧
  csv_path conf_name start_year end_year ≠ wordcloud_path conf_name ∧
  csv_path conf_name start_year end_year ≠ prediction_path conf_name.
Proof.
  unfold csv_path.
  split_and!; intros H%output_path_inj; cbv [append] in H; discriminate.
Qed.

Lemma process_conference_other h conf_key conf_config fs :
  CONFERENCE_CONFIGS !! conf_key = Some conf_config →
  ∃ fs' oa,
    process_conference h conf_key fs = Ok (fs', oa) ∧
    ∀ path,
      path ≠ csv_path (name conf_config) (start_year conf_config)
                      (end_year conf_config) →
      path ≠ paper_trend_path (name conf_config) →
      path ≠ keywords_bar_path (name conf_config) →
      path ≠ top_keywords_path (name conf_config) →
      path ≠ wordcloud_path (name conf_config) →
      path ≠ prediction_path (name conf_config) →
      fs' !! path = fs !! path.
Proof.
  intros Hc.
  destruct (decide (length (concat (map (papers_of_year (web h) conf_key)
              (crawl_years conf_key conf_config))) = 0%nat)) as [Hl|Hl].
  - apply nil_length_inv in Hl.
    rewrite (process_conference_None _ _ _ _ Hc Hl). by eexists _, _.
  - rewrite (process_conference_Some _ _ _ _ Hc) by (by intros E; rewrite E in Hl).
    eexists _, _. split; [done|]. intros path H1 H2 H3 H4 H5 H6.
    by rewrite save_prediction_other, plot_keywords_bar_other,
      save_paper_trend_other, save_to_csv_other.
Qed.

(** The CSV file of a run holds the records of the crawl. *)
Lemma process_conference_csv h conf_key conf_config fs :
  CONFERENCE_CONFIGS !! conf_key = Some conf_config →
  let all_papers := concat (map (papers_of_year (web h) conf_key)
                                (crawl_years conf_key conf_config)) in
  let path := csv_path (name conf_config) (start_year conf_config)
                       (end_year conf_config) in
  all_papers ≠ [] → writable h path = true →
  ∃ fs' oa,
    process_conference h conf_key fs = Ok (fs', oa) ∧
    fs' !! path = Some (csv_text all_papers).
Proof.
  intros Hc all_papers path Hne Hw.
  rewrite (process_conference_Some _ _ _ _ Hc) by done.
  eexists _, _. split; [done|]. fold all_papers path.
  destruct (csv_path_not_other (name conf_config) (start_year conf_config)
              (end_year conf_config)) as (H1 & H2 & H3 & H4 & H5).
  rewrite save_prediction_other, plot_keywords_bar_other,
    save_paper_trend_other by done.
  unfold save_to_csv. destruct all_papers; [done|].
  by rewrite Hw, lookup_insert_eq.
Qed.

Lemma papers_of_year_offline w conf_key y :
  (∀ url, ∃ e, requests_get w url = Raise e) →
  papers_of_year w conf_key y = [].
Proof.
  intros Hoff. unfold papers_of_year, get_paper_info.
  destruct (CONFERENCE_CONFIGS !! conf_key) as [conf_config|]; [|done].
  cbv zeta. unfold fetch_and_extract.
  by destruct (Hoff (format_year (url_pattern conf_config) y)) as [e ->].
Qed.

Lemma process_conference_offline h conf_key conf_config fs :
  CONFERENCE_CONFIGS !! conf_key = Some conf_config →
  (∀ url, ∃ e, requests_get (web h) url = Raise e) →
  process_conference h conf_key fs = Ok (fs, None).
Proof.
  intros Hc Hoff. apply (process_conference_None _ _ _ _ Hc).
  apply concat_map_nil, Forall_forall. intros y _.
  by apply papers_of_year_offline.
Qed.

(** A requested year that yields records makes the run an analysis. *)
Lemma process_conference_productive h conf_key conf_config fs y :
  CONFERENCE_CONFIGS !! conf_key = Some conf_config →
  y ∈ crawl_years conf_key conf_config →
  papers_of_year (web h) conf_key y ≠ [] →
  ∃ fs' a, process_conference h conf_key fs = Ok (fs', Some a).
Proof.
  intros Hc Hy Hne.
  rewrite (process_conference_Some _ _ _ _ Hc); [by eexists _, _|].
  intros E%concat_map_nil. rewrite Forall_forall in E. by apply Hne, E.
Qed.

(** The site that has one page yields the records of that page. *)
Lemma papers_of_year_only_page conf_key conf_config y :
  CONFERENCE_CONFIGS !! conf_key = Some conf_config →
  papers_of_year (only_page (format_year (url_pattern conf_config) y))
                 conf_key y ≠ [].
Proof.
  intros Hc. unfold papers_of_year, get_paper_info. rewrite Hc. cbv zeta.
  unfold fetch_and_extract. cbn [only_page requests_get BeautifulSoup].
  rewrite String.eqb_refl. cbn [mbind result_bind].
  change (raise_for_status (Response 200 "<html>")) with (Ok ()).
  cbn [mbind result_bind resp_text].
  assert (∃ e l, find_entries sample_page = e :: l) as (e & l & ->)
    by (eexists _, _; vm_compute; reflexivity).
  done.
Qed.

Lemma sample_config :
  CONFERENCE_CONFIGS !! "aaai"
  = Some (ConfConfig "AAAI" "https://dblp.org/db/conf/aaai/aaai{year}.html"
            2020 2025).
Proof. reflexivity. Qed.

Lemma iccv_config :
  CONFERENCE_CONFIGS !! "iccv"
  = Some (ConfConfig "ICCV" "https://dblp.org/db/conf/iccv/iccv{year}.html"
            2019 2023).
Proof. reflexivity. Qed.

Lemma no_iccv2020_requests y :
  y ∈ crawl_years "iccv"
        (ConfConfig "ICCV" "https://dblp.org/db/conf/iccv/iccv{year}.html"
           2019 2023) →
  requests_get no_iccv2020
    (format_year "https://dblp.org/db/conf/iccv/iccv{year}.html" y)
  = requests_get sample_world
      (format_year "https://dblp.org/db/conf/iccv/iccv{year}.html" y).
Proof.
  intros Hy. vm_compute in Hy.
  repeat (apply elem_of_cons in Hy as [->|Hy]; [vm_compute; reflexivity|]).
  by apply elem_of_nil in Hy.
Qed.

Lemma no_iccv2020_parser s :
  BeautifulSoup no_iccv2020 s = BeautifulSoup sample_world s.
Proof. reflexivity. Qed.

Lemma sample_run :
  ∃ fs' a,
    process_conference (quiet_host sample_world) "aaai" ∅ = Ok (fs', Some a).
Proof.
  rewrite (process_conference_Some _ _ _ _ sample_config); [by eexists _, _|].
  vm_compute. discriminate.
Qed.

Lemma sample_run_size (fs' : files) a :
  process_conference (quiet_host sample_world) "aaai" ∅ = Ok (fs', Some a) →
  length (all_papers_of a) = 12%nat ∧
  length (productive_years sample_world "aaai"
            (ConfConfig "AAAI" "https://dblp.org/db/conf/aaai/aaai{year}.html"
               2020 2025)) = 6%nat.
Proof.
  intros E.
  destruct (process_conference_Ok _ _ _ _ _ _ sample_config E) as [_ ->].
  split; vm_compute; reflexivity.
Qed.

End Runs.

(** X17: what [process_conference] reads from the site.  The years of
    its requests are the years of the configured range, without the even
    years for the key [iccv].  Its result depends on the site through the
    answers to these requests and through nothing else: sites that agree
    on these answers give the same result, and for every one of these
    years there are two sites that differ in the answer for that year
    only and give different results. *)
Theorem process_conference_requests h w' conf_key conf_config (fs : files) :
  CONFERENCE_CONFIGS !! conf_key = Some conf_config →
  (∀ y, y ∈ crawl_years conf_key conf_config ↔
        start_year conf_config <= y <= end_year conf_config
        ∧ ¬ (conf_key = "iccv" ∧ y mod 2 = 0)) ∧
  ((∀ y, y ∈ crawl_years conf_key conf_config →
         requests_get w' (format_year (url_pattern conf_config) y)
         = requests_get (web h) (format_year (url_pattern conf_config) y)) →
   (∀ s, BeautifulSoup w' s = BeautifulSoup (web h) s) →
   process_conference (with_web h w') conf_key fs
   = process_conference h conf_key fs) ∧
  (∀ y, y ∈ crawl_years conf_key conf_config →
        ∃ w1 w2,
          (∀ url, url ≠ format_year (url_pattern conf_config) y →
                  requests_get w1 url = requests_get w2 url) ∧
          (∀ s, BeautifulSoup w1 s = BeautifulSoup w2 s) ∧
          process_conference (with_web h w1) conf_key fs
          ≠ process_conference (with_web h w2) conf_key fs).
Proof.
  intros Hc. split; [intros y; apply elem_of_crawl_years|]. split.
  - intros Hr Hb. unfold process_conference. rewrite Hc. cbv zeta.
    cbn [with_web web draw_trend draw_bar draw_wordcloud writable percent].
    rewrite !(crawl_spec _ _ _ _ _ Hc). fold (crawl_years conf_key conf_config).
    rewrite (concat_map_ext (papers_of_year w' conf_key)
               (papers_of_year (web h) conf_key)); [done|].
    apply Forall_forall. intros y Hy. unfold papers_of_year.
    by rewrite (get_paper_info_ext (web h) w' _ _ _ Hc (Hr y Hy) Hb).
  - intros y Hy.
    exists no_page, (only_page (format_year (url_pattern conf_config) y)).
    split_and!.
    + intros url Hurl. cbn [only_page no_page requests_get].
      by rewrite (proj2 (String.eqb_neq _ _) Hurl).
    + done.
    + rewrite (process_conference_offline _ _ _ _ Hc) by (intros url; by eexists).
      destruct (process_conference_productive
                  (with_web h (only_page (format_year (url_pattern conf_config) y)))
                  conf_key conf_config fs y Hc Hy) as (fs' & a & ->); [|done].
      cbn [with_web web]. by apply papers_of_year_only_page.
Qed.

Lemma process_conference_requests_witness :
  process_conference (with_web (quiet_host sample_world) no_iccv2020) "iccv" ∅
  = process_conference (quiet_host sample_world) "iccv" ∅
  ∧ ∃ w1 w2,
      (∀ url, url ≠ "https://dblp.org/db/conf/iccv/iccv2021.html" →
              requests_get w1 url = requests_get w2 url) ∧
      (∀ s, BeautifulSoup w1 s = BeautifulSoup w2 s) ∧
      process_conference (with_web (quiet_host sample_world) w1) "iccv" ∅
      ≠ process_conference (with_web (quiet_host sample_world) w2) "iccv" ∅.
Proof.
  split.
  - exact (proj1 (proj2 (process_conference_requests (quiet_host sample_world)
                           no_iccv2020 "iccv" _ ∅ iccv_config))
                 no_iccv2020_requests no_iccv2020_parser).
  - apply (proj2 (proj2 (process_conference_requests (quiet_host sample_world)
                           sample_world "iccv" _ ∅ iccv_config)) 2021).
    apply elem_of_crawl_years. split; [simpl; lia|]. by intros [_ ?].
Defined.

(** X18: the records that [process_conference] analyses are the records
    of the requested years, in the order of the years; every one carries
    the display name of the conference and, as its year, a requested
    year; and the analysis is made only if there is at least one. *)
Theorem crawl_collects_records h conf_key conf_config (fs fs' : files) a :
  CONFERENCE_CONFIGS !! conf_key = Some conf_config →
  process_conference h conf_key fs = Ok (fs', Some a) →
  all_papers_of a
  = concat (map (papers_of_year (web h) conf_key)
                (crawl_years conf_key conf_config)) ∧
  (∀ y, get_paper_info (web h) conf_key y
        = Ok (papers_of_year (web h) conf_key y)) ∧
  all_papers_of a ≠ [] ∧
  Forall (λ p, conference p = name conf_config ∧
               ∃ y, y ∈ crawl_years conf_key conf_config ∧ year p = py_str y)
         (all_papers_of a) ∧
  word_freq_of a = extract_keywords (all_papers_of a).
Proof.
  intros Hc H.
  destruct (process_conference_Ok _ _ _ _ _ _ Hc H) as [Hne ->]. simpl.
  split_and!; [done| |done| |done].
  - intros y. by eapply papers_of_year_Ok.
  - by apply crawl_records.
Qed.

Lemma crawl_collects_records_witness :
  ∃ a, all_papers_of a ≠ [] ∧ Forall (λ p, conference p = "AAAI") (all_papers_of a).
Proof.
  destruct sample_run as (fs' & a & E). exists a.
  destruct (crawl_collects_records _ _ _ _ _ _ sample_config E)
    as (_ & _ & Hne & Hall & _).
  split; [done|]. eapply Forall_impl; [exact Hall|]. by intros p [? _].
Defined.

(** X19: the Year Count Map of a run.  Its keys are the decimal texts of
    the requested years that yielded records, one key per such year, and
    each count is the number of records of that year; so the counts add
    up to the number of records analysed. *)
Theorem crawl_year_count h conf_key conf_config (fs fs' : files) a :
  CONFERENCE_CONFIGS !! conf_key = Some conf_config →
  process_conference h conf_key fs = Ok (fs', Some a) →
  year_keys (year_count_of a) ∧
  (∀ y, y ∈ crawl_years conf_key conf_config →
        year_count_of a !! py_str y =
          match length (papers_of_year (web h) conf_key y) with
          | O => None
          | S n => Some (Z.of_nat (S n))
          end) ∧
  (∀ k, is_Some (year_count_of a !! k) ↔
        ∃ y, y ∈ productive_years (web h) conf_key conf_config ∧ k = py_str y) ∧
  size (year_count_of a)
  = length (productive_years (web h) conf_key conf_config) ∧
  total (year_count_of a) = Z.of_nat (length (all_papers_of a)).
Proof.
  intros Hc H.
  destruct (process_conference_Ok _ _ _ _ _ _ Hc H) as [Hne ->]. simpl.
  split_and!.
  - by apply crawl_year_keys.
  - intros y. by apply crawl_year_count_lookup.
  - intros k. split.
    + by apply crawl_year_count_keys.
    + intros (y & Hy & ->). by apply crawl_year_count_productive.
  - by apply size_crawl_year_count.
  - apply count_years_total.
Qed.

Lemma crawl_year_count_witness :
  ∃ a, year_keys (year_count_of a) ∧ size (year_count_of a) = 6%nat.
Proof.
  destruct sample_run as (fs' & a & E). exists a.
  destruct (crawl_year_count _ _ _ _ _ _ sample_config E)
    as (Hk & _ & _ & -> & _).
  split; [done|]. vm_compute. reflexivity.
Defined.

Section RunForecast.

Implicit Types (h : host) (w : world) (fs : files) (papers : list paper)
  (conf_config : conf_config) (m : gmap string Z).

(** The forecast for a map as the Aggregator builds it. *)
Lemma predict_next_year_counted m :
  year_keys m → counts_positive m → (2 <= size m)%nat → total m < 2 ^ 53 →
  ∃ p, predict_next_year m = Predicted (List.last (years_of m) 0 + 1) p
       ∧ 0 <= p.
Proof.
  intros Hk Hpos Hsize Htotal.
  pose proof (size_le_total m Hpos) as Hst.
  assert (map_Forall (λ _ c, 1 <= c < 2 ^ 53) m) as Hrange.
  { intros k c Hkc. split; [by eapply Hpos|].
    pose proof (total_insert (delete k m) k c) as Hi.
    rewrite insert_delete_id in Hi by done.
    rewrite lookup_delete_eq in Hi. simpl in Hi.
    assert (0 <= total (delete k m)).
    { pose proof (size_le_total (delete k m)) as Hd.
      assert (counts_positive (delete k m)) as Hp.
      { intros k' c' [_ H']%lookup_delete_Some. by eapply Hpos. }
      specialize (Hd Hp). lia. }
    lia. }
  pose proof (counts_of_Forall _ m Hk Hrange) as Hcounts.
  rewrite predict_next_year_sorted by done.
  destruct (forecast_bounded (years_of m) (counts_of m))
    as (rates & avg & factor & v & p & _ & _ & _ & _ & _ & _ & Hf).
  - eapply Forall_impl; [exact Hcounts|]. simpl. lia.
  - unfold len. rewrite length_counts_of by done. lia.
  - apply valid_transitions_positive.
    + eapply Forall_impl; [exact Hcounts|]. simpl. lia.
    + by rewrite length_counts_of.
  - exists p. rewrite Hf. split; [done|].
    eapply (forecast_nonneg (years_of m) (counts_of m)); [| |exact Hf].
    + eapply Forall_impl; [exact Hcounts|]. simpl. lia.
    + unfold len. rewrite length_counts_of by done. lia.
Qed.

Lemma years_of_nonempty m :
  year_keys m → (1 <= size m)%nat → years_of m ≠ [].
Proof.
  intros Hk Hs E. apply (f_equal length) in E.
  rewrite length_years_of in E by done. simpl in E. lia.
Qed.

Lemma sorted_years_of m : StronglySorted Z.le (years_of m).
Proof. unfold years_of. apply StronglySorted_merge_sort; apply _. Qed.

End RunForecast.

(** X20: the forecast of a run.  With fewer than two requested years
    that yielded records there is no forecast.  With two or more (and
    fewer than 2^53 records) the Forecaster never fails: it predicts a
    count that is not negative, for the year after the last year that
    yielded records. *)
Theorem crawl_forecast h conf_key conf_config (fs fs' : files) a :
  CONFERENCE_CONFIGS !! conf_key = Some conf_config →
  process_conference h conf_key fs = Ok (fs', Some a) →
  let productive := productive_years (web h) conf_key conf_config in
  ((length productive < 2)%nat → forecast_of a = Skipped) ∧
  ((2 <= length productive)%nat →
   Z.of_nat (length (all_papers_of a)) < 2 ^ 53 →
   ∃ latest p,
     forecast_of a = Predicted (latest + 1) p ∧ 0 <= p ∧
     latest ∈ productive ∧ ∀ y, y ∈ productive → y <= latest).
Proof.
  intros Hc H productive.
  destruct (process_conference_Ok _ _ _ _ _ _ Hc H) as [Hne ->]. simpl.
  set (all_papers := concat _) in *.
  pose proof (crawl_year_keys h conf_key conf_config Hc) as Hk.
  pose proof (size_crawl_year_count h conf_key conf_config Hc) as Hsize.
  fold all_papers productive in Hk, Hsize. split.
  - intros Hl. unfold predict_next_year.
    by rewrite bool_decide_eq_true_2 by lia.
  - intros Hl Hbound.
    destruct (predict_next_year_counted (count_years all_papers))
      as (p & Hp & Hp0); [done|apply count_years_positive|lia| |].
    { by rewrite count_years_total. }
    exists (List.last (years_of (count_years all_papers)) 0), p.
    split_and!; [done..| |].
    + pose proof (last_elem_of (years_of (count_years all_papers))
                    (years_of_nonempty _ Hk ltac:(lia))) as Hin.
      apply elem_of_years_of in Hin; [|done].
      destruct (crawl_year_count_keys h conf_key conf_config Hc _ Hin)
        as (y & Hy & E).
      apply py_str_inj in E. by rewrite E.
    + intros y Hy. apply sorted_last_max; [apply sorted_years_of|].
      apply elem_of_years_of_str.
      by apply (crawl_year_count_productive h conf_key conf_config Hc).
Qed.

Lemma crawl_forecast_witness :
  ∃ a latest p, forecast_of a = Predicted (latest + 1) p ∧ 0 <= p.
Proof.
  destruct sample_run as (fs' & a & E). exists a.
  destruct (sample_run_size fs' a E) as [Hl Hp].
  destruct (crawl_forecast _ _ _ _ _ _ sample_config E) as [_ H].
  clear E. destruct H as (latest & p & Hf & Hp' & _).
  - change (web (quiet_host sample_world)) with sample_world.
    rewrite Hp. lia.
  - rewrite Hl. lia.
  - exists latest, p. split; [exact Hf | exact Hp'].
Defined.

Section FewYears.

Implicit Types (h : host) (w : world) (fs : files) (papers : list paper)
  (conf_config : conf_config) (m : gmap string Z).

Lemma productive_years_nil w conf_key conf_config :
  productive_years w conf_key conf_config = [] ↔
  concat (map (papers_of_year w conf_key)
              (crawl_years conf_key conf_config)) = [].
Proof.
  rewrite concat_map_nonempty. fold (productive_years w conf_key conf_config).
  split; [by intros ->|]. intros H.
  destruct (productive_years w conf_key conf_config) as [|y l] eqn:E; [done|].
  exfalso.
  assert (y ∈ productive_years w conf_key conf_config) as Hy
    by (rewrite E; left).
  apply elem_of_productive_years in Hy as [_ Hy].
  simpl in H. by apply app_eq_nil in H as [? _].
Qed.

Lemma count_years_one_year papers y :
  papers ≠ [] → Forall (λ p, year p = y) papers →
  count_years papers = {[y := Z.of_nat (length papers)]}.
Proof.
  intros Hne Hall. apply map_eq. intros k.
  rewrite count_years_lookup.
  destruct (decide (k = y)) as [->|Hk].
  - rewrite lookup_singleton_eq, filter_Forall_id by done.
    by destruct papers.
  - rewrite lookup_singleton_ne by done. rewrite filter_none; [done|].
    eapply Forall_impl; [exact Hall|]. simpl. congruence.
Qed.

End FewYears.

(** X21: a run with too little data.  If no requested year yields a
    record, and only then, [process_conference] stops after the crawl and
    leaves every file as it was.  If exactly one requested year yields
    records, the Year Count Map has that single year with the number of
    its records, the forecast is skipped and no prediction file is
    written. *)
Theorem process_conference_few_years h conf_key conf_config (fs : files) :
  CONFERENCE_CONFIGS !! conf_key = Some conf_config →
  (productive_years (web h) conf_key conf_config = [] ↔
   process_conference h conf_key fs = Ok (fs, None)) ∧
  (∀ y0,
     productive_years (web h) conf_key conf_config = [y0] →
     ∃ fs' a,
       process_conference h conf_key fs = Ok (fs', Some a) ∧
       all_papers_of a = papers_of_year (web h) conf_key y0 ∧
       year_count_of a
       = {[py_str y0 := Z.of_nat (length (papers_of_year (web h) conf_key y0))]} ∧
       forecast_of a = Skipped ∧
       fs' !! prediction_path (name conf_config)
       = fs !! prediction_path (name conf_config)).
Proof.
  intros Hc. split.
  - rewrite productive_years_nil. split.
    + by apply process_conference_None.
    + intros H.
      destruct (decide (length (concat (map (papers_of_year (web h) conf_key)
                  (crawl_years conf_key conf_config))) = 0%nat)) as [Hl|Hl].
      * by apply nil_length_inv in Hl.
      * rewrite (process_conference_Some _ _ _ _ Hc) in H; [done|].
        intros E. by rewrite E in Hl.
  - intros y0 Hy0.
    assert (concat (map (papers_of_year (web h) conf_key)
                        (crawl_years conf_key conf_config))
            = papers_of_year (web h) conf_key y0) as Hall.
    { rewrite concat_map_nonempty.
      fold (productive_years (web h) conf_key conf_config).
      rewrite Hy0. simpl. by rewrite app_nil_r. }
    assert (y0 ∈ productive_years (web h) conf_key conf_config) as Hin
      by (rewrite Hy0; left).
    apply elem_of_productive_years in Hin as [_ Hne].
    rewrite (process_conference_Some _ _ _ _ Hc) by by rewrite Hall.
    rewrite Hall. eexists _, _. split; [done|]. simpl.
    assert (count_years (papers_of_year (web h) conf_key y0)
            = {[py_str y0 := Z.of_nat (length (papers_of_year (web h) conf_key y0))]})
      as Hcount.
    { apply count_years_one_year; [done|].
      eapply Forall_impl; [by apply (papers_of_year_records _ _ conf_config)|].
      by intros p [? _]. }
    split_and!; [done|done| |].
    + rewrite Hcount. unfold predict_next_year.
      by rewrite bool_decide_eq_true_2 by (rewrite map_size_singleton; lia).
    + rewrite save_prediction_few
        by (rewrite Hcount, map_size_singleton; lia).
      destruct (prediction_path_not_image (name conf_config)) as (H1 & H2 & H3).
      rewrite plot_keywords_bar_other
        by (done || apply prediction_path_not_top_keywords).
      rewrite save_paper_trend_other by done.
      by rewrite save_to_csv_other by apply prediction_path_not_csv.
Qed.

Lemma process_conference_few_years_witness :
  process_conference (quiet_host offline_world) "cvpr" ∅ = Ok (∅, None) ∧
  ∃ fs' a,
    process_conference (quiet_host only_2021) "aaai" ∅ = Ok (fs', Some a) ∧
    year_count_of a = {["2021" := 2]} ∧ forecast_of a = Skipped.
Proof.
  split.
  - apply (process_conference_few_years (quiet_host offline_world) "cvpr"
             (ConfConfig "CVPR" "https://dblp.org/db/conf/cvpr/cvpr{year}.html"
                2020 2024) ∅).
    + reflexivity.
    + vm_compute. reflexivity.
  - destruct (process_conference_few_years (quiet_host only_2021) "aaai"
                _ ∅ sample_config) as [_ H].
    destruct (H 2021) as (fs' & a & E & _ & Hcount & Hskip & _).
    + vm_compute. reflexivity.
    + exists fs', a. split; [exact E|]. split; [|exact Hskip].
      rewrite Hcount. vm_compute. reflexivity.
Defined.

Section Main.

Implicit Types (h : host) (fs : files).

Lemma cvpr_config :
  CONFERENCE_CONFIGS !! "cvpr"
  = Some (ConfConfig "CVPR" "https://dblp.org/db/conf/cvpr/cvpr{year}.html"
            2020 2024).
Proof. reflexivity. Qed.

End Main.

(** X22: [main] runs [process_conference] for aaai, cvpr and iccv, in
    this order, each on the files that the one before it left, and never
    raises.  It leaves every file as it was but its eighteen outputs: per
    conference the CSV, the three images, the keyword listing and the
    prediction.  When no request succeeds it writes nothing at all.  When
    the crawl of a conference yields records and its CSV file can be
    written, that file holds these records at the end. *)
Theorem main_writes_only_its_outputs h (fs : files) :
  main h fs
  = (r1 ← process_conference h "aaai" fs;
     r2 ← process_conference h "cvpr" r1.1;
     r3 ← process_conference h "iccv" r2.1;
     Ok r3.1) ∧
  (∃ fs',
     main h fs = Ok fs' ∧
     (∀ path,
        path ∉ ["output/aaai_papers_2020_2025.csv";
                "output/aaai_paper_trend.png"; "output/aaai_keywords_bar.png";
                "output/aaai_top_keywords.txt"; "output/aaai_wordcloud.png";
                "output/aaai_prediction.txt";
                "output/cvpr_papers_2020_2024.csv";
                "output/cvpr_paper_trend.png"; "output/cvpr_keywords_bar.png";
                "output/cvpr_top_keywords.txt"; "output/cvpr_wordcloud.png";
                "output/cvpr_prediction.txt";
                "output/iccv_papers_2019_2023.csv";
                "output/iccv_paper_trend.png"; "output/iccv_keywords_bar.png";
                "output/iccv_top_keywords.txt"; "output/iccv_wordcloud.png";
                "output/iccv_prediction.txt"] →
        fs' !! path = fs !! path) ∧
     (∀ conf_key conf_config,
        CONFERENCE_CONFIGS !! conf_key = Some conf_config →
        let all_papers :=
          concat (map (papers_of_year (web h) conf_key)
                      (crawl_years conf_key conf_config)) in
        let path := csv_path (name conf_config) (start_year conf_config)
                             (end_year conf_config) in
        all_papers ≠ [] → writable h path = true →
        fs' !! path = Some (csv_text all_papers))) ∧
  ((∀ url, ∃ e, requests_get (web h) url = Raise e) → main h fs = Ok fs).
Proof.
  unfold main, CONFERENCE_KEYS. cbn [main_loop]. split_and!.
  - destruct (process_conference h "aaai" fs) as [r1|]; [|done].
    cbn [mbind result_bind].
    destruct (process_conference h "cvpr" r1.1) as [r2|]; [|done].
    cbn [mbind result_bind].
    by destruct (process_conference h "iccv" r2.1) as [r3|].
  - destruct (process_conference_other h _ _ fs sample_config)
      as (fs1 & oa1 & E1 & H1).
    destruct (process_conference_other h _ _ fs1 cvpr_config)
      as (fs2 & oa2 & E2 & H2).
    destruct (process_conference_other h _ _ fs2 iccv_config)
      as (fs3 & oa3 & E3 & H3).
    rewrite E1. cbn [mbind result_bind fst].
    rewrite E2. cbn [mbind result_bind fst].
    rewrite E3. cbn [mbind result_bind fst].
    exists fs3. split; [done|]. split.
    + intros path Hpath. rewrite !not_elem_of_cons in Hpath.
      destruct Hpath as (?&?&?&?&?&?&?&?&?&?&?&?&?&?&?&?&?&?&_).
      rewrite H3, H2, H1; done.
    + intros conf_key conf_config Hc Hne Hw.
      assert (is_Some (CONFERENCE_CONFIGS !! conf_key)) as Hkey by (by eexists).
      apply configured_keys in Hkey. destruct Hkey as [-> | [-> | ->]].
      * rewrite sample_config in Hc. injection Hc as <-.
        destruct (process_conference_csv h _ _ fs sample_config Hne Hw)
          as (fs1' & oa1' & E1' & Hcsv).
        rewrite E1 in E1'. injection E1' as <- <-.
        rewrite H3, H2 by (by vm_compute). exact Hcsv.
      * rewrite cvpr_config in Hc. injection Hc as <-.
        destruct (process_conference_csv h _ _ fs1 cvpr_config Hne Hw)
          as (fs2' & oa2' & E2' & Hcsv).
        rewrite E2 in E2'. injection E2' as <- <-.
        rewrite H3 by (by vm_compute). exact Hcsv.
      * rewrite iccv_config in Hc. injection Hc as <-.
        destruct (process_conference_csv h _ _ fs2 iccv_config Hne Hw)
          as (fs3' & oa3' & E3' & Hcsv).
        rewrite E3 in E3'. by injection E3' as <- <-.
  - intros Hoff.
    rewrite (process_conference_offline _ _ _ _ sample_config Hoff).
    cbn [mbind result_bind fst].
    rewrite (process_conference_offline _ _ _ _ cvpr_config Hoff).
    cbn [mbind result_bind fst].
    by rewrite (process_conference_offline _ _ _ _ iccv_config Hoff).
Qed.

(** ** Sanity checks of the model *)

Section Samples.
Import Float.

(** [round] agrees with the binary64 arithmetic of the kernel. *)
Example round_third :
  round (1 # 3) = of_prim (PrimFloat.div (prim_of_Z 1) (prim_of_Z 3)).
Proof. vm_compute. reflexivity. Qed.

Example round_negative_rate :
  round (-6 # 9) = of_prim (PrimFloat.div (prim_of_Z (-6)) (prim_of_Z 9)).
Proof. vm_compute. reflexivity. Qed.

Example round_tie_to_even :
  round (inject_Z (2 ^ 53 + 1)) = of_prim (prim_of_Z (2 ^ 53 + 1))
  ∧ round (inject_Z (2 ^ 53 + 3)) = of_prim (prim_of_Z (2 ^ 53 + 3)).
Proof. split; vm_compute; reflexivity. Qed.

Example round_subnormal :
  round (3 # 2 ^ 1075)
  = of_prim (PrimFloat.mul (PrimFloat.next_up PrimFloat.zero)
                           (PrimFloat.div (prim_of_Z 3) (prim_of_Z 2))).
Proof. vm_compute. reflexivity. Qed.

Example round_overflow :
  round (inject_Z (2 ^ 1024 - 2 ^ 970)) = Inf false
  ∧ round (inject_Z (2 ^ 1024 - 2 ^ 970 - 1))
    = Fin (inject_Z (2 ^ 1024 - 2 ^ 971)).
Proof. split; vm_compute; reflexivity. Qed.

(** The rounding of binary64 is visible in predictions: in exact
    arithmetic 15 * (1 + 6/9) is 25. *)
Example forecast_rounds_like_binary64 :
  predict_next_year (<["2020" := 9]> (<["2021" := 15]> ∅)) = Predicted 2022 24
  ∧ of_prim (PrimFloat.mul (prim_of_Z 15)
               (PrimFloat.add (prim_of_Z 1)
                  (PrimFloat.div (prim_of_Z 6) (prim_of_Z 9))))
    = Fin (7036874417766399 # 281474976710656).
Proof. split; vm_compute; reflexivity. Qed.

Example py_int_samples :
  py_int " 20_20 " = Ok 2020 ∧ py_int "-007" = Ok (-7)
  ∧ py_int "2020_" = Raise ValueError ∧ py_int "" = Raise ValueError
  ∧ py_int "+ 5" = Raise ValueError ∧ py_str (-2020) = "-2020".
Proof. repeat split. Qed.

Example py_int_unicode_samples :
  py_int "٢٠٢٠" = Ok 2020 ∧ py_int "　２０２０　" = Ok 2020
  ∧ py_int (String "028" "2020") = Raise ValueError
  ∧ py_int "²" = Raise ValueError.
Proof. repeat split; vm_compute; reflexivity. Qed.

Example py_lower_samples :
  py_lower "ΟΔΟΣ ΣΟΦΟΣ" = "οδος σοφος" ∧ py_lower "Ångström" = "ångström"
  ∧ py_len "Ångström" = 8 ∧ py_strip "　深度 学习　" = "深度 学习".
Proof. repeat split; vm_compute; reflexivity. Qed.

(** A run on a site that answers every request: the eighteen outputs. *)
Example main_sample :
  match main (quiet_host sample_world) ∅ with
  | Ok fs => Some (size fs, fs !! "output/cvpr_wordcloud.png")
  | Raise _ => None
  end = Some (18%nat, Some "PNG").
Proof. vm_compute. reflexivity. Qed.

Example format_year_sample :
  format_year "https://dblp.org/db/conf/aaai/aaai{year}.html" 2021
  = "https://dblp.org/db/conf/aaai/aaai2021.html".
Proof. reflexivity. Qed.

Example py_split_sample :
  py_split " Deep  Learning for X " = ["Deep"; "Learning"; "for"; "X"].
Proof. reflexivity. Qed.

Example get_paper_info_sample :
  get_paper_info sample_world "aaai" 2021
  = Ok [Paper "On Engines." "Ada Lovelace" "2021" "AAAI"
              "https://doi.org/10.1/x";
        Paper "On Engines." "Ada Lovelace" "2021" "AAAI" ""].
Proof. vm_compute. reflexivity. Qed.

End Samples.
